(** * auto-refactor: the block extraction and transactional rewrite engine

    A shallow embedding of [src/refactor.ts] (the larger of the two revisions
    held in that file, class [AutoRefactor]) and of [src/utils/fileUtils.ts],
    with the properties of the engine stated and proved over it.

    Conventions of the embedding.
    - JavaScript strings are [string]s; source text is taken to be ASCII, so a
      UTF-16 code unit is an [ascii] below 128.  [EmptyString] is the empty
      string.
    - Arrays are [list]s, indices are [nat].
    - The [fs-extra] provider is a finite map from paths to contents, a set
      of paths on which the provider rejects mutation, and the set of the
      directories that were made; [async] code is awaited in sequence, which
      the state-and-exception monad [M] renders.
    - Regular expressions are values of [Regex.re], run by a backtracking
      matcher with JavaScript's priorities (leftmost, greedy, first
      alternative first). *)

From Stdlib Require Import Ascii String DecimalString QArith.
From stdpp Require Import gmap strings list.

Set Default Proof Using "Type".

(* ===================================================================== *)
(** ** JavaScript string primitives *)
(* ===================================================================== *)

Module Js.

Definition code (c : ascii) : nat := nat_of_ascii c.

Definition in_range (lo hi : ascii) (c : ascii) : bool :=
  (code lo <=? code c) && (code c <=? code hi).

Definition is_upper (c : ascii) : bool := in_range "A" "Z" c.
Definition is_lower (c : ascii) : bool := in_range "a" "z" c.
Definition is_digit (c : ascii) : bool := in_range "0" "9" c.

(** [\w] *)
Definition is_word (c : ascii) : bool :=
  is_upper c || is_lower c || is_digit c || Ascii.eqb c "_".

(** [\s], and the characters [String.prototype.trim] strips (ASCII part):
    TAB, LF, VT, FF, CR, SPACE. *)
Definition is_space (c : ascii) : bool :=
  in_range "009" "013" c || Ascii.eqb c " ".

(** [.] matches everything but a line terminator. *)
Definition is_dot (c : ascii) : bool :=
  negb (Ascii.eqb c "010" || Ascii.eqb c "013").

(** [c.toUpperCase()] for one ASCII character. *)
Definition upper_char (c : ascii) : ascii :=
  if is_lower c then ascii_of_nat (code c - 32) else c.

(** A text of ASCII characters: every character code is below 128.  On
    such a text [toUpperCase] changes the letters [a] to [z] and nothing
    else, one character for one. *)
Definition is_ascii (c : ascii) : bool := code c <? 128.

Fixpoint all_ascii (s : string) : bool :=
  match s with
  | EmptyString => true
  | String c s' => is_ascii c && all_ascii s'
  end.

Fixpoint startsWith_ (p s : string) : bool :=
  match p, s with
  | EmptyString, _ => true
  | String a p', String b s' => Ascii.eqb a b && startsWith_ p' s'
  | String _ _, EmptyString => false
  end.

(** [s.startsWith(p)] *)
Definition startsWith (s p : string) : bool := startsWith_ p s.

(** [s.includes(sub)] *)
Fixpoint includes (s sub : string) : bool :=
  startsWith s sub ||
  match s with
  | EmptyString => false
  | String _ s' => includes s' sub
  end.

(** [s.trimStart()], [s.trimEnd()], [s.trim()] *)
Fixpoint trimStart (s : string) : string :=
  match s with
  | EmptyString => EmptyString
  | String c s' => if is_space c then trimStart s' else s
  end.

Fixpoint trimEnd (s : string) : string :=
  match s with
  | EmptyString => EmptyString
  | String c s' =>
      match trimEnd s' with
      | EmptyString => if is_space c then EmptyString else String c EmptyString
      | t => String c t
      end
  end.

Definition trim (s : string) : string := trimEnd (trimStart s).

(** [s.split(c)] for a one-character separator: never the empty array. *)
Fixpoint split (c : ascii) (s : string) : list string :=
  match s with
  | EmptyString => [EmptyString]
  | String a s' =>
      if Ascii.eqb a c then EmptyString :: split c s'
      else match split c s' with
           | h :: t => String a h :: t
           | [] => [String a EmptyString]
           end
  end.

(** [l.join(sep)] *)
Definition join (sep : string) (l : list string) : string := String.concat sep l.

(** [(s.match(/c/g) || []).length] for a one-character pattern. *)
Fixpoint count_char (c : ascii) (s : string) : nat :=
  match s with
  | EmptyString => 0
  | String a s' => (if Ascii.eqb a c then 1 else 0) + count_char c s'
  end.

(** [s.charAt(0)] and [s.slice(1)] *)
Definition charAt0 (s : string) : string :=
  match s with EmptyString => EmptyString | String c _ => String c EmptyString end.
Definition slice1 (s : string) : string :=
  match s with EmptyString => EmptyString | String _ s' => s' end.

(** [s.toUpperCase()] *)
Fixpoint toUpperCase (s : string) : string :=
  match s with
  | EmptyString => EmptyString
  | String c s' => String (upper_char c) (toUpperCase s')
  end.

(** [s.slice(-1)] *)
Fixpoint sliceLast (s : string) : string :=
  match s with
  | EmptyString => EmptyString
  | String c EmptyString => s
  | String _ s' => sliceLast s'
  end.

(** [lines.slice(from, to + 1)] *)
Definition slice_incl {A} (l : list A) (from to : nat) : list A :=
  take (S to - from) (drop from l).

End Js.

(* ===================================================================== *)
(** ** Regular expressions *)
(* ===================================================================== *)

Module Regex.

Inductive re : Type :=
| Eps                         (* empty pattern *)
| Chr (c : ascii)             (* a literal character *)
| Cls (p : ascii -> bool)     (* a character class *)
| Cat (r1 r2 : re)            (* r1r2 *)
| Alt (r1 r2 : re)            (* r1|r2 *)
| Star (r : re)               (* r*, greedy *)
| Grp (n : nat) (r : re)      (* capturing group number n *)
| Bol                         (* ^ (no m flag) *)
| Eol                         (* $ (no m flag) *)
| Wordb.                      (* \b *)

Definition Plus (r : re) : re := Cat r (Star r).
Definition Opt (r : re) : re := Alt r Eps.

(** A literal word such as [function]. *)
Fixpoint Lit (s : string) : re :=
  match s with
  | EmptyString => Eps
  | String c s' => Cat (Chr c) (Lit s')
  end.

Definition caps : Type := list (nat * string).

Fixpoint cap (n : nat) (c : caps) : option string :=
  match c with
  | [] => None
  | (k, v) :: c' => if Nat.eqb k n then Some v else cap n c'
  end.

Definition prefix_upto (s rest : string) : string :=
  String.substring 0 (String.length s - String.length rest) s.

Definition word_before (prev : option ascii) : bool :=
  match prev with Some c => Js.is_word c | None => false end.
Definition word_after (s : string) : bool :=
  match s with String c _ => Js.is_word c | EmptyString => false end.

Section Matcher.
Context {R : Type}.

(** [m r prev s c k]: match [r] at the head of [s] ([prev] is the character
    just before it), then run the continuation on what is left.  [None] is
    failure, which makes the caller backtrack.  A turn of a star has to read
    at least one character, so a star on [s] takes [length s] turns at most:
    the bound of its loop is never what stops it. *)
Fixpoint m (r : re) (prev : option ascii) (s : string) (c : caps)
    (k : option ascii -> string -> caps -> option R) {struct r} : option R :=
  match r with
  | Eps => k prev s c
  | Chr a =>
      match s with
      | String b s' => if Ascii.eqb a b then k (Some b) s' c else None
      | EmptyString => None
      end
  | Cls p =>
      match s with
      | String b s' => if p b then k (Some b) s' c else None
      | EmptyString => None
      end
  | Cat r1 r2 => m r1 prev s c (fun p' s' c' => m r2 p' s' c' k)
  | Alt r1 r2 =>
      match m r1 prev s c k with
      | Some x => Some x
      | None => m r2 prev s c k
      end
  | Star r1 =>
      (fix loop (fuel : nat) (prev : option ascii) (s : string) (c : caps)
         {struct fuel} : option R :=
         match fuel with
         | 0 => k prev s c
         | S fuel' =>
             match m r1 prev s c
                     (fun p' s' c' =>
                        if String.length s' <? String.length s
                        then loop fuel' p' s' c' else None) with
             | Some x => Some x
             | None => k prev s c
             end
         end) (S (String.length s)) prev s c
  | Grp n r1 =>
      m r1 prev s c (fun p' s' c' => k p' s' ((n, prefix_upto s s') :: c'))
  | Bol => match prev with None => k prev s c | Some _ => None end
  | Eol => match s with EmptyString => k prev s c | String _ _ => None end
  | Wordb => if xorb (word_before prev) (word_after s) then k prev s c else None
  end.
End Matcher.

(** The result of [RegExp.prototype.exec]: the text before the match, the
    matched text, the text after it and the captures. *)
Record found : Type := Found {
  before : string;
  matched : string;
  after : string;
  groups : caps
}.

Definition match_here (r : re) (prev : option ascii) (s : string)
    : option (string * caps) :=
  m r prev s [] (fun _ s' c' => Some (s', c')).

(** Leftmost match at or after the head of [s]; [pre] is the reversed text
    already skipped. *)
Fixpoint exec_from (r : re) (prev : option ascii) (pre : string) (s : string)
    : option found :=
  match match_here r prev s with
  | Some (rest, c) =>
      Some (Found (String.rev pre) (prefix_upto s rest) rest c)
  | None =>
      match s with
      | EmptyString => None
      | String a s' => exec_from r (Some a) (String a pre) s'
      end
  end.

Definition exec (r : re) (s : string) : option found :=
  exec_from r None EmptyString s.

(** [r.test(s)] *)
Definition test (r : re) (s : string) : bool :=
  match exec r s with Some _ => true | None => false end.

(** [s.match(r)?.[n]] *)
Definition capture (r : re) (n : nat) (s : string) : option string :=
  match exec r s with Some f => cap n (groups f) | None => None end.

(** [s.replace(r, with)] without the [g] flag. *)
Definition replace_first (r : re) (s : string) (w : string) : string :=
  match exec r s with
  | Some f => before f +:+ w +:+ after f
  | None => s
  end.

(** The character before the position reached once [s] has been read from a
    position that had [prev] before it. *)
Fixpoint last_char (prev : option ascii) (s : string) : option ascii :=
  match s with
  | EmptyString => prev
  | String c s' => last_char (Some c) s'
  end.

(** [s.replace(r, f)] with the [g] flag: every match, left to right, is
    replaced by [f] of the matched text; an empty match moves one character
    forward. *)
Fixpoint replace_all_from (fuel : nat) (r : re) (f : string -> string)
    (prev : option ascii) (s : string) : string :=
  match fuel with
  | 0 => s
  | S fuel' =>
      match exec_from r prev EmptyString s with
      | None => s
      | Some x =>
          match matched x, after x with
          | EmptyString, EmptyString => before x +:+ f EmptyString
          | EmptyString, String a rest =>
              before x +:+ f EmptyString +:+ String a EmptyString +:+
              replace_all_from fuel' r f (Some a) rest
          | mt, rest =>
              before x +:+ f mt +:+
              replace_all_from fuel' r f (last_char prev (before x +:+ mt)) rest
          end
      end
  end.

Definition replace_all (r : re) (f : string -> string) (s : string) : string :=
  replace_all_from (S (String.length s)) r f None s.

End Regex.

(* ===================================================================== *)
(** ** Export-name derivation *)
(* ===================================================================== *)

Module Naming.
Import Regex.

(** [extractMainComponentName]:
    [fileName.split('-').map(part => part.charAt(0).toUpperCase() + part.slice(1)).join('')] *)
Definition extractMainComponentName (fileName : string) : string :=
  Js.join EmptyString
    (map (fun part => Js.toUpperCase (Js.charAt0 part) +:+ Js.slice1 part)
         (Js.split "-" fileName)).

(** The pattern of [toPascalCase]: [/(^|-)([a-z])/g] *)
Definition pascal_re : re :=
  Cat (Grp 1 (Alt Bol (Chr "-"))) (Grp 2 (Cls Js.is_lower)).

(** [toPascalCase]:
    [str.replace(/(^|-)([a-z])/g, (g) => g.slice(-1).toUpperCase())] *)
Definition toPascalCase (str : string) : string :=
  replace_all pascal_re (fun g => Js.toUpperCase (Js.sliceLast g)) str.

(** [toCamelCase]: [str.replace(/-([a-z])/g, (g) => g[1].toUpperCase())] *)
Definition toCamelCase (str : string) : string :=
  replace_all (Cat (Chr "-") (Grp 1 (Cls Js.is_lower)))
    (fun g => Js.toUpperCase (Js.sliceLast g)) str.

(** The derivation as the specification words it: split on hyphens,
    upper-case the first character of each segment, concatenate.  Written
    as one pass over the characters: [fresh] says that the next character
    opens a segment. *)
Fixpoint pascal_spec_go (fresh : bool) (s : string) : string :=
  match s with
  | EmptyString => EmptyString
  | String c s' =>
      if Ascii.eqb c "-" then pascal_spec_go true s'
      else String (if fresh then Js.upper_char c else c) (pascal_spec_go false s')
  end.

Definition pascal_spec (baseName : string) : string := pascal_spec_go true baseName.

End Naming.

(* ===================================================================== *)
(** ** The balanced-block scanner and the block classifier *)
(* ===================================================================== *)

Module Scanner.
Import Regex.

(** *** Where a block ends *)

(** [findEndOfImport]: the first line at or after [startIndex] that holds a
    [;] once the braces opened so far are closed; the last line otherwise.
    (Called with [startIndex < lines.length] only; on an index past the end
    the source returns [startIndex - 1].) *)
Fixpoint findEndOfImport_loop (ls : list string) (i : nat) (braceCount : Z) : nat :=
  match ls with
  | [] => i - 1
  | line :: rest =>
      let braceCount :=
        (braceCount + Z.of_nat (Js.count_char "{" line)
                    - Z.of_nat (Js.count_char "}" line))%Z in
      if Js.includes line ";" && (braceCount <=? 0)%Z then i
      else findEndOfImport_loop rest (S i) braceCount
  end.

Definition findEndOfImport (lines : list string) (startIndex : nat) : nat :=
  findEndOfImport_loop (drop startIndex lines) startIndex 0.

(** The [for (const char of line)] loop shared by the three brace counters:
    [opens] and [closes] say which characters count. *)
Fixpoint count_line (opens closes : ascii -> bool) (line : string)
    (st : Z * bool) : Z * bool :=
  match line with
  | EmptyString => st
  | String char rest =>
      let '(braceCount, found) := st in
      let '(braceCount, found) :=
        if opens char then ((braceCount + 1)%Z, true) else (braceCount, found) in
      let braceCount := if closes char then (braceCount - 1)%Z else braceCount in
      count_line opens closes rest (braceCount, found)
  end.

Definition is_lbrace (c : ascii) : bool := Ascii.eqb c "{".
Definition is_rbrace (c : ascii) : bool := Ascii.eqb c "}".
Definition is_lbrace_or_lbracket (c : ascii) : bool :=
  Ascii.eqb c "{" || Ascii.eqb c "[".
Definition is_rbrace_or_rbracket (c : ascii) : bool :=
  Ascii.eqb c "}" || Ascii.eqb c "]".

(** [findEndOfTypeDefinition] *)
Fixpoint findEndOfTypeDefinition_loop (ls : list string) (i : nat)
    (st : Z * bool) : nat :=
  match ls with
  | [] => i - 1
  | line :: rest =>
      let '(braceCount, foundOpenBrace) := count_line is_lbrace is_rbrace line st in
      if negb foundOpenBrace && Js.includes line ";" then i
      else if foundOpenBrace && (braceCount =? 0)%Z then i
      else findEndOfTypeDefinition_loop rest (S i) (braceCount, foundOpenBrace)
  end.

Definition findEndOfTypeDefinition (lines : list string) (startIndex : nat) : nat :=
  findEndOfTypeDefinition_loop (drop startIndex lines) startIndex (0%Z, false).

(** [findEndOfConstant] *)
Fixpoint findEndOfConstant_loop (ls : list string) (i : nat)
    (st : Z * bool) : nat :=
  match ls with
  | [] => i - 1
  | line :: rest =>
      let '(braceCount, foundStart) :=
        count_line is_lbrace_or_lbracket is_rbrace_or_rbracket line st in
      if negb foundStart && Js.includes line ";" then i
      else if foundStart && (braceCount =? 0)%Z && Js.includes line ";" then i
      else findEndOfConstant_loop rest (S i) (braceCount, foundStart)
  end.

Definition findEndOfConstant (lines : list string) (start : nat) : nat :=
  findEndOfConstant_loop (drop start lines) start (0%Z, false).

(** [findEndOfFunction]; [i === lines.length - 1] is [rest = []]. *)
Fixpoint findEndOfFunction_loop (ls : list string) (i : nat)
    (st : Z * bool) : nat :=
  match ls with
  | [] => i - 1
  | line :: rest =>
      let '(braceCount, foundFunctionStart) :=
        count_line is_lbrace is_rbrace line st in
      if Js.includes line "=>" && negb (Js.includes line "{")
         && negb foundFunctionStart
         && (Js.includes line ";" || match rest with [] => true | _ => false end)
      then i
      else if foundFunctionStart && (braceCount =? 0)%Z then i
      else findEndOfFunction_loop rest (S i) (braceCount, foundFunctionStart)
  end.

Definition findEndOfFunction (lines : list string) (startIndex : nat) : nat :=
  findEndOfFunction_loop (drop startIndex lines) startIndex (0%Z, false).

Inductive blockType : Type := BImport | BType | BConstant | BFunction.

Record block : Type := Block { content : string; endIndex : nat }.

(** [extractBlock] *)
Definition extractBlock (lines : list string) (startIndex : nat)
    (bt : blockType) : block :=
  let endIndex :=
    match bt with
    | BImport => findEndOfImport lines startIndex
    | BType => findEndOfTypeDefinition lines startIndex
    | BConstant => findEndOfConstant lines startIndex
    | BFunction => findEndOfFunction lines startIndex
    end in
  Block (Js.join (String "010" EmptyString) (Js.slice_incl lines startIndex endIndex))
        endIndex.

(** *** The classifier's tests *)

Definition kw : re := Alt (Lit "function") (Lit "const").
Definition is_alnum (c : ascii) : bool :=
  Js.is_lower c || Js.is_upper c || Js.is_digit c.

(** The pattern /(?:function|const)\s+(G)/ whose group G is [A-Z][a-zA-Z0-9]* . *)
Definition capital_name_re : re :=
  Cat kw (Cat (Plus (Cls Js.is_space))
              (Grp 1 (Cat (Cls Js.is_upper) (Star (Cls is_alnum))))).

(** The pattern /<[A-Z][^>]*>/ *)
Definition generic_re : re :=
  Cat (Chr "<") (Cat (Cls Js.is_upper)
    (Cat (Star (Cls (fun c => negb (Ascii.eqb c ">")))) (Chr ">"))).

(** The pattern /(?:function|const)\s+(\w+)/ *)
Definition name_re : re :=
  Cat kw (Cat (Plus (Cls Js.is_space)) (Grp 1 (Plus (Cls Js.is_word)))).

(** The pattern /^[A-Z].*(?:Table|Component|Page|View|Layout|App)$/ *)
Definition role_re : re :=
  Cat Bol (Cat (Cls Js.is_upper) (Cat (Star (Cls Js.is_dot))
    (Cat (Alt (Lit "Table") (Alt (Lit "Component") (Alt (Lit "Page")
           (Alt (Lit "View") (Alt (Lit "Layout") (Lit "App"))))))
         Eol))).

(** [isFunction] *)
Definition isFunction (line : string) : bool :=
  (Js.includes line "function " ||
     (Js.includes line "const " && Js.includes line " = " &&
        (Js.includes line "=>" || Js.includes line "function")))
  && negb (Js.includes line "React.FC")
  && negb (Js.includes line ": FC").

(** [isComponent] *)
Definition isComponent (line : string) : bool :=
  (Js.includes line "function " ||
     (Js.includes line "const " && Js.includes line " = "))
  && (Js.includes line "React.FC" ||
      Js.includes line ": FC" ||
      Js.includes line ": React." ||
      Js.includes line "JSX.Element" ||
      Js.includes line "ReactElement" ||
      Js.includes line "export function" ||
      test capital_name_re line ||
      test generic_re line).

(** The loop of [isMainComponent] over [lines[index..]]:
    some line includes [export default <componentName>]. *)
Definition default_export_after (lines : list string) (index : nat)
    (componentName : string) : bool :=
  existsb (fun l => Js.includes l ("export default " +:+ componentName))
          (drop index lines).

(** [isMainComponent]; called with [index < lines.length] only. *)
Definition isMainComponent (lines : list string) (index : nat) : bool :=
  match lines !! index with
  | None => false
  | Some line =>
      match capture name_re 1 line with
      | None => false
      | Some componentName =>
          if default_export_after lines index componentName then true
          else if Js.includes line "export function" then true
          else if test role_re componentName then true
          else false
      end
  end.

(** *** [parseReactFile] *)

Record parsed : Type := Parsed {
  imports : list string;
  types : list string;
  constants : list string;
  utilities : list string;
  subComponents : list string;
  mainComponent : string
}.

Definition empty_parsed : parsed := Parsed [] [] [] [] [] EmptyString.

Definition line_at (lines : list string) (i : nat) : string :=
  default EmptyString (lines !! i).

(** The [while (i < lines.length)] loop.  Each turn moves [i] forward, so
    [fuel] turns are a bound to be justified, not a cut-off: [None] would be
    a scan that has not finished. *)
Fixpoint parse_loop (fuel : nat) (lines : list string) (i : nat)
    (result : parsed) : option parsed :=
  if length lines <=? i then Some result
  else match fuel with
  | 0 => None
  | S fuel' =>
      let line := Js.trim (line_at lines i) in
      if Js.startsWith line "import" then
        let importBlock := extractBlock lines i BImport in
        parse_loop fuel' lines (endIndex importBlock + 1)
          (Parsed (imports result ++ [content importBlock]) (types result)
             (constants result) (utilities result) (subComponents result)
             (mainComponent result))
      else if Js.includes line "interface " || Js.includes line "type " then
        let typeBlock := extractBlock lines i BType in
        parse_loop fuel' lines (endIndex typeBlock + 1)
          (Parsed (imports result) (types result ++ [content typeBlock])
             (constants result) (utilities result) (subComponents result)
             (mainComponent result))
      else if Js.startsWith line "const " && negb (isFunction line)
              && negb (isComponent line) then
        let constantBlock := extractBlock lines i BConstant in
        parse_loop fuel' lines (endIndex constantBlock + 1)
          (Parsed (imports result) (types result)
             (constants result ++ [content constantBlock]) (utilities result)
             (subComponents result) (mainComponent result))
      else if isFunction line || isComponent line then
        let functionBlock := extractBlock lines i BFunction in
        parse_loop fuel' lines (endIndex functionBlock + 1)
          (if isComponent line then
             if isMainComponent lines i then
               Parsed (imports result) (types result) (constants result)
                 (utilities result) (subComponents result)
                 (content functionBlock)
             else
               Parsed (imports result) (types result) (constants result)
                 (utilities result)
                 (subComponents result ++ [content functionBlock])
                 (mainComponent result)
           else
             Parsed (imports result) (types result) (constants result)
               (utilities result ++ [content functionBlock])
               (subComponents result) (mainComponent result))
      else parse_loop fuel' lines (i + 1) result
  end.

Definition parseReactFile (content : string) : option parsed :=
  let lines := Js.split "010" content in
  parse_loop (length lines) lines 0 empty_parsed.

End Scanner.

(* ===================================================================== *)
(** ** The import dependency filters *)
(* ===================================================================== *)

Module Imports.
Import Regex.

Definition sp : re := Plus (Cls Js.is_space).
Definition word : re := Plus (Cls Js.is_word).
Definition is_quote (c : ascii) : bool := Ascii.eqb c "'" || Ascii.eqb c "034".

(** The pattern of [getRequiredImports]: the word import, white space, an
    optional [type\s+], then one of: group 1 = [[^}]+] between braces;
    [\*\s+as\s+] and group 2 = [\w+]; group 3 = [\w+]; then [\s+from\s+],
    a quote, group 4 = one or more characters that are no quote, a quote. *)
Definition import_re : re :=
  Cat (Lit "import") (Cat sp
    (Cat (Opt (Cat (Lit "type") sp))
      (Cat (Alt (Cat (Chr "{")
                   (Cat (Grp 1 (Plus (Cls (fun c => negb (Ascii.eqb c "}")))))
                        (Chr "}")))
             (Alt (Cat (Chr "*") (Cat sp (Cat (Lit "as") (Cat sp (Grp 2 word)))))
                  (Grp 3 word)))
        (Cat sp (Cat (Lit "from") (Cat sp
          (Cat (Cls is_quote)
             (Cat (Grp 4 (Plus (Cls (fun c => negb (is_quote c)))))
                  (Cls is_quote))))))))).

(** The pattern /\s+as\s+\w+/ *)
Definition alias_re : re := Cat sp (Cat (Lit "as") (Cat sp word)).

(** A captured group is used when it is defined and not the empty string. *)
Definition truthy (g : option string) : option string :=
  match g with
  | Some EmptyString => None
  | other => other
  end.

(** The [for (const imp of imports)] loop with its [break]. *)
Fixpoint any_named_used (content : string) (imports : list string) : bool :=
  match imports with
  | [] => false
  | imp :: rest =>
      let cleanImport := Js.trim (replace_first alias_re imp EmptyString) in
      if Js.includes content cleanImport then true
      else any_named_used content rest
  end.

(** The body of the loop of [getRequiredImports] for one statement:
    [None] for [continue], [Some isUsed] otherwise. *)
Definition import_is_used (content importStatement : string) : option bool :=
  match exec import_re importStatement with
  | None => None
  | Some importMatch =>
      let namedImports := truthy (cap 1 (groups importMatch)) in
      let namespaceImport := truthy (cap 2 (groups importMatch)) in
      let defaultImport := truthy (cap 3 (groups importMatch)) in
      Some
        match namedImports, namespaceImport, defaultImport with
        | Some namedImports, _, _ =>
            let imports := map Js.trim (Js.split "," namedImports) in
            any_named_used content imports
        | None, Some namespaceImport, _ => Js.includes content namespaceImport
        | None, None, Some defaultImport => Js.includes content defaultImport
        | None, None, None => false
        end
  end.

(** [getRequiredImports] *)
Fixpoint getRequiredImports (content : string) (allImports : list string)
    : list string :=
  match allImports with
  | [] => []
  | importStatement :: rest =>
      match import_is_used content importStatement with
      | Some true => importStatement :: getRequiredImports content rest
      | _ => getRequiredImports content rest
      end
  end.

(** [new RegExp(`\\b${type}\\b`, 'g')].  The name is spliced into the
    pattern text; the embedding reads it as a literal, which is what the
    pattern means when the name holds letters, digits and underscores only. *)
Definition type_re (type : string) : re := Cat Wordb (Cat (Lit type) Wordb).

(** [filterUsedTypes] *)
Fixpoint filterUsedTypes (allTypes : list string) (contentToAnalyze : string)
    : list string :=
  match allTypes with
  | [] => []
  | type :: rest =>
      if test (type_re type) contentToAnalyze
      then type :: filterUsedTypes rest contentToAnalyze
      else filterUsedTypes rest contentToAnalyze
  end.

(** *** What the filters are measured against *)

(** The names an import statement brings in, as [getRequiredImports] reads
    them: the pieces of a braced list with their aliases dropped, or the one
    bound name of a namespace or default import. *)
Definition imported_names (importStatement : string) : option (list string) :=
  match exec import_re importStatement with
  | None => None
  | Some f =>
      Some
        match truthy (cap 1 (groups f)), truthy (cap 2 (groups f)),
              truthy (cap 3 (groups f)) with
        | Some named, _, _ =>
            map (fun imp => Js.trim (replace_first alias_re imp EmptyString))
                (map Js.trim (Js.split "," named))
        | None, Some ns, _ => [ns]
        | None, None, Some d => [d]
        | None, None, None => []
        end
  end.

(** [sub] occurs somewhere in [text]. *)
Definition occurs (sub text : string) : Prop :=
  exists pre post, text = pre +:+ sub +:+ post.

Definition last_of (s : string) : option ascii := last_char None s.

(** [name] occurs in [text] as a whole identifier: no word character
    touches the occurrence on either side. *)
Definition occurs_whole (name text : string) : Prop :=
  exists pre post,
    text = pre +:+ name +:+ post /\
    word_before (last_of pre) = false /\
    word_after post = false.

Fixpoint all_word (name : string) : bool :=
  match name with
  | EmptyString => true
  | String c name' => Js.is_word c && all_word name'
  end.

(** A name made of word characters, at least one. *)
Definition is_identifier (name : string) : Prop :=
  name <> EmptyString /\ all_word name = true.

End Imports.

(* ===================================================================== *)
(** ** The file-system provider and the monad of the engine *)
(* ===================================================================== *)

Module Fs.

(** The state of the provider: the files with their contents, the paths on
    which it rejects a mutation (EACCES, EPERM, EBUSY), a clock that
    backups read, and the directories that [fs.ensureDir] made.  A directory
    that holds a file is known from that file. *)
Record state : Type := State {
  files : gmap string string;
  locked : gset string;
  clock : nat;
  dirs : gset string
}.

(** What an awaited call comes to: a value, or a raised error.  An error is
    kept in the form [String(error)] gives it. *)
Inductive outcome (A : Type) : Type :=
| Ok (a : A)
| Throw (error : string).
Arguments Ok {A} a.
Arguments Throw {A} error.

Definition M (A : Type) : Type := state -> outcome A * state.

Definition ret {A} (a : A) : M A := fun st => (Ok a, st).
Definition throw {A} (error : string) : M A := fun st => (Throw error, st).
Definition bind {A B} (c : M A) (k : A -> M B) : M B :=
  fun st =>
    match c st with
    | (Ok a, st') => k a st'
    | (Throw e, st') => (Throw e, st')
    end.

(** [try { c } catch (error) { h error }] *)
Definition try_catch {A} (c : M A) (h : string -> M A) : M A :=
  fun st =>
    match c st with
    | (Ok a, st') => (Ok a, st')
    | (Throw e, st') => h e st'
    end.

(** Running [c] and looking at how it ended. *)
Definition attempt {A} (c : M A) : M (outcome A) :=
  fun st => let '(r, st') := c st in (Ok r, st').

Definition set_files (f : gmap string string -> gmap string string)
    (st : state) : state :=
  State (f (files st)) (locked st) (clock st) (dirs st).

(** [fs.pathExists(p)], and [fs.existsSync(p)] where the engine looks for
    a file: a file is at [p]. *)
Definition pathExists (p : string) : M bool :=
  fun st => (Ok (bool_decide (is_Some (files st !! p))), st).

(** [fs.readFile(p, 'utf8')] *)
Definition readFile (p : string) : M string :=
  fun st =>
    match files st !! p with
    | Some c => (Ok c, st)
    | None => (Throw ("Error: ENOENT: no such file or directory, open '" +:+ p +:+ "'"), st)
    end.

Definition denied (p : string) : string :=
  "Error: EACCES: permission denied, open '" +:+ p +:+ "'".

(** [fs.writeFile(p, c)] *)
Definition writeFile (p c : string) : M unit :=
  fun st =>
    if bool_decide (p ∈ locked st) then (Throw (denied p), st)
    else (Ok tt, set_files (insert p c) st).

(** [fs.remove(p)]: removing what is not there is no error. *)
Definition remove (p : string) : M unit :=
  fun st =>
    if bool_decide (p ∈ locked st) then (Throw (denied p), st)
    else (Ok tt, set_files (delete p) st).

(** [fs.copy(src, dst)] *)
Definition copy (src dst : string) : M unit :=
  fun st =>
    match files st !! src with
    | None => (Throw ("Error: ENOENT: no such file or directory, lstat '" +:+ src +:+ "'"), st)
    | Some c =>
        if bool_decide (src = dst)
        then (Throw "Error: Source and destination must not be the same.", st)
        else if bool_decide (dst ∈ locked st) then (Throw (denied dst), st)
        else (Ok tt, set_files (insert dst c) st)
    end.

(** [new Date()] read, the clock moving on. *)
Definition tick : M nat :=
  fun st => (Ok (clock st), State (files st) (locked st) (S (clock st)) (dirs st)).

(** [fs.mkdir(p)] of a path at which nothing is. *)
Definition mkdir (p : string) : M unit :=
  fun st =>
    if bool_decide (p ∈ locked st)
    then (Throw ("Error: EACCES: permission denied, mkdir '" +:+ p +:+ "'"), st)
    else (Ok tt, State (files st) (locked st) (clock st) ({[ p ]} ∪ dirs st)).

Definition get_files : M (gmap string string) :=
  fun st => (Ok (files st), st).

End Fs.

Declare Scope engine_scope.
Delimit Scope engine_scope with engine.
Notation "'let*' x ':=' c 'in' k" := (Fs.bind c (fun x => k))
  (at level 10, x pattern, c at level 100, k at level 200) : engine_scope.
Notation "c ';;' k" := (Fs.bind c (fun _ => k))
  (at level 100, k at level 200, right associativity) : engine_scope.

(* ===================================================================== *)
(** ** The engine: scan, run and the write transaction *)
(* ===================================================================== *)

Module Engine.
Import Fs.
Local Open Scope engine_scope.

(** [RefactorConfig], the fields the engine reads.  [maxLines] is a line
    count, an integer. *)
Record RefactorConfig : Type := {
  maxLines : Z;
  targetDirectories : list string;
  fileExtensions : list string;
  excludePatterns : list string
}.

Record FileToRefactor : Type := {
  path : string;
  lines : nat;
  framework : string
}.

Record RefactorResult : Type := {
  originalFile : string;
  newFiles : list string;
  linesReduced : Q;
  success : bool;
  error : option string;
  analysis : option (list string)
}.

Record RunOptions : Type := {
  dryRun : bool;
  createBackups : option bool;
  specificFile : option string
}.

(** What [analyzeFile] returns. *)
Record Suggestions : Type := {
  suggestedFiles : list string;
  estimatedReduction : Q;
  analysis_lines : list string
}.

(** Node's [path] module, [glob], the clock's rendering and the project
    root: the platform the engine runs on. *)
Record Platform : Type := {
  projectRoot : string;
  dirname : string -> string;
  basename : string -> string;
  basename_ext : string -> string -> string;
  extname : string -> string;
  join : string -> string -> string;
  resolve : string -> string -> string;
  (** [new Date().toISOString().replace(/[:.]/g, '-')] at a clock value *)
  timestamp : nat -> string;
  (** [fs.existsSync] of a directory *)
  dirExists : gmap string string -> string -> bool;
  (** [glob(pattern, { ignore })] over the files present *)
  glob : gmap string string -> string -> list string -> list string
}.

(** The text synthesis of the engine, which calls the provider nowhere: for
    each kind of file, the files to write, in the order of the writes, with
    their texts.
    - [graphqlPlan]: the fragments file, the query files and the index file
      of [refactorGraphQLFile]; [graphqlMain]: the text it then gives the
      original file.
    - [typesPlan]: the files of [refactorTypesFile], index file last.
    - [reactPlan]: the files of [refactorReactComponent]'s [try] block.
    - [analyzeFile], [detectFramework] (which reads [package.json]).
    The synthesis is taken to return on every input: the errors of a
    transaction are those of the provider. *)
Record Synthesis : Type := {
  graphqlPlan : string -> string -> list (string * string);
  graphqlMain : string -> string -> string;
  typesPlan : string -> string -> list (string * string);
  reactPlan : string -> string -> list (string * string);
  analyzeFile : string -> string -> Suggestions;
  detectFramework : gmap string string -> string
}.

Section WithPlatform.
Context (pf : Platform) (syn : Synthesis) (config : RefactorConfig).

Definition string_of_nat (n : nat) : string :=
  NilEmpty.string_of_uint (Nat.to_uint n).

(** [getFileLineCount] of [utils/fileUtils.ts]:
    [content.split('\n').length] *)
Definition getFileLineCount (filePath : string) : M nat :=
  let* content := readFile filePath in
  ret (length (Js.split "010" content)).

(** *** [scan] *)

(** The inner [for (const file of files)] loop. *)
Fixpoint scan_files (framework : string) (files : list string)
    (filesToRefactor : list FileToRefactor) : M (list FileToRefactor) :=
  match files with
  | [] => ret filesToRefactor
  | file :: rest =>
      let* lines := getFileLineCount file in
      if (Z.of_nat lines >? maxLines config)%Z
      then scan_files framework rest
             (filesToRefactor ++ [Build_FileToRefactor file lines framework])
      else scan_files framework rest filesToRefactor
  end.

(** The outer [for (const dir of this.config.targetDirectories)] loop. *)
Fixpoint scan_dirs (framework : string) (dirs : list string)
    (filesToRefactor : list FileToRefactor) : M (list FileToRefactor) :=
  match dirs with
  | [] => ret filesToRefactor
  | dir :: rest =>
      let targetDir := join pf (projectRoot pf) dir in
      let* fsys := get_files in
      if negb (dirExists pf fsys targetDir)
      then scan_dirs framework rest filesToRefactor
      else
        let pattern :=
          targetDir +:+ "/**/*{" +:+ Js.join "," (fileExtensions config) +:+ "}" in
        let files :=
          glob pf fsys pattern
            (map (fun pattern => join pf (projectRoot pf) pattern)
                 (excludePatterns config)) in
        let* filesToRefactor := scan_files framework files filesToRefactor in
        scan_dirs framework rest filesToRefactor
  end.

Definition scan : M (list FileToRefactor) :=
  let* fsys := get_files in
  let framework := detectFramework syn fsys in
  scan_dirs framework (targetDirectories config) [].

(** *** Verification, rollback, backup *)

Record Verification : Type := {
  v_success : bool;
  v_error : option string
}.

(** The three loops of [verifyRefactoring]; [Some] is an early [return]. *)
Fixpoint verify_exist (newFiles : list string) : M (option Verification) :=
  match newFiles with
  | [] => ret None
  | file :: rest =>
      let* e := pathExists file in
      if negb e
      then ret (Some (Build_Verification false
                        (Some ("Created file does not exist: " +:+ file))))
      else verify_exist rest
  end.

Fixpoint verify_content (newFiles : list string) : M (option Verification) :=
  match newFiles with
  | [] => ret None
  | file :: rest =>
      let* content := readFile file in
      if String.length (Js.trim content) =? 0
      then ret (Some (Build_Verification false
                        (Some ("Created file is empty: " +:+ file))))
      else verify_content rest
  end.

Fixpoint verify_braces (newFiles : list string) : M (option Verification) :=
  match newFiles with
  | [] => ret None
  | file :: rest =>
      let* content := readFile file in
      let openBraces := Js.count_char "{" content in
      let closeBraces := Js.count_char "}" content in
      if negb (openBraces =? closeBraces)
      then ret (Some (Build_Verification false
                        (Some ("Syntax error in file: " +:+ file +:+
                               " - unbalanced braces"))))
      else verify_braces rest
  end.

Definition verifyRefactoring (originalFile : string) (newFiles : list string)
    : M Verification :=
  try_catch
    (let* r := verify_exist newFiles in
     match r with
     | Some v => ret v
     | None =>
         let* r := verify_content newFiles in
         match r with
         | Some v => ret v
         | None =>
             let* r := verify_braces newFiles in
             match r with
             | Some v => ret v
             | None => ret (Build_Verification true None)
             end
         end
     end)
    (fun error =>
       ret (Build_Verification false (Some ("Verification failed: " +:+ error)))).

Fixpoint remove_created (createdFiles : list string) : M unit :=
  match createdFiles with
  | [] => ret tt
  | file :: rest =>
      let* e := pathExists file in
      (if e then remove file else ret tt) ;;
      remove_created rest
  end.

Definition rollbackRefactoring (originalFile : string)
    (createdFiles : list string) (backupPath : string) : M unit :=
  try_catch
    (remove_created createdFiles ;;
     let* e := pathExists backupPath in
     if e then copy backupPath originalFile else ret tt)
    (fun error => throw error).

(** The path [createBackup] gives the backup taken at clock value [now]. *)
Definition backupPathAt (filePath : string) (now : nat) : string :=
  let backupDir := join pf (projectRoot pf) ".refactor-backups" in
  let fileName := basename pf filePath in
  let backupName := fileName +:+ "-" +:+ timestamp pf now +:+ ".backup" in
  join pf backupDir backupName.

(** [fs.stat(p)] of a path that is there, [isDirectory()]: a directory
    that holds files, or one that [fs.ensureDir] made. *)
Definition isDirectory (p : string) : M bool :=
  fun st => (Ok (dirExists pf (files st) p || bool_decide (p ∈ dirs st)), st).

(** [fs.existsSync(p)] of a path that may be a directory. *)
Definition existsSync (p : string) : M bool :=
  let* f := pathExists p in
  let* d := isDirectory p in
  ret (f || d).

(** [fs.ensureDir(p)], and [ensureDirectoryExists] of [utils/fileUtils.ts]
    which calls it: a file in the place of the directory is an error, a
    directory that is there is left as it is, and otherwise the directory
    is made.  The directory above [p] is taken to be there, so that [p] is
    the one directory made: in the calls of the engine it is the project
    root, or the directory of the file that is split. *)
Definition ensureDir (p : string) : M unit :=
  let* f := pathExists p in
  if f then throw ("Error: EEXIST: file already exists, mkdir '" +:+ p +:+ "'")
  else
    let* d := isDirectory p in
    if d then ret tt else mkdir p.

(** [createBackup] *)
Definition createBackup (filePath : string) : M string :=
  let backupDir := join pf (projectRoot pf) ".refactor-backups" in
  ensureDir backupDir ;;
  let* now := tick in
  let backupPath := backupPathAt filePath now in
  copy filePath backupPath ;;
  ret backupPath.

(** *** The writers *)

(** [await fs.writeFile(f, text); newFiles.push(f)] for each planned file.
    [newFiles] is an array the caller still holds when a write throws, so
    the loop hands it back in both cases. *)
Fixpoint write_each (plan : list (string * string)) (newFiles : list string)
    : M (list string * option string) :=
  match plan with
  | [] => ret (newFiles, None)
  | (file, text) :: rest =>
      let* r := attempt (writeFile file text) in
      match r with
      | Throw e => ret (newFiles, Some e)
      | Ok _ => write_each rest (newFiles ++ [file])
      end
  end.

Definition write_all (plan : list (string * string)) (newFiles : list string)
    : M (list string) :=
  let* r := write_each plan newFiles in
  match r with
  | (_, Some e) => throw e
  | (newFiles, None) => ret newFiles
  end.

(** [splitContentIntoChunks] *)
Definition splitContentIntoChunks (content : string) (maxLines : Z)
    : list string :=
  let '(chunks, currentChunk, currentLines) :=
    fold_left
      (fun '(chunks, currentChunk, currentLines) line =>
         if (Z.of_nat currentLines >=? maxLines)%Z
            && String.eqb (Js.trim line) EmptyString
         then (chunks ++ [Js.trim currentChunk], EmptyString, 0)
         else (chunks, currentChunk +:+ line +:+ String "010" EmptyString,
               S currentLines))
      (Js.split "010" content) ([], EmptyString, 0) in
  if negb (String.eqb (Js.trim currentChunk) EmptyString)
  then chunks ++ [Js.trim currentChunk] else chunks.

(** [createGenericIndexFile] *)
Definition createGenericIndexFile (baseName : string) (newFiles : list string)
    : string :=
  let exports :=
    Js.join (String "010" EmptyString)
      (map (fun file =>
              "export * from './" +:+ basename_ext pf file ".ts" +:+ "';")
           (filter (fun file => negb (Js.includes file "index")) newFiles)) in
  exports +:+ String "010" EmptyString.

(** The chunk files [<baseName>-part<i+1><extension>] with their texts. *)
Definition chunk_plan (dir baseName extension : string) (chunks : list string)
    : list (string * string) :=
  imap (fun i chunk =>
          (join pf dir (baseName +:+ "-part" +:+ string_of_nat (i + 1) +:+ extension),
           chunk))
       chunks.

(** [refactorGraphQLFile] *)
Definition refactorGraphQLFile (filePath content : string) : M (list string) :=
  let* newFiles := write_all (graphqlPlan syn filePath content) [] in
  writeFile filePath (graphqlMain syn filePath content) ;;
  ret newFiles.

(** [refactorTypesFile] *)
Definition refactorTypesFile (filePath content : string) : M (list string) :=
  write_all (typesPlan syn filePath content) [].

(** [refactorReactComponent]: when the [try] block throws, the chunk files
    are written instead and join what [newFiles] already holds. *)
Definition refactorReactComponent (filePath content : string) : M (list string) :=
  let dir := dirname pf filePath in
  let baseName := basename_ext pf filePath (extname pf filePath) in
  let extension := extname pf filePath in
  let* r := write_each (reactPlan syn filePath content) [] in
  match r with
  | (newFiles, None) => ret newFiles
  | (newFiles, Some _) =>
      let chunks := splitContentIntoChunks content (maxLines config) in
      write_all (chunk_plan dir baseName extension chunks) newFiles
  end.

(** [refactorGenericFile] *)
Definition refactorGenericFile (filePath content : string) : M (list string) :=
  let dir := dirname pf filePath in
  let baseName := basename_ext pf filePath (extname pf filePath) in
  let extension := extname pf filePath in
  if String.eqb extension ".tsx" || String.eqb extension ".jsx" then
    refactorReactComponent filePath content
  else
    let chunks := splitContentIntoChunks content (maxLines config) in
    let* newFiles := write_all (chunk_plan dir baseName extension chunks) [] in
    let indexFile := join pf dir (baseName +:+ "-index" +:+ extension) in
    let indexContent := createGenericIndexFile baseName newFiles in
    writeFile indexFile indexContent ;;
    ret (newFiles ++ [indexFile]).

(** *** The transaction *)

Definition failed (filePath : string) (error : option string) : RefactorResult :=
  Build_RefactorResult filePath [] 0 false error None.

(** The branch of [performRefactoring] on the kind of file. *)
Definition refactorByKind (filePath content : string) : M (list string) :=
  if Js.includes filePath "GraphQLQueries" || Js.includes filePath "GraphQL" then
    refactorGraphQLFile filePath content
  else if Js.includes filePath "types" && Js.includes filePath "index.ts" then
    refactorTypesFile filePath content
  else
    refactorGenericFile filePath content.

(** [performRefactoring].  [createdFiles] is filled by one [push] once the
    writer has returned: it is empty in the [catch] block when the writer
    threw, and complete when verification or rollback did. *)
Definition performRefactoring (filePath content : string)
    (suggestions : Suggestions) : M RefactorResult :=
  let* backupPath := createBackup filePath in
  let* written := attempt (refactorByKind filePath content) in
  match written with
  | Throw error =>
      rollbackRefactoring filePath [] backupPath ;;
      throw error
  | Ok createdFiles =>
      try_catch
        (let* verificationResult := verifyRefactoring filePath createdFiles in
         if negb (v_success verificationResult) then
           rollbackRefactoring filePath createdFiles backupPath ;;
           ret (failed filePath (v_error verificationResult))
         else
           ret (Build_RefactorResult filePath createdFiles
                  (estimatedReduction suggestions) true None None))
        (fun error =>
           rollbackRefactoring filePath createdFiles backupPath ;;
           throw error)
  end.

(** [refactorFile] *)
Definition refactorFile (file : FileToRefactor) : M RefactorResult :=
  let* content := readFile (path file) in
  let suggestions := analyzeFile syn (path file) content in
  try_catch
    (performRefactoring (path file) content suggestions)
    (fun error => ret (failed (path file) (Some error))).

(** *** [run] *)

(** The body of the [for (const file of filesToRefactor)] loop. *)
Definition run_one (options : RunOptions) (file : FileToRefactor)
    : M RefactorResult :=
  try_catch
    (if dryRun options then
       let* content := readFile (path file) in
       let suggestions := analyzeFile syn (path file) content in
       ret (Build_RefactorResult (path file) (suggestedFiles suggestions)
              (estimatedReduction suggestions) true None
              (Some (analysis_lines suggestions)))
     else
       (if negb (bool_decide (createBackups options = Some false))
        then createBackup (path file) ;; ret tt else ret tt) ;;
       refactorFile file)
    (fun error => ret (failed (path file) (Some error))).

Fixpoint run_loop (options : RunOptions) (filesToRefactor : list FileToRefactor)
    (results : list RefactorResult) : M (list RefactorResult) :=
  match filesToRefactor with
  | [] => ret results
  | file :: rest =>
      let* result := run_one options file in
      run_loop options rest (results ++ [result])
  end.

(** [run].  An empty [specificFile] is as good as none.  [isFile] is
    [stats.isFile()] of [fs.stat(absolutePath)], on a path that is there. *)
Definition run (options : RunOptions) : M (list RefactorResult) :=
  let* filesToRefactor :=
    match specificFile options with
    | Some (String _ _ as specific) =>
        let absolutePath := resolve pf (projectRoot pf) specific in
        let* e := existsSync absolutePath in
        if negb e then throw ("Error: File not found: " +:+ specific)
        else
          let* isFile := pathExists absolutePath in
          if negb isFile then throw ("Error: Path is not a file: " +:+ specific)
          else
            let extension := extname pf absolutePath in
            if negb (bool_decide (extension ∈ fileExtensions config))
            then throw ("Error: File extension " +:+ extension +:+
                        " is not supported. Supported extensions: " +:+
                        Js.join ", " (fileExtensions config))
            else
              let* lineCount := getFileLineCount absolutePath in
              ret [Build_FileToRefactor absolutePath lineCount
                     (if Js.includes extension "tsx" || Js.includes extension "jsx"
                      then "react" else "typescript")]
    | Some EmptyString | None => scan
    end in
  match filesToRefactor with
  | [] => ret []
  | _ => run_loop options filesToRefactor []
  end.

End WithPlatform.

End Engine.

(* ===================================================================== *)
(** ** A platform to run the engine on *)
(* ===================================================================== *)

(** POSIX paths without [.] and [..] segments, a clock that prints its value,
    and a [glob] that lists the files below the directory of the pattern whose
    name ends in one of the extensions between its braces. *)
Module Posix.
Import Engine.

Definition lastSeg (c : ascii) (p : string) : string :=
  List.last (Js.split c p) EmptyString.

Definition basename (p : string) : string := lastSeg "/" p.

Definition dirname (p : string) : string :=
  match removelast (Js.split "/" p) with
  | [] => "."
  | segs => Js.join "/" segs
  end.

Definition extname (p : string) : string :=
  match removelast (Js.split "." (basename p)) with
  | [] => EmptyString
  | [EmptyString] => EmptyString
  | _ => "." +:+ lastSeg "." (basename p)
  end.

Definition endsWith (s suffix : string) : bool :=
  Js.startsWith (String.rev s) (String.rev suffix).

Definition basename_ext (p ext : string) : string :=
  let b := basename p in
  if endsWith b ext && negb (String.eqb b ext)
  then String.substring 0 (String.length b - String.length ext) b
  else b.

Definition join (a b : string) : string := a +:+ "/" +:+ b.

Definition resolve (root p : string) : string :=
  if Js.startsWith p "/" then p else join root p.

Definition timestamp (now : nat) : string :=
  "2025-07-08T10-00-00-" +:+ string_of_nat now +:+ "Z".

Definition below (dir p : string) : bool := Js.startsWith p (dir +:+ "/").

Definition dirExists (fsys : gmap string string) (dir : string) : bool :=
  existsb (fun e => below dir e.1) (map_to_list fsys).

Definition pattern_dir (pattern : string) : string :=
  match Regex.exec (Regex.Lit "/**/") pattern with
  | Some f => Regex.before f
  | None => pattern
  end.

Definition pattern_exts (pattern : string) : list string :=
  match Js.split "{" pattern with
  | [_; e] => Js.split "," (String.substring 0 (String.length e - 1) e)
  | _ => []
  end.

Definition glob (fsys : gmap string string) (pattern : string)
    (ignore : list string) : list string :=
  filter (fun p => below (pattern_dir pattern) p
                   && existsb (endsWith p) (pattern_exts pattern)
                   && negb (existsb (fun ig => below ig p) ignore))
         (map fst (map_to_list fsys)).

Definition platform (root : string) : Platform :=
  Build_Platform root dirname basename basename_ext extname join resolve
    timestamp dirExists glob.

End Posix.

(** Sample inputs the statements below are run on. *)
Module Sample.
Import Engine.

Definition config : RefactorConfig :=
  Build_RefactorConfig 2 ["src"] [".ts"; ".tsx"] ["node_modules"].

Definition pf : Platform := Posix.platform "/p".

(** A synthesis that plans no file: the sample files take the generic
    path, which asks it for nothing but the analysis. *)
Definition syn : Synthesis :=
  Build_Synthesis (fun _ _ => []) (fun _ _ => EmptyString) (fun _ _ => [])
    (fun _ _ => [])
    (fun filePath content =>
       Build_Suggestions [Posix.dirname filePath +:+ "/utils.ts"]
         (inject_Z (Z.of_nat (length (Js.split "010" content))) * (7 # 10))
         ["Total lines"])
    (fun _ => "unknown").

Definition long_ts : string :=
"function f() {
g();

}".

Definition short_ts : string :=
"const a = 1;
const b = 2;".

Definition disk : gmap string string :=
  {[ "/p/src/long.ts" := long_ts ; "/p/src/short.ts" := short_ts ]}.

Definition st0 : Fs.state := Fs.State disk ∅ 0 ∅.

(** The same disk with the long file protected against writing. *)
Definition st_locked : Fs.state := Fs.State disk {[ "/p/src/long.ts" ]} 0 ∅.

Definition dry : RunOptions := Build_RunOptions true None None.

End Sample.

(* ===================================================================== *)
(** ** The scanner seen as a list of blocks *)
(* ===================================================================== *)

Module Blocks.
Import Scanner.

(** The buckets of [parseReactFile]. *)
Inductive category : Type :=
| CImport | CType | CConstant | CUtility | CSubComponent | CMain.

(** A block: the lines [first .. last] (both included) and its bucket. *)
Record range : Type := Range { first : nat; last : nat; bucket : category }.

Definition covers (b : range) (i : nat) : Prop := first b <= i /\ i <= last b.

(** The chain of tests [parseReactFile] runs on the line at [i]: the bucket
    of the block that starts there, or [None] when the line is skipped. *)
Definition classify (lines : list string) (i : nat) : option category :=
  let line := Js.trim (line_at lines i) in
  if Js.startsWith line "import" then Some CImport
  else if Js.includes line "interface " || Js.includes line "type " then Some CType
  else if Js.startsWith line "const " && negb (isFunction line)
          && negb (isComponent line) then Some CConstant
  else if isFunction line || isComponent line then
    Some (if isComponent line then
            if isMainComponent lines i then CMain else CSubComponent
          else CUtility)
  else None.

Definition blockType_of (c : category) : blockType :=
  match c with
  | CImport => BImport
  | CType => BType
  | CConstant => BConstant
  | CUtility | CSubComponent | CMain => BFunction
  end.

(** The loop of [parseReactFile], keeping the line ranges. *)
Fixpoint scan_loop (fuel : nat) (lines : list string) (i : nat)
    : option (list range) :=
  if length lines <=? i then Some []
  else match fuel with
  | 0 => None
  | S fuel' =>
      match classify lines i with
      | Some c =>
          let e := endIndex (extractBlock lines i (blockType_of c)) in
          match scan_loop fuel' lines (e + 1) with
          | Some bs => Some (Range i e c :: bs)
          | None => None
          end
      | None => scan_loop fuel' lines (i + 1)
      end
  end.

Definition text_of (lines : list string) (b : range) : string :=
  Js.join (String "010" EmptyString) (Js.slice_incl lines (first b) (last b)).

(** What [parseReactFile] does with a block: append it to its bucket, or
    make it the main component in place of the one held so far. *)
Definition emit (lines : list string) (result : parsed) (b : range) : parsed :=
  let t := text_of lines b in
  match bucket b with
  | CImport =>
      Parsed (imports result ++ [t]) (types result) (constants result)
        (utilities result) (subComponents result) (mainComponent result)
  | CType =>
      Parsed (imports result) (types result ++ [t]) (constants result)
        (utilities result) (subComponents result) (mainComponent result)
  | CConstant =>
      Parsed (imports result) (types result) (constants result ++ [t])
        (utilities result) (subComponents result) (mainComponent result)
  | CUtility =>
      Parsed (imports result) (types result) (constants result)
        (utilities result ++ [t]) (subComponents result) (mainComponent result)
  | CSubComponent =>
      Parsed (imports result) (types result) (constants result)
        (utilities result) (subComponents result ++ [t]) (mainComponent result)
  | CMain =>
      Parsed (imports result) (types result) (constants result)
        (utilities result) (subComponents result) t
  end.

(** Blocks in file order, one after the other, inside [lo .. n - 1]. *)
Fixpoint ordered (lo : nat) (bs : list range) (n : nat) : Prop :=
  match bs with
  | [] => True
  | b :: rest =>
      lo <= first b /\ first b <= last b /\ last b < n /\
      ordered (S (last b)) rest n
  end.

(** *** The partition the specification asks for *)

Definition is_blank (line : string) : bool :=
  String.eqb (Js.trim line) EmptyString.

Definition is_comment (line : string) : bool :=
  Js.startsWith (Js.trim line) "//" || Js.startsWith (Js.trim line) "/*"
  || Js.startsWith (Js.trim line) "*".

(** Every delimiter is closed: as many [{] as [}], [(] as [)], [[] as []]. *)
Definition balanced (content : string) : Prop :=
  Js.count_char "{" content = Js.count_char "}" content /\
  Js.count_char "(" content = Js.count_char ")" content /\
  Js.count_char "[" content = Js.count_char "]" content.

(** Every line that is neither blank nor a comment lies in a block. *)
Definition covers_all_code (lines : list string) (bs : list range) : Prop :=
  forall i line,
    lines !! i = Some line -> is_blank line = false -> is_comment line = false ->
    exists b, b ∈ bs /\ covers b i.

End Blocks.

(* ===================================================================== *)
(** ** The notions the statements are written with *)
(* ===================================================================== *)

(** What being selected by [scan] means for an entry. *)
Definition selected (config : Engine.RefactorConfig) (st : Fs.state)
    (f : Engine.FileToRefactor) : Prop :=
  exists content,
    Fs.files st !! Engine.path f = Some content /\
    Engine.lines f = length (Js.split "010" content) /\
    (Z.of_nat (Engine.lines f) > Engine.maxLines config)%Z.

(** A written file passes: it is there, it is not blank, its braces pair up. *)
Definition file_ok (fsys : gmap string string) (file : string) : Prop :=
  exists content,
    fsys !! file = Some content /\
    Js.trim content <> EmptyString /\
    Js.count_char "{" content = Js.count_char "}" content.

(** The three ways a written file fails, each with its diagnostic. *)
Inductive defect (fsys : gmap string string) (file : string) : string -> Prop :=
| defect_missing :
    fsys !! file = None ->
    defect fsys file ("Created file does not exist: " +:+ file)
| defect_empty content :
    fsys !! file = Some content ->
    Js.trim content = EmptyString ->
    defect fsys file ("Created file is empty: " +:+ file)
| defect_unbalanced content :
    fsys !! file = Some content ->
    Js.count_char "{" content <> Js.count_char "}" content ->
    defect fsys file ("Syntax error in file: " +:+ file +:+ " - unbalanced braces").

(** A result that carries the analysis of a file and nothing else. *)
Definition analysis_only (syn : Engine.Synthesis) (st : Fs.state)
    (res : Engine.RefactorResult) : Prop :=
  exists content,
    Fs.files st !! Engine.originalFile res = Some content /\
    let s := Engine.analyzeFile syn (Engine.originalFile res) content in
    Engine.newFiles res = Engine.suggestedFiles s /\
    Engine.linesReduced res = Engine.estimatedReduction s /\
    Engine.analysis res = Some (Engine.analysis_lines s) /\
    Engine.success res = true /\
    Engine.error res = None.

(** What a writer leaves behind: the locks and the clock as they were, the
    files it lists written (so none of them locked), every other path but
    [spare] untouched. *)
Definition wrote (spare : option string) (st st' : Fs.state)
    (written : list string) : Prop :=
  Fs.locked st' = Fs.locked st /\ Fs.clock st' = Fs.clock st /\
  (forall f, f ∈ written -> f ∉ Fs.locked st) /\
  (forall p, p ∉ written -> Some p <> spare -> Fs.files st' !! p = Fs.files st !! p).

(** A transaction of [performRefactoring] whose rollback raises [e]: either
    the writer threw and the rollback of the [catch] block raised, or
    verification failed and the rollback it asked for raised. *)
Inductive rollback_raises (pf : Engine.Platform) (syn : Engine.Synthesis)
    (config : Engine.RefactorConfig) (filePath content : string)
    (st : Fs.state) (e : string) : Prop :=
| raises_after_writer_error backupPath st0 st1 writerError st2 :
    Engine.createBackup pf filePath st = (Fs.Ok backupPath, st0) ->
    Engine.refactorByKind pf syn config filePath content st0
      = (Fs.Throw writerError, st1) ->
    Engine.rollbackRefactoring filePath [] backupPath st1 = (Fs.Throw e, st2) ->
    rollback_raises pf syn config filePath content st e
| raises_after_verification backupPath st0 createdFiles st1 v st2 :
    Engine.createBackup pf filePath st = (Fs.Ok backupPath, st0) ->
    Engine.refactorByKind pf syn config filePath content st0
      = (Fs.Ok createdFiles, st1) ->
    Engine.verifyRefactoring filePath createdFiles st1 = (Fs.Ok v, st1) ->
    Engine.v_success v = false ->
    Engine.rollbackRefactoring filePath createdFiles backupPath st1
      = (Fs.Throw e, st2) ->
    rollback_raises pf syn config filePath content st e.

(** The backup step of the loop body of [run]. *)
Definition run_backup_step (pf : Engine.Platform) (options : Engine.RunOptions)
    (file : Engine.FileToRefactor) : Fs.M unit :=
  (if negb (bool_decide (Engine.createBackups options = Some false))
   then (Engine.createBackup pf (Engine.path file) ;; Fs.ret tt)%engine
   else Fs.ret tt).

(** The long sample file as [run] hands it to [refactorFile], and the options
    that make [run] work on that file alone, without a backup of its own. *)
Definition long_file : Engine.FileToRefactor :=
  Engine.Build_FileToRefactor "/p/src/long.ts" 4 "typescript".

Definition only_long : Engine.RunOptions :=
  Engine.Build_RunOptions false (Some false) (Some "src/long.ts").

Module Files.

(** A component that is the file's default export, declared in one statement. *)
Definition default_function : string :=
"export default function Main() {
return null;
}".

(** A statement that is no import, type, constant or function. *)
Definition plain_statement : string := "let total = 0;".

(** An import of [Foo], and a text where [Foo] is a piece of [FooBar] only. *)
Definition import_foo : string := "import { Foo } from 'x';".
Definition uses_foobar : string := "const y: FooBar = 1;".

(** The scenario of the specification (section 8). *)
Definition scenario : string :=
"interface Foo { a: string }

const X = 5;

export default function Main() { return null; }".

(** The default export stated above the component, and below it. *)
Definition export_above : list string :=
  ["export default Foo;"; "function Foo() {"; "return null;"; "}"].
Definition export_below : list string :=
  ["function Foo() {"; "return null;"; "}"; "export default Foo;"].
Definition export_below_with_header : list string :=
  ["// the page"; "function Foo() {"; "return null;"; "}"; "export default Foo;"].

End Files.

(** One segment with its first character in upper case. *)
Definition capitalize (part : string) : string :=
  Js.toUpperCase (Js.charAt0 part) +:+ Js.slice1 part.

(** [s] without its first [n] characters. *)
Fixpoint skip (n : nat) (s : string) : string :=
  match n, s with
  | 0, _ => s
  | S n', String _ s' => skip n' s'
  | S _, EmptyString => EmptyString
  end.

(* ===================================================================== *)
(** ** More notions: the scan, the loop of [run] *)
(* ===================================================================== *)

(** The files [scan] asks [glob] for in one target directory. *)
Definition globbed (pf : Engine.Platform) (config : Engine.RefactorConfig)
    (fsys : gmap string string) (dir : string) : list string :=
  Engine.glob pf fsys
    (Engine.join pf (Engine.projectRoot pf) dir +:+ "/**/*{" +:+
     Js.join "," (Engine.fileExtensions config) +:+ "}")
    (map (fun pattern => Engine.join pf (Engine.projectRoot pf) pattern)
         (Engine.excludePatterns config)).

(** More sample inputs: a file that splits into two well-formed chunks, and
    the sample disk with the second chunk file of the long file protected. *)
Module Sample2.

Definition ok_ts : string :=
"function f() {
}

const a = 1;".

Definition st_ok : Fs.state := Fs.State {[ "/p/src/ok.ts" := ok_ts ]} ∅ 0 ∅.

Definition st_part2_locked : Fs.state :=
  Fs.State Sample.disk {[ "/p/src/long-part2.ts" ]} 0 ∅.

(** [run] asked for the short sample file alone, without a backup of its own. *)
Definition only_short : Engine.RunOptions :=
  Engine.Build_RunOptions false (Some false) (Some "src/short.ts").

End Sample2.

(* ===================================================================== *)
(** ** More notions: where a block ends *)
(* ===================================================================== *)

(** The text of the lines [startIndex .. j], as [extractBlock] joins it. *)
Definition block_text (lines : list string) (startIndex j : nat) : string :=
  Js.join (String "010" EmptyString) (Js.slice_incl lines startIndex j).

(** An import that began on line [startIndex] is complete on line [j]: the
    line holds a semicolon, and the text from [startIndex] to [j] closes
    every brace it opens. *)
Definition import_complete (lines : list string) (startIndex j : nat) : Prop :=
  exists line,
    lines !! j = Some line /\ Js.includes line ";" = true /\
    Js.count_char "{" (block_text lines startIndex j)
    <= Js.count_char "}" (block_text lines startIndex j).

(** How a block of a type or of a function can end: on the last line of
    the file; or with braces that pair up, one pair at least; or without
    any opening brace, on a line with a semicolon. *)
Definition ends_well (ls : list string) (bc : Z) (found : bool) (k : nat) : Prop :=
  k = length ls - 1 \/
  ((found || (0 <? Js.count_char "{" (Js.join (String "010" EmptyString) (take (S k) ls)))) = true /\
   (bc + Z.of_nat (Js.count_char "{" (Js.join (String "010" EmptyString) (take (S k) ls)))
       - Z.of_nat (Js.count_char "}" (Js.join (String "010" EmptyString) (take (S k) ls))) = 0)%Z) \/
  ((found || (0 <? Js.count_char "{" (Js.join (String "010" EmptyString) (take (S k) ls)))) = false /\
   exists line, ls !! k = Some line /\ Js.includes line ";" = true).

(* ===================================================================== *)
(** ** The smart split: [splitFile] and [performIntelligentSplit] *)
(* ===================================================================== *)

Module Split.
Import Fs Engine.
Local Open Scope engine_scope.

Definition nl : string := String "010" EmptyString.

(** *** The texts of the generated files *)

(** [generateTypesFile]: the imports, a blank line, the heading, a blank
    line, the types two line breaks apart, a final line break. *)
Definition generateTypesFile (types imports : list string) : string :=
  Js.join nl imports +:+ nl +:+ nl +:+ "// Type definitions" +:+ nl +:+ nl +:+
  Js.join (nl +:+ nl) types +:+ nl.

(** [generateConstantsFile] *)
Definition generateConstantsFile (constants imports : list string) : string :=
  Js.join nl imports +:+ nl +:+ nl +:+ "// Constants" +:+ nl +:+ nl +:+
  Js.join (nl +:+ nl) constants +:+ nl.

(** [generateUtilsFile] *)
Definition generateUtilsFile (utilities imports : list string) : string :=
  Js.join nl imports +:+ nl +:+ nl +:+ "// Utility functions" +:+ nl +:+ nl +:+
  Js.join (nl +:+ nl) utilities +:+ nl.

(** [generateComponentsFile] *)
Definition generateComponentsFile (subComponents imports : list string)
    (fileName : string) : string :=
  Js.join nl imports +:+ nl +:+ nl +:+ "// Sub-components for " +:+ fileName +:+
  nl +:+ nl +:+ Js.join (nl +:+ nl) subComponents +:+ nl.

Section WithPlatform.
Context (pf : Platform) (config : RefactorConfig).

(** The body of the loop of [generateMainComponentFile] for one created
    file: the import line it pushes, if any. *)
Definition relative_import (file : string) : list string :=
  let baseName := basename_ext pf file (extname pf file) in
  if Js.includes baseName "-types" then
    ["import type * from './" +:+ baseName +:+ "';"]
  else if Js.includes baseName "-constants" then
    ["import * from './" +:+ baseName +:+ "';"]
  else if Js.includes baseName "-utils" then
    ["import * from './" +:+ baseName +:+ "';"]
  else if Js.includes baseName "-components" then
    ["import * from './" +:+ baseName +:+ "';"]
  else [].

(** [generateMainComponentFile] *)
Definition generateMainComponentFile (mainComponent : string)
    (imports : list string) (fileName : string) (createdFiles : list string)
    : string :=
  let relativeImports := concat (map relative_import createdFiles) in
  Js.join nl imports +:+ nl +:+ nl +:+ Js.join nl relativeImports +:+ nl +:+ nl +:+
  "// Main component" +:+ nl +:+ nl +:+ mainComponent +:+ nl.

(** The loop of [generateIndexFile], on [exports] and [mainComponentName]. *)
Definition index_step (fileName : string) (st : list string * string)
    (file : string) : list string * string :=
  let '(exports, mainComponentName) := st in
  let baseName := basename_ext pf file (extname pf file) in
  if Js.includes baseName "index" then (exports, mainComponentName)
  else if Js.includes baseName "-types" || Js.includes baseName "-constants"
          || Js.includes baseName "-utils" || Js.includes baseName "-components"
  then (exports ++ ["export * from './" +:+ baseName +:+ "';"], mainComponentName)
  else if Js.includes baseName "-main" then
    let mainComponentName := Naming.toPascalCase fileName in
    (exports ++ ["import " +:+ mainComponentName +:+ " from './" +:+ baseName +:+ "';"],
     mainComponentName)
  else (exports, mainComponentName).

(** [generateIndexFile] *)
Definition generateIndexFile (fileName : string) (createdFiles : list string)
    : string :=
  let '(exports, mainComponentName) :=
    fold_left (index_step fileName) createdFiles ([], EmptyString) in
  let exports :=
    if negb (String.eqb mainComponentName EmptyString)
    then exports ++ ["export { " +:+ mainComponentName +:+ " };";
                     "export default " +:+ mainComponentName +:+ ";"]
    else exports in
  "// Auto-generated index file for " +:+ fileName +:+ nl +:+ nl +:+
  Js.join nl exports +:+ nl.

(** [createUpdatedOriginalFile] *)
Definition createUpdatedOriginalFile (fileName componentDir : string) : string :=
  let relativePath := "./" +:+ basename pf componentDir in
  "// This file has been refactored and split into multiple files" +:+ nl +:+
  "// The original functionality is now exported from the " +:+ fileName +:+
  " directory" +:+ nl +:+ nl +:+
  "export * from '" +:+ relativePath +:+ "';" +:+ nl +:+
  "export { default } from '" +:+ relativePath +:+ "';" +:+ nl.

(** *** [performIntelligentSplit] *)

(** What [parseReactFile] returns.  The scan always finishes within the
    bound its model is given, so the default is never taken. *)
Definition parsed_of (content : string) : Scanner.parsed :=
  default Scanner.empty_parsed (Scanner.parseReactFile content).

(** [if (section.length > 0) { write file; createdFiles.push(file) }]: the
    text of a file may read the files created before it. *)
Definition plan_when (present : bool) (file : string)
    (text : list string -> string) (plan : list (string * string))
    : list (string * string) :=
  if present then plan ++ [(file, text plan.*1)] else plan.

(** The files of the branch for [.tsx] and [.jsx], in the order of the
    writes, with their texts. *)
Definition react_split_plan (componentDir fileName extension content : string)
    : list (string * string) :=
  let parsed := parsed_of content in
  let allImports := Scanner.imports parsed in
  let plan := [] in
  let plan :=
    plan_when (0 <? length (Scanner.types parsed))
      (join pf componentDir (fileName +:+ "-types.ts"))
      (fun _ =>
         generateTypesFile (Scanner.types parsed)
           (Imports.getRequiredImports (Js.join nl (Scanner.types parsed)) allImports))
      plan in
  let plan :=
    plan_when (0 <? length (Scanner.constants parsed))
      (join pf componentDir (fileName +:+ "-constants.ts"))
      (fun _ =>
         generateConstantsFile (Scanner.constants parsed)
           (Imports.getRequiredImports (Js.join nl (Scanner.constants parsed)) allImports))
      plan in
  let plan :=
    plan_when (0 <? length (Scanner.utilities parsed))
      (join pf componentDir (fileName +:+ "-utils.ts"))
      (fun _ =>
         generateUtilsFile (Scanner.utilities parsed)
           (Imports.getRequiredImports (Js.join nl (Scanner.utilities parsed)) allImports))
      plan in
  let plan :=
    plan_when (0 <? length (Scanner.subComponents parsed))
      (join pf componentDir (fileName +:+ "-components" +:+ extension))
      (fun _ =>
         generateComponentsFile (Scanner.subComponents parsed)
           (Imports.getRequiredImports (Js.join nl (Scanner.subComponents parsed))
              allImports)
           fileName)
      plan in
  let plan :=
    plan_when true
      (join pf componentDir (fileName +:+ "-main" +:+ extension))
      (fun createdFiles =>
         generateMainComponentFile (Scanner.mainComponent parsed)
           (Imports.getRequiredImports (Scanner.mainComponent parsed) allImports)
           fileName createdFiles)
      plan in
  plan_when true
    (join pf componentDir ("index" +:+ extension))
    (fun createdFiles => generateIndexFile fileName createdFiles)
    plan.

(** The files of the branch for the other extensions. *)
Definition generic_split_plan (fileDir fileName extension content : string)
    : list (string * string) :=
  let chunks := splitContentIntoChunks content (maxLines config) in
  let plan := chunk_plan pf fileDir fileName extension chunks in
  plan_when true
    (join pf fileDir ("index" +:+ extension))
    (fun createdFiles => createGenericIndexFile pf fileName createdFiles)
    plan.

(** Every file [performIntelligentSplit] writes before it rewrites the
    original. *)
Definition split_plan (originalPath content : string) : list (string * string) :=
  let dir := dirname pf originalPath in
  let fileName := basename_ext pf originalPath (extname pf originalPath) in
  let extension := extname pf originalPath in
  if String.eqb extension ".tsx" || String.eqb extension ".jsx"
  then react_split_plan (join pf dir fileName) fileName extension content
  else generic_split_plan (join pf dir fileName) fileName extension content.

(** [performIntelligentSplit].  Both branches make the directory
    [path.join(dir, fileName)] first and then write their files.
    [createdFiles] is the array the [catch] block reads: the files written
    so far when a write throws, none when the backup or the directory
    fails. *)
Definition performIntelligentSplit (originalPath content : string)
    : M (list string) :=
  let dir := dirname pf originalPath in
  let fileName := basename_ext pf originalPath (extname pf originalPath) in
  let* backup := attempt (createBackup pf originalPath) in
  match backup with
  | Throw error => remove_created [] ;; throw error
  | Ok backupPath =>
      let* made := attempt (ensureDir pf (join pf dir fileName)) in
      match made with
      | Throw error => remove_created [] ;; throw error
      | Ok _ =>
          let* r := write_each (split_plan originalPath content) [] in
          match r with
          | (createdFiles, Some error) => remove_created createdFiles ;; throw error
          | (createdFiles, None) =>
              let updatedOriginalContent :=
                createUpdatedOriginalFile fileName (join pf dir fileName) in
              let* w := attempt (writeFile originalPath updatedOriginalContent) in
              match w with
              | Throw error => remove_created createdFiles ;; throw error
              | Ok _ => ret createdFiles
              end
          end
      end
  end.

(** *** [splitFile] *)

Record SplitStrategy : Type := {
  approach : string;
  suggestions : list string;
  strategy_files : list string
}.

(** [suggestSplitStrategy(analyzeFileStructure(content, lines), filePath)],
    which reads the text and the path and calls the provider nowhere. *)
Context (suggestSplitStrategy : string -> string -> SplitStrategy).

(** The three symbols of the analysis lines, as their UTF-8 bytes: a bar
    chart, a folder and a bullet. *)
Definition chart : string := String "240" (String "159" (String "147" (String "138" EmptyString))).
Definition folder : string := String "240" (String "159" (String "147" (String "129" EmptyString))).
Definition bullet : string := String "226" (String "128" (String "162" EmptyString)).

Definition splitFile (filePath : string) (dryRun : bool) : M RefactorResult :=
  let absolutePath := resolve pf (projectRoot pf) filePath in
  let* e := pathExists absolutePath in
  if negb e then throw ("Error: File not found: " +:+ filePath)
  else
    let* content := readFile absolutePath in
    let lines := Js.split "010" content in
    let strategy := suggestSplitStrategy content filePath in
    let linesReduced := (inject_Z (Z.of_nat (length lines)) * (7 # 10))%Q in
    if dryRun then
      let analysis :=
        [chart +:+ " Smart Split Analysis for " +:+ basename pf filePath;
         "   Total lines: " +:+ string_of_nat (length lines);
         "   Suggested approach: " +:+ approach strategy]
        ++ suggestions strategy
        ++ ["   " +:+ folder +:+ " Suggested files: " +:+
            string_of_nat (length (strategy_files strategy))]
        ++ map (fun f => "     " +:+ bullet +:+ " " +:+ f) (strategy_files strategy) in
      ret (Build_RefactorResult filePath
             (map (fun f => join pf (dirname pf absolutePath) f) (strategy_files strategy))
             linesReduced true None (Some analysis))
    else
      let* createdFiles := performIntelligentSplit absolutePath content in
      ret (Build_RefactorResult filePath createdFiles linesReduced true None None).

End WithPlatform.

End Split.

(** The sample disk with the index file of the split of the long file
    protected, and a strategy that suggests one file. *)
Module Sample3.

Definition st_index_locked : Fs.state :=
  Fs.State Sample.disk {[ "/p/src/long/index.ts" ]} 0 ∅.

Definition strategy (content filePath : string) : Split.SplitStrategy :=
  Split.Build_SplitStrategy "generic" ["   Split by size"] ["long-part1.ts"].

End Sample3.

(* ===================================================================== *)
(** ** The import section of a file *)
(* ===================================================================== *)

Module ImportSection.

(** The [for (const line of lines)] loop of [extractImportsSection], on
    [imports], [inImport] and [braceCount]; stopping is its [break]. *)
Fixpoint imports_loop (lines : list string) (imports : list string)
    (inImport : bool) (braceCount : Z) : list string :=
  match lines with
  | [] => imports
  | line :: rest =>
      if Js.startsWith (Js.trim line) "import" then
        imports_loop rest (imports ++ [line]) true
          (Z.of_nat (Js.count_char "{" line) - Z.of_nat (Js.count_char "}" line))%Z
      else if inImport then
        let braceCount :=
          (braceCount + (Z.of_nat (Js.count_char "{" line)
                         - Z.of_nat (Js.count_char "}" line)))%Z in
        if (braceCount <=? 0)%Z && Js.includes line ";"
        then imports_loop rest (imports ++ [line]) false 0
        else imports_loop rest (imports ++ [line]) inImport braceCount
      else if (0 <? length imports) && negb (Js.startsWith (Js.trim line) "import")
      then imports
      else imports_loop rest imports inImport braceCount
  end.

(** [extractImportsSection] *)
Definition extractImportsSection (content : string) : list string :=
  imports_loop (Js.split "010" content) [] false 0.

End ImportSection.

(* ===================================================================== *)
(** ** More notions: [toPascalCase] one character at a time *)
(* ===================================================================== *)

(** What the replacement of [toPascalCase] comes to, read from the left:
    a lower-case letter at the very beginning is put in upper case; a hyphen
    with a lower-case letter after it is dropped and the letter put in upper
    case; every other character, any other hyphen included, is kept.
    [start] says that no character has been read yet. *)
Fixpoint pascal_run (start : bool) (s : string) : string :=
  match s with
  | EmptyString => EmptyString
  | String c s' =>
      if start && Js.is_lower c then String (Js.upper_char c) (pascal_run false s')
      else if Ascii.eqb c "-" then
        match s' with
        | String d s'' =>
            if Js.is_lower d then String (Js.upper_char d) (pascal_run false s'')
            else String c (pascal_run false s')
        | EmptyString => String c EmptyString
        end
      else String c (pascal_run false s')
  end.

(** Every hyphen of [s] has a lower-case letter right after it. *)
Fixpoint hyphens_lead_lower (s : string) : bool :=
  match s with
  | EmptyString => true
  | String c s' =>
      (if Ascii.eqb c "-"
       then match s' with String d _ => Js.is_lower d | EmptyString => false end
       else true)
      && hyphens_lead_lower s'
  end.

(* ===================================================================== *)
(** ** [utils/fileUtils.ts] *)
(* ===================================================================== *)

Module FileUtils.

(** The class of [sanitizeFileName]: every character that is no letter, no
    digit, no hyphen and no underscore. *)
Definition unsafe (c : ascii) : bool :=
  negb (Js.is_lower c || Js.is_upper c || Js.is_digit c
        || Ascii.eqb c "-" || Ascii.eqb c "_").

(** [sanitizeFileName]: [name.replace(/<the class>/g, '_')] *)
Definition sanitizeFileName (name : string) : string :=
  Regex.replace_all (Regex.Cls unsafe) (fun _ => "_") name.

End FileUtils.

(** One character for another, all along a text. *)
Fixpoint map_chars (g : ascii -> ascii) (s : string) : string :=
  match s with
  | EmptyString => EmptyString
  | String c s' => String (g c) (map_chars g s')
  end.

(* ===================================================================== *)
(** ** The sections of a React component file *)
(* ===================================================================== *)

Module Sections.
Import Scanner.

Record sections : Type := Sect {
  types : list string;
  utilities : list string;
  subComponents : list string;
  mainComponent : string
}.

Definition empty_sections : sections := Sect [] [] [] EmptyString.

(** [extractCompleteTypeDefinition], [extractCompleteFunction] *)
Definition extractCompleteTypeDefinition (lines : list string) (startIndex : nat)
    : string :=
  Js.join (String "010" EmptyString)
    (Js.slice_incl lines startIndex (findEndOfTypeDefinition lines startIndex)).

Definition extractCompleteFunction (lines : list string) (startIndex : nat)
    : string :=
  Js.join (String "010" EmptyString)
    (Js.slice_incl lines startIndex (findEndOfFunction lines startIndex)).

(** [s.substring(s.indexOf(sub))]: the text from the first occurrence of
    [sub] on; the whole text when there is none ([indexOf] is [-1] then,
    and [substring] takes a negative index for [0]). *)
Fixpoint suffix_at_first (s sub : string) : option string :=
  if Js.startsWith s sub then Some s
  else match s with
       | EmptyString => None
       | String _ s' => suffix_at_first s' sub
       end.

Definition substring_from_indexOf (s sub : string) : string :=
  default s (suffix_at_first s sub).

(** The test of the utility branch on a line. *)
Definition utility_line (line : string) : bool :=
  Js.includes line "function " ||
  (Js.includes line "const " && Js.includes line " = "
   && negb (Js.includes line "React.") && negb (Js.includes line "<")
   && negb (Js.includes line "JSX")).

(** The test of the sub-component branch on a line. *)
Definition component_line (content line : string) : bool :=
  (Js.includes line "function " ||
   (Js.includes line "const " && Js.includes line " = "))
  && (Js.includes line "React." || Js.includes line ": React."
      || Js.includes (substring_from_indexOf content line) "return (").

(** A text that looks like JSX to the extractor. *)
Definition looks_jsx (text : string) : bool :=
  Js.includes text "return (" || Js.includes text "jsx" || Js.includes text "tsx".

(** [isMainExport] for the component found on line [i]. *)
Definition isMainExport (lines : list string) (i : nat) (line component : string)
    : bool :=
  let n := length (Js.split "010" component) in
  Js.includes line "export default" ||
  ((i + n <? length lines) &&
   existsb (fun l =>
              Js.includes l "export default" &&
              Js.includes l (default EmptyString (Regex.capture name_re 1 line)))
           (drop (i + n) lines)).

(** The [while (i < lines.length)] loop of [extractReactComponentSections].
    Each turn moves [i] forward by one line at least, so [fuel] turns are a
    bound to be justified: [None] would be a loop that has not finished. *)
Fixpoint sections_loop (fuel : nat) (content : string) (lines : list string)
    (i : nat) (s : sections) : option sections :=
  if length lines <=? i then Some s
  else match fuel with
  | 0 => None
  | S fuel' =>
      let line := line_at lines i in
      if Js.startsWith (Js.trim line) "import" then
        sections_loop fuel' content lines (i + 1) s
      else if Js.includes line "interface " || Js.includes line "type " then
        let typedef := extractCompleteTypeDefinition lines i in
        sections_loop fuel' content lines (i + length (Js.split "010" typedef))
          (Sect (types s ++ [typedef]) (utilities s) (subComponents s)
                (mainComponent s))
      else if utility_line line then
        let func := extractCompleteFunction lines i in
        sections_loop fuel' content lines (i + length (Js.split "010" func))
          (if negb (looks_jsx func)
           then Sect (types s) (utilities s ++ [func]) (subComponents s)
                     (mainComponent s)
           else s)
      else if component_line content line then
        let component := extractCompleteFunction lines i in
        sections_loop fuel' content lines (i + length (Js.split "010" component))
          (if looks_jsx component then
             if isMainExport lines i line component
             then Sect (types s) (utilities s) (subComponents s) component
             else Sect (types s) (utilities s) (subComponents s ++ [component])
                       (mainComponent s)
           else s)
      else sections_loop fuel' content lines (i + 1) s
  end.

(** [extractReactComponentSections] *)
Definition extractReactComponentSections (content : string) : option sections :=
  let lines := Js.split "010" content in
  sections_loop (length lines) content lines 0 empty_sections.

End Sections.

(** A block filed as a component by [extractReactComponentSections]: the
    function block of a line that holds [const ] and [ = ], no
    [function ], and one of [React.], [<] and [JSX]. *)
Definition component_origin (lines : list string) (component : string) : Prop :=
  exists i line,
    lines !! i = Some line /\
    component = Sections.extractCompleteFunction lines i /\
    Js.includes line "function " = false /\
    Js.includes line "const " = true /\
    Js.includes line " = " = true /\
    (Js.includes line "React." || Js.includes line "<" || Js.includes line "JSX") = true.

(** The components of a file declared with the [function] keyword only. *)
Definition function_components : string :=
"import React from 'react';

function Row() {
  return (<tr />);
}

export default function Table() {
  return (<table><Row /></table>);
}".

(* ===================================================================== *)
(** ** More notions: the buckets of the scanner, the listing of [scan] *)
(* ===================================================================== *)

Definition same_bucket (c : Blocks.category) (b : Blocks.range) : bool :=
  match c, Blocks.bucket b with
  | Blocks.CImport, Blocks.CImport
  | Blocks.CType, Blocks.CType
  | Blocks.CConstant, Blocks.CConstant
  | Blocks.CUtility, Blocks.CUtility
  | Blocks.CSubComponent, Blocks.CSubComponent
  | Blocks.CMain, Blocks.CMain => true
  | _, _ => false
  end.

(** The texts of the blocks of one bucket, in file order. *)
Fixpoint texts_of (lines : list string) (c : Blocks.category)
    (bs : list Blocks.range) : list string :=
  match bs with
  | [] => []
  | b :: rest =>
      if same_bucket c b then Blocks.text_of lines b :: texts_of lines c rest
      else texts_of lines c rest
  end.

(** The entry of one globbed file, if it is longer than [maxLines]. *)
Definition listed (config : Engine.RefactorConfig) (framework : string)
    (fsys : gmap string string) (file : string) : list Engine.FileToRefactor :=
  match fsys !! file with
  | Some content =>
      if (Z.of_nat (length (Js.split "010" content)) >? Engine.maxLines config)%Z
      then [Engine.Build_FileToRefactor file (length (Js.split "010" content)) framework]
      else []
  | None => []
  end.

(** The entries of every existing target directory, one directory after
    the other, each in the order of [glob]. *)
Definition scan_listing (pf : Engine.Platform) (syn : Engine.Synthesis)
    (config : Engine.RefactorConfig) (fsys : gmap string string)
    : list Engine.FileToRefactor :=
  flat_map
    (fun dir =>
       if Engine.dirExists pf fsys (Engine.join pf (Engine.projectRoot pf) dir)
       then flat_map (listed config (Engine.detectFramework syn fsys) fsys)
                     (globbed pf config fsys dir)
       else [])
    (Engine.targetDirectories config).

(** Two components that are both exported. *)
Definition two_exported : string :=
"export function First() {
  return null;
}
export function Second() {
  return null;
}".

(** The sample configuration with its target directory named twice. *)
Module Sample4.

Definition config_twice : Engine.RefactorConfig :=
  Engine.Build_RefactorConfig 2 ["src"; "src"] [".ts"; ".tsx"] ["node_modules"].

End Sample4.

(** A text without its white space: what [trim] and the line breaks between
    lines never touch. *)
Fixpoint without_space (s : string) : string :=
  match s with
  | EmptyString => EmptyString
  | String c s' =>
      if Js.is_space c then without_space s' else String c (without_space s')
  end.

(* ===================================================================== *)
(** ** More notions: the first defect of a list of created files *)
(* ===================================================================== *)

Definition is_missing (fsys : gmap string string) (file : string) : bool :=
  negb (bool_decide (is_Some (fsys !! file))).

Definition is_blank_file (fsys : gmap string string) (file : string) : bool :=
  match fsys !! file with
  | Some content => String.length (Js.trim content) =? 0
  | None => false
  end.

Definition is_unbalanced (fsys : gmap string string) (file : string) : bool :=
  match fsys !! file with
  | Some content => negb (Js.count_char "{" content =? Js.count_char "}" content)
  | None => false
  end.

(** The diagnostic of a list of created files: that of the first missing
    file; if none is missing, that of the first blank file; if none is
    blank, that of the first file whose braces do not pair up. *)
Definition first_defect (fsys : gmap string string) (newFiles : list string)
    : option string :=
  match List.find (is_missing fsys) newFiles with
  | Some file => Some ("Created file does not exist: " +:+ file)
  | None =>
      match List.find (is_blank_file fsys) newFiles with
      | Some file => Some ("Created file is empty: " +:+ file)
      | None =>
          match List.find (is_unbalanced fsys) newFiles with
          | Some file =>
              Some ("Syntax error in file: " +:+ file +:+ " - unbalanced braces")
          | None => None
          end
      end
  end.

(* ===================================================================== *)
(** ** Import statements as they are written *)
(* ===================================================================== *)

(** The import statements the filter is measured against, described by
    their parts and not by the pattern of [getRequiredImports]:

      import [type] { a, b, c } from 'module';
      import [type] * as ns from 'module';
      import [type] d from 'module';

    with white space, line breaks included, wherever the language allows
    it between the words. *)
Module Written.

Fixpoint every (p : ascii -> bool) (s : string) : bool :=
  match s with
  | EmptyString => true
  | String c s' => p c && every p s'
  end.

(** What comes next is not in the class [p]: a greedy run of the class
    ends there. *)
Definition stops (p : ascii -> bool) (b : string) : bool :=
  match b with
  | EmptyString => true
  | String h _ => negb (p h)
  end.

Definition all_space (w : string) : bool := every Js.is_space w.

(** White space that separates two words: one character at least. *)
Definition gap (w : string) : bool :=
  match w with
  | EmptyString => false
  | String _ _ => all_space w
  end.

(** A name: letters, digits and underscores, one at least. *)
Definition identifier (n : string) : bool :=
  match n with
  | EmptyString => false
  | String _ _ => every Js.is_word n
  end.

(** One piece of a braced list, between two commas: a name with white
    space around it.  The name is empty in the piece that a comma after the
    last name leaves behind. *)
Record piece : Type := Piece {
  lead : string;
  name : string;
  trail : string
}.

Definition piece_text (p : piece) : string := lead p +:+ name p +:+ trail p.

Definition piece_ok (p : piece) : bool :=
  all_space (lead p) && every Js.is_word (name p) && all_space (trail p).

(** What the statement binds. *)
Inductive clause : Type :=
| Named (pieces : list piece)
| Namespace (after_star after_as ns : string)
| Default (d : string).

(** The text between the braces of a named import. *)
Definition braced (pieces : list piece) : string :=
  Js.join "," (map piece_text pieces).

(** The clause, followed by [rest]. *)
Definition clause_then (cl : clause) (rest : string) : string :=
  match cl with
  | Named pieces => String "{" (braced pieces +:+ String "}" rest)
  | Namespace after_star after_as ns =>
      String "*" (after_star +:+ "as" +:+ after_as +:+ ns +:+ rest)
  | Default d => d +:+ rest
  end.

(** A braced list is not empty; a default import is not called [type],
    the word the pattern reads as the marker of a type-only import. *)
Definition clause_ok (cl : clause) : bool :=
  match cl with
  | Named pieces =>
      forallb piece_ok pieces && negb (String.eqb (braced pieces) EmptyString)
  | Namespace after_star after_as ns =>
      gap after_star && gap after_as && identifier ns
  | Default d => identifier d && negb (String.eqb d "type")
  end.

(** The names the statement brings in. *)
Definition names (cl : clause) : list string :=
  match cl with
  | Named pieces => map name pieces
  | Namespace _ _ ns => [ns]
  | Default d => [d]
  end.

Record statement : Type := Statement {
  after_import : string;
  (** [Some w]: the word [type] and the white space [w] after it *)
  type_only : option string;
  bound : clause;
  before_from : string;
  after_from : string;
  open_quote : ascii;
  module_name : string;
  close_quote : ascii;
  (** what follows the closing quote *)
  ending : string
}.

Definition statement_text (i : statement) : string :=
  let from_on :=
    before_from i +:+ "from" +:+ after_from i +:+
    String (open_quote i) (module_name i +:+ String (close_quote i) (ending i)) in
  "import" +:+ after_import i +:+
  match type_only i with
  | Some w => "type" +:+ w +:+ clause_then (bound i) from_on
  | None => clause_then (bound i) from_on
  end.

Definition well_formed (i : statement) : bool :=
  gap (after_import i)
  && match type_only i with Some w => gap w | None => true end
  && clause_ok (bound i)
  && gap (before_from i) && gap (after_from i)
  && Imports.is_quote (open_quote i) && Imports.is_quote (close_quote i)
  && negb (String.eqb (module_name i) EmptyString)
  && every (fun c => negb (Imports.is_quote c)) (module_name i).

(** The pattern of [getRequiredImports] in three parts: [import] and the
    optional [type], the clause, and the rest from the white space before
    [from] on. *)
Definition clause_re : Regex.re :=
  Regex.Alt
    (Regex.Cat (Regex.Chr "{")
       (Regex.Cat
          (Regex.Grp 1 (Regex.Plus (Regex.Cls (fun c => negb (Ascii.eqb c "}")))))
          (Regex.Chr "}")))
    (Regex.Alt
       (Regex.Cat (Regex.Chr "*")
          (Regex.Cat Imports.sp
             (Regex.Cat (Regex.Lit "as")
                (Regex.Cat Imports.sp (Regex.Grp 2 Imports.word)))))
       (Regex.Grp 3 Imports.word)).

Definition from_on_re : Regex.re :=
  Regex.Cat Imports.sp
    (Regex.Cat (Regex.Lit "from")
       (Regex.Cat Imports.sp
          (Regex.Cat (Regex.Cls Imports.is_quote)
             (Regex.Cat
                (Regex.Grp 4
                   (Regex.Plus (Regex.Cls (fun c => negb (Imports.is_quote c)))))
                (Regex.Cls Imports.is_quote))))).

(** The capture a clause leaves: the number of its group and its text. *)
Definition clause_capture (cl : clause) : nat * string :=
  match cl with
  | Named pieces => (1, braced pieces)
  | Namespace _ _ ns => (2, ns)
  | Default d => (3, d)
  end.

(** [import { useState, useEffect } from 'react';] *)
Definition react_hooks : statement :=
  Statement " " None
    (Named [Piece " " "useState" ""; Piece " " "useEffect" " "])
    " " " " "'" "react" "'" ";".

(** The same list on lines of its own, with a comma after the last name. *)
Definition react_hooks_trailing_comma : statement :=
  Statement " " None
    (Named [Piece "
  " "useState" ""; Piece "
  " "useEffect" ""; Piece "
" "" ""])
    " " " " "'" "react" "'" ";".

End Written.

(* ===================================================================== *)
(** ** The embedding at work *)
(* ===================================================================== *)

(** The patterns on the statements they were written for. *)
Example import_re_namespace :
  option_map Regex.groups (Regex.exec Imports.import_re "import * as React from 'react';")
  = Some [(4, "react"); (2, "React")].
Proof. vm_compute. reflexivity. Qed.

Example import_re_named :
  Imports.imported_names "import type { Bar as Baz, Qux } from './z';"
  = Some ["Bar"; "Qux"].
Proof. vm_compute. reflexivity. Qed.

Example import_re_default_and_named :
  Regex.exec Imports.import_re "import React, { useState } from 'react';" = None.
Proof. vm_compute. reflexivity. Qed.

Example name_re_const :
  Regex.capture Scanner.name_re 1 "export const useThing = () => {" = Some "useThing".
Proof. vm_compute. reflexivity. Qed.

Example role_re_needs_a_prefix :
  Regex.test Scanner.role_re "App" = false /\ Regex.test Scanner.role_re "MyApp" = true.
Proof. vm_compute. split; reflexivity. Qed.

Example toPascalCase_kebab :
  Naming.toPascalCase "my-data-table" = "MyDataTable".
Proof. vm_compute. reflexivity. Qed.

(** The scenario of the specification: an interface, a constant and a
    default-exported function.  The constant has a capital name, which makes
    it a component for [isComponent]; its block runs on to the first line
    where braces have opened and closed, the line of [Main]. *)
Example scenario_of_the_specification :
  Scanner.parseReactFile Files.scenario
  = Some (Scanner.Parsed [] ["interface Foo { a: string }"] [] []
            ["const X = 5;

export default function Main() { return null; }"] EmptyString).
Proof. vm_compute. reflexivity. Qed.

Example chunks_of_the_long_sample :
  Engine.splitContentIntoChunks Sample.long_ts 2 = ["function f() {
g();"; "}"].
Proof. vm_compute. reflexivity. Qed.

(* ===================================================================== *)
(** ** Properties of the provider and of the scan *)
(* ===================================================================== *)

Section ScanFacts.
Import Fs Engine.
Context (pf : Platform) (syn : Synthesis) (config : RefactorConfig).

Lemma getFileLineCount_inv file st r st' :
  getFileLineCount file st = (r, st') ->
  st' = st /\
  forall n, r = Ok n ->
    exists content, files st !! file = Some content /\
                    n = length (Js.split "010" content).
Proof.
  unfold getFileLineCount, bind, readFile, ret.
  destruct (files st !! file) as [c|] eqn:E; intros [= <- <-]; split; auto.
  - intros n [= <-]. eauto.
  - intros n [=].
Qed.

Lemma scan_files_inv fw fs acc st r st' :
  scan_files config fw fs acc st = (r, st') ->
  st' = st /\
  forall res, r = Ok res -> forall f, f ∈ res -> f ∈ acc \/ selected config st f.
Proof.
  revert acc. induction fs as [|file rest IH]; intros acc; simpl.
  - unfold ret. intros [= <- <-]. split; [done|]. intros res [= <-] f Hf. by left.
  - unfold bind at 1.
    destruct (getFileLineCount file st) as [[n|e] st1] eqn:E.
    + apply getFileLineCount_inv in E as [-> Hn].
      destruct (Hn n eq_refl) as (content & Hc & Hlen).
      destruct (Z.of_nat n >? maxLines config)%Z eqn:Hgt; intros H.
      * apply IH in H as [-> H]. split; [done|].
        intros res Hr f Hf. destruct (H res Hr f Hf) as [Hin|Hs]; [|by right].
        apply elem_of_app in Hin as [Hin|Hin]; [by left|].
        apply list_elem_of_singleton in Hin as ->. right.
        exists content. simpl. repeat split; auto. lia.
      * apply IH in H as [-> H]. split; [done|]. exact H.
    + apply getFileLineCount_inv in E as [-> _].
      intros [= <- <-]. split; [done|]. intros res [=].
Qed.

Lemma scan_dirs_inv fw dirs acc st r st' :
  scan_dirs pf config fw dirs acc st = (r, st') ->
  st' = st /\
  forall res, r = Ok res -> forall f, f ∈ res -> f ∈ acc \/ selected config st f.
Proof.
  revert acc. induction dirs as [|dir rest IH]; intros acc; simpl.
  - unfold ret. intros [= <- <-]. split; [done|]. intros res [= <-] f Hf. by left.
  - unfold bind at 1, get_files at 1.
    destruct (negb _); [apply IH|].
    unfold bind at 1.
    destruct (scan_files _ _ _ _ _) as [[res1|e] st1] eqn:E.
    + apply scan_files_inv in E as [-> H1]. intros H.
      apply IH in H as [-> H]. split; [done|].
      intros res Hr f Hf. destruct (H res Hr f Hf) as [Hin|Hs]; [|by right].
      exact (H1 res1 eq_refl f Hin).
    + apply scan_files_inv in E as [-> _].
      intros [= <- <-]. split; [done|]. intros res [=].
Qed.

Lemma scan_inv st r st' :
  scan pf syn config st = (r, st') ->
  st' = st /\ forall res, r = Ok res -> forall f, f ∈ res -> selected config st f.
Proof.
  unfold scan, bind at 1, get_files at 1. intros H.
  apply scan_dirs_inv in H as [-> H]. split; [done|].
  intros res Hr f Hf. destruct (H res Hr f Hf) as [Hin|]; [|done].
  by apply elem_of_nil in Hin.
Qed.

End ScanFacts.

(** C10.  Every [FileToRefactor] that [scan] returns carries the line count
    of its file, and that count is strictly greater than [maxLines]; a file
    with exactly [maxLines] lines is not among them. *)
Theorem scan_selects_strictly_longer
    (pf : Engine.Platform) (syn : Engine.Synthesis) (config : Engine.RefactorConfig)
    (st st' : Fs.state) (found : list Engine.FileToRefactor) :
  Engine.scan pf syn config st = (Fs.Ok found, st') ->
  forall f, f ∈ found ->
    exists content,
      Fs.files st !! Engine.path f = Some content /\
      Engine.lines f = length (Js.split "010" content) /\
      (Z.of_nat (length (Js.split "010" content)) > Engine.maxLines config)%Z /\
      Z.of_nat (length (Js.split "010" content)) <> Engine.maxLines config.
Proof.
  intros H f Hf. apply scan_inv in H as [_ H].
  destruct (H found eq_refl f Hf) as (content & Hc & Hl & Hgt).
  exists content. rewrite <- Hl. repeat split; auto. lia.
Qed.

(** The sample disk holds a four-line file and a two-line file; with
    [maxLines = 2] the scan returns the first and leaves out the second. *)
Lemma scan_selects_strictly_longer_witness :
  exists found st',
    Engine.scan Sample.pf Sample.syn Sample.config Sample.st0 = (Fs.Ok found, st') /\
    length (Js.split "010" Sample.short_ts) = 2 /\
    (forall f, f ∈ found -> Engine.path f <> "/p/src/short.ts") /\
    forall f, f ∈ found ->
      exists content,
        Fs.files Sample.st0 !! Engine.path f = Some content /\
        Engine.lines f = length (Js.split "010" content) /\
        (Z.of_nat (length (Js.split "010" content)) > Engine.maxLines Sample.config)%Z /\
        Z.of_nat (length (Js.split "010" content)) <> Engine.maxLines Sample.config.
Proof.
  eexists _, _.
  assert (E : Engine.scan Sample.pf Sample.syn Sample.config Sample.st0 =
              (Fs.Ok [Engine.Build_FileToRefactor "/p/src/long.ts" 4 "unknown"],
               Sample.st0)) by (vm_compute; reflexivity).
  split; [exact E|]. split; [reflexivity|]. split.
  - intros f Hf. apply list_elem_of_singleton in Hf as ->. discriminate.
  - exact (scan_selects_strictly_longer _ _ _ _ _ _ E).
Defined.

(* ===================================================================== *)
(** ** Verification *)
(* ===================================================================== *)

Section VerifyFacts.
Import Fs Engine.

Lemma defect_not_ok fsys file msg : defect fsys file msg -> ~ file_ok fsys file.
Proof.
  intros D (content & Hc & Ht & Hb).
  destruct D as [Hn|c Hc' Ht'|c Hc' Hb']; congruence.
Qed.

Lemma length_zero_empty (s : string) : (String.length s =? 0) = true <-> s = EmptyString.
Proof. destruct s; simpl; split; intros; congruence. Qed.

Lemma verify_exist_spec newFiles st :
  exists r, verify_exist newFiles st = (Ok r, st) /\
    match r with
    | None => Forall (fun f => is_Some (files st !! f)) newFiles
    | Some v =>
        v_success v = false /\
        exists file msg, file ∈ newFiles /\ defect (files st) file msg /\
                         v_error v = Some msg
    end.
Proof.
  induction newFiles as [|file rest (r & E & H)]; simpl.
  - exists None. split; [done|]. constructor.
  - unfold bind, pathExists. case_bool_decide as Hs; simpl.
    + exists r. split; [done|]. destruct r as [v|].
      * destruct H as (Hv & f & msg & Hin & D & Hm). split; [done|].
        exists f, msg. split; [by right|]. done.
      * by constructor.
    + eexists (Some _). split; [reflexivity|]. simpl. split; [done|].
      exists file, ("Created file does not exist: " +:+ file).
      split; [by left|]. split; [|done]. constructor.
      destruct (files st !! file) eqn:E'; [|done]. exfalso. apply Hs. eauto.
Qed.

Lemma verify_content_spec newFiles st :
  Forall (fun f => is_Some (files st !! f)) newFiles ->
  exists r, verify_content newFiles st = (Ok r, st) /\
    match r with
    | None =>
        Forall (fun f => exists content, files st !! f = Some content /\
                                         Js.trim content <> EmptyString) newFiles
    | Some v =>
        v_success v = false /\
        exists file msg, file ∈ newFiles /\ defect (files st) file msg /\
                         v_error v = Some msg
    end.
Proof.
  induction 1 as [|file rest [content Hc] _ (r & E & H)]; simpl.
  - exists None. split; [done|]. constructor.
  - unfold bind, readFile. rewrite Hc.
    destruct (String.length (Js.trim content) =? 0) eqn:Hz.
    + apply length_zero_empty in Hz.
      eexists (Some _). split; [reflexivity|]. simpl. split; [done|].
      exists file, ("Created file is empty: " +:+ file).
      split; [by left|]. split; [|done]. by econstructor.
    + exists r. split; [done|]. destruct r as [v|].
      * destruct H as (Hv & f & msg & Hin & D & Hm). split; [done|].
        exists f, msg. split; [by right|]. done.
      * constructor; [|done]. exists content. split; [done|].
        intros Ht. apply length_zero_empty in Ht. congruence.
Qed.

Lemma verify_braces_spec newFiles st :
  Forall (fun f => is_Some (files st !! f)) newFiles ->
  exists r, verify_braces newFiles st = (Ok r, st) /\
    match r with
    | None =>
        Forall (fun f => exists content, files st !! f = Some content /\
           Js.count_char "{" content = Js.count_char "}" content) newFiles
    | Some v =>
        v_success v = false /\
        exists file msg, file ∈ newFiles /\ defect (files st) file msg /\
                         v_error v = Some msg
    end.
Proof.
  induction 1 as [|file rest [content Hc] _ (r & E & H)]; simpl.
  - exists None. split; [done|]. constructor.
  - unfold bind, readFile. rewrite Hc.
    destruct (Js.count_char "{" content =? Js.count_char "}" content) eqn:Hz; simpl.
    + apply Nat.eqb_eq in Hz.
      exists r. split; [done|]. destruct r as [v|].
      * destruct H as (Hv & f & msg & Hin & D & Hm). split; [done|].
        exists f, msg. split; [by right|]. done.
      * constructor; [|done]. by exists content.
    + apply Nat.eqb_neq in Hz.
      eexists (Some _). split; [reflexivity|]. simpl. split; [done|].
      exists file, ("Syntax error in file: " +:+ file +:+ " - unbalanced braces").
      split; [by left|]. split; [|done]. by econstructor.
Qed.

(** [verifyRefactoring] reads and never writes; it always returns. *)
Lemma verifyRefactoring_total originalFile newFiles st :
  exists v, verifyRefactoring originalFile newFiles st = (Ok v, st) /\
    (v_success v = true -> Forall (file_ok (files st)) newFiles /\ v_error v = None) /\
    (v_success v = false ->
       exists file msg, file ∈ newFiles /\ defect (files st) file msg /\
                        v_error v = Some msg).
Proof.
  unfold verifyRefactoring, try_catch, bind.
  destruct (verify_exist_spec newFiles st) as (r1 & -> & H1).
  destruct r1 as [v|].
  { exists v. split; [done|]. destruct H1 as [Hv H1]. split; [congruence|done]. }
  destruct (verify_content_spec newFiles st H1) as (r2 & -> & H2).
  destruct r2 as [v|].
  { exists v. split; [done|]. destruct H2 as [Hv H2]. split; [congruence|done]. }
  destruct (verify_braces_spec newFiles st H1) as (r3 & -> & H3).
  destruct r3 as [v|].
  { exists v. split; [done|]. destruct H3 as [Hv H3]. split; [congruence|done]. }
  eexists. split; [reflexivity|]. simpl. split; [|done]. intros _. split; [|done].
  apply Forall_forall. intros f Hf.
  rewrite Forall_forall in H2, H3.
  destruct (H2 f Hf) as (c & Hc & Ht). destruct (H3 f Hf) as (c' & Hc' & Hb).
  exists c. repeat split; auto. congruence.
Qed.

End VerifyFacts.

(** C4.  [verifyRefactoring] returns (it never raises, and it changes no file),
    with [success = true] exactly when every file of [newFiles] exists, is not
    blank after trimming and has as many opening as closing braces; otherwise
    its error is the diagnostic of one file of [newFiles] that fails a check,
    naming that file and the check. *)
Theorem verifyRefactoring_sound_complete (originalFile : string)
    (newFiles : list string) (st : Fs.state) :
  exists v,
    Engine.verifyRefactoring originalFile newFiles st = (Fs.Ok v, st) /\
    (Engine.v_success v = true <-> Forall (file_ok (Fs.files st)) newFiles) /\
    (Engine.v_success v = true -> Engine.v_error v = None) /\
    (Engine.v_success v = false ->
       exists file msg,
         file ∈ newFiles /\ defect (Fs.files st) file msg /\
         Engine.v_error v = Some msg).
Proof.
  destruct (verifyRefactoring_total originalFile newFiles st) as (v & E & Ht & Hf).
  exists v. split; [done|]. split; [|split; [intros H; by apply Ht|done]].
  split; [intros H; by apply Ht|].
  intros Hall. destruct (Engine.v_success v) eqn:Hv; [done|].
  destruct (Hf eq_refl) as (file & msg & Hin & D & _).
  rewrite Forall_forall in Hall. destruct (defect_not_ok _ _ _ D (Hall file Hin)).
Qed.

(* ===================================================================== *)
(** ** Dry runs *)
(* ===================================================================== *)

Section DryRunFacts.
Import Fs Engine.
Context (pf : Platform) (syn : Synthesis) (config : RefactorConfig).

Lemma run_one_dry options file st content :
  dryRun options = true ->
  files st !! path file = Some content ->
  exists res, run_one pf syn config options file st = (Ok res, st) /\
              originalFile res = path file /\ analysis_only syn st res.
Proof.
  intros Hd Hc. unfold run_one, try_catch, bind, readFile, ret.
  rewrite Hd, Hc. eexists. split; [reflexivity|]. split; [done|].
  exists content. simpl. by rewrite Hc.
Qed.

Lemma run_loop_dry options fs acc st :
  dryRun options = true ->
  Forall (fun f => is_Some (files st !! path f)) fs ->
  Forall (analysis_only syn st) acc ->
  exists results, run_loop pf syn config options fs acc st = (Ok results, st) /\
                  Forall (analysis_only syn st) results /\
                  map originalFile results = map originalFile acc ++ map path fs.
Proof.
  intros Hd Hfs. revert acc.
  induction Hfs as [|file rest [content Hc] _ IH]; intros acc Hacc; simpl.
  - exists acc. unfold ret. split; [done|]. split; [done|]. by rewrite app_nil_r.
  - unfold bind.
    destruct (run_one_dry options file st content Hd Hc) as (res & -> & Ho & Hres).
    destruct (IH (acc ++ [res])) as (results & E & Hr & Hl).
    { apply Forall_app. split; [done|]. by constructor. }
    exists results. split; [done|]. split; [done|].
    rewrite Hl, map_app, <- app_assoc. simpl. by rewrite Ho.
Qed.

Lemma selected_exists st f : selected config st f -> is_Some (files st !! path f).
Proof. intros (c & Hc & _). eauto. Qed.

Lemma run_scanned_dry options st r st' :
  dryRun options = true ->
  (let* filesToRefactor := scan pf syn config in
   match filesToRefactor with
   | [] => ret []
   | _ => run_loop pf syn config options filesToRefactor []
   end)%engine st = (r, st') ->
  st' = st /\
  (forall results, r = Ok results -> Forall (analysis_only syn st) results) /\
  (forall found, scan pf syn config st = (Ok found, st) ->
     exists results, r = Ok results /\
                     map originalFile results = map path found).
Proof.
  intros Hd. unfold bind at 1.
  destruct (scan pf syn config st) as [[found|e] st1] eqn:E;
    apply scan_inv in E as [-> Hsel].
  - destruct found as [|f0 found'].
    + unfold ret. intros [= <- <-]. split; [done|]. split.
      * intros ? [= <-]. constructor.
      * intros ? [= <-]. by exists [].
    + destruct (run_loop_dry options (f0 :: found') [] st Hd)
        as (results & E & Hr & Hm).
      { apply Forall_forall. intros f Hf.
        eapply selected_exists. by apply (Hsel _ eq_refl). }
      { constructor. }
      rewrite E. intros [= <- <-]. split; [done|]. split.
      * by intros ? [= <-].
      * intros ? [= <-]. by exists results.
  - intros [= <- <-]. split; [done|]. split; [intros ? [=]|intros ? [=]].
Qed.

Lemma run_dry options st r st' :
  dryRun options = true ->
  run pf syn config options st = (r, st') ->
  st' = st /\ forall results, r = Ok results -> Forall (analysis_only syn st) results.
Proof.
  intros Hd. unfold run.
  destruct (specificFile options) as [[|c0 sp]|];
    [intros H; by apply run_scanned_dry in H as (? & ? & _)|
    |intros H; by apply run_scanned_dry in H as (? & ? & _)].
  set (specific := String c0 sp).
  unfold bind at 1. unfold bind at 1, existsSync at 1.
  unfold bind at 1, pathExists at 1. unfold bind at 1, isDirectory at 1, ret at 1.
  destruct (negb (_ || _)) eqn:He.
  { unfold throw. intros [= <- <-]. split; [done|]. intros ? [=]. }
  unfold bind at 1, pathExists at 1.
  destruct (negb (bool_decide (is_Some _))) eqn:Hfile.
  { unfold throw. intros [= <- <-]. split; [done|]. intros ? [=]. }
  destruct (negb (bool_decide (_ ∈ _))).
  { unfold throw. intros [= <- <-]. split; [done|]. intros ? [=]. }
  unfold bind at 1.
  destruct (getFileLineCount _ st) as [[n|e] st1] eqn:E;
    apply getFileLineCount_inv in E as [-> Hn].
  - destruct (Hn n eq_refl) as (content & Hc & _). unfold ret at 1.
    destruct (run_loop_dry options
                [Build_FileToRefactor (resolve pf (projectRoot pf) specific) n
                   (if Js.includes (extname pf (resolve pf (projectRoot pf) specific)) "tsx"
                       || Js.includes (extname pf (resolve pf (projectRoot pf) specific)) "jsx"
                    then "react" else "typescript")] [] st Hd)
      as (results & E & Hr & _).
    { constructor; [|constructor]. simpl. eauto. }
    { constructor. }
    rewrite E. intros [= <- <-]. split; [done|]. by intros ? [= <-].
  - intros [= <- <-]. split; [done|]. intros ? [=].
Qed.

Lemma run_dry_each options st r st' found :
  dryRun options = true ->
  specificFile options = None ->
  run pf syn config options st = (r, st') ->
  scan pf syn config st = (Ok found, st) ->
  exists results, r = Ok results /\ map originalFile results = map path found.
Proof.
  intros Hd Hs. unfold run. rewrite Hs. intros H Hscan.
  apply run_scanned_dry in H as (_ & _ & H); [|done]. by apply H.
Qed.

End DryRunFacts.

(** C9.  A [run] with [dryRun = true] leaves the provider as it found it: the
    same files with the same contents (nothing written, overwritten or
    deleted), and the same clock (no backup taken).  Each result it returns
    carries the analysis of its file, the suggested file names and the
    estimated reduction, with [success = true] and no error; and when the
    files come from [scan], the run returns one such result for each of
    them, in order. *)
Theorem dry_run_changes_nothing
    (pf : Engine.Platform) (syn : Engine.Synthesis) (config : Engine.RefactorConfig)
    (options : Engine.RunOptions) (st st' : Fs.state)
    (r : Fs.outcome (list Engine.RefactorResult)) :
  Engine.dryRun options = true ->
  Engine.run pf syn config options st = (r, st') ->
  st' = st /\
  (forall results, r = Fs.Ok results -> Forall (analysis_only syn st) results) /\
  (Engine.specificFile options = None ->
   forall found, Engine.scan pf syn config st = (Fs.Ok found, st) ->
     exists results,
       r = Fs.Ok results /\
       map Engine.originalFile results = map Engine.path found).
Proof.
  intros Hd Hrun. destruct (run_dry pf syn config _ _ _ _ Hd Hrun) as [-> Hall].
  split; [done|]. split; [done|].
  intros Hs found Hscan. by eapply run_dry_each.
Qed.

(** A dry run over the sample disk returns one result, for the long file. *)
Lemma dry_run_changes_nothing_witness :
  exists res st',
    Engine.run Sample.pf Sample.syn Sample.config Sample.dry Sample.st0
      = (Fs.Ok [res], st') /\
    Engine.originalFile res = "/p/src/long.ts" /\
    st' = Sample.st0 /\
    (forall results, Fs.Ok [res] = Fs.Ok results ->
                     Forall (analysis_only Sample.syn Sample.st0) results) /\
    (Engine.specificFile Sample.dry = None ->
     forall found,
       Engine.scan Sample.pf Sample.syn Sample.config Sample.st0
         = (Fs.Ok found, Sample.st0) ->
       exists results,
         Fs.Ok [res] = Fs.Ok results /\
         map Engine.originalFile results = map Engine.path found).
Proof.
  eexists _, _.
  assert (E : Engine.run Sample.pf Sample.syn Sample.config Sample.dry Sample.st0 =
              (Fs.Ok [Engine.Build_RefactorResult "/p/src/long.ts" ["/p/src/utils.ts"]
                        (inject_Z 4 * (7 # 10)) true None (Some ["Total lines"])],
               Sample.st0)) by (vm_compute; reflexivity).
  split; [exact E|]. split; [reflexivity|].
  exact (dry_run_changes_nothing Sample.pf Sample.syn Sample.config Sample.dry
           Sample.st0 _ _ eq_refl E).
Defined.

(* ===================================================================== *)
(** ** The write transaction *)
(* ===================================================================== *)

Section RollbackFacts.
Import Fs Engine.

Lemma remove_created_mono created st r st' :
  remove_created created st = (r, st') ->
  locked st' = locked st /\ clock st' = clock st /\
  (forall p, files st !! p = None -> files st' !! p = None) /\
  (forall p, p ∉ created -> files st' !! p = files st !! p).
Proof.
  revert st. induction created as [|file rest IH]; intros st; simpl.
  - unfold ret. intros [= <- <-]. done.
  - unfold bind at 1, pathExists at 1. case_bool_decide as He.
    + unfold bind at 1, remove at 1. case_bool_decide as Hl.
      * intros [= <- <-]. done.
      * intros H. apply IH in H as (Hlk & Hck & Hn & Hf). simpl in *.
        split; [done|]. split; [done|]. split.
        -- intros p Hp. apply Hn. by rewrite lookup_delete_None; right.
        -- intros p Hp. apply not_elem_of_cons in Hp as [Hne Hp].
           rewrite Hf by done. by rewrite lookup_delete_ne.
    + unfold bind at 1, ret at 1. intros H.
      apply IH in H as (Hlk & Hck & Hn & Hf).
      split; [done|]. split; [done|]. split; [done|].
      intros p Hp. apply not_elem_of_cons in Hp as [Hne Hp]. by apply Hf.
Qed.

Lemma remove_created_absent created st st' :
  remove_created created st = (Ok tt, st') ->
  forall p, p ∈ created -> files st' !! p = None.
Proof.
  revert st. induction created as [|file rest IH]; intros st; simpl.
  - intros _ p Hp. by apply elem_of_nil in Hp.
  - unfold bind at 1, pathExists at 1. case_bool_decide as He.
    + unfold bind at 1, remove at 1. case_bool_decide as Hl; [done|].
      intros H p Hp. apply elem_of_cons in Hp as [->|Hp]; [|by eapply IH].
      apply remove_created_mono in H as (_ & _ & Hn & _). apply Hn.
      simpl. by rewrite lookup_delete_eq.
    + unfold bind at 1, ret at 1.
      intros H p Hp. apply elem_of_cons in Hp as [->|Hp]; [|by eapply IH].
      apply remove_created_mono in H as (_ & _ & Hn & _). apply Hn.
      destruct (files st !! file) eqn:E; [|done]. exfalso. apply He. eauto.
Qed.

Lemma remove_created_skip created st :
  (forall p, p ∈ created -> files st !! p = None) ->
  remove_created created st = (Ok tt, st).
Proof.
  induction created as [|file rest IH]; intros H; simpl; [done|].
  unfold bind at 1, pathExists at 1. rewrite bool_decide_eq_false_2.
  - unfold bind at 1, ret at 1. apply IH. intros p Hp. apply H. by right.
  - rewrite H by (by left). by intros [? ?].
Qed.

Lemma remove_created_unlocked created st :
  (forall f, f ∈ created -> f ∉ locked st) ->
  exists st', remove_created created st = (Ok tt, st').
Proof.
  revert st. induction created as [|file rest IH]; intros st H; simpl.
  - by eexists.
  - unfold bind at 1, pathExists at 1. case_bool_decide as He.
    + unfold bind at 1, remove at 1.
      rewrite bool_decide_eq_false_2 by (apply H; by left).
      apply IH. simpl. intros f Hf. apply H. by right.
    + unfold bind at 1, ret at 1. apply IH. intros f Hf. apply H. by right.
Qed.

(** A removal that failed fails again, in the same way, from where it stopped. *)
Lemma remove_created_throw_again created st e st' :
  remove_created created st = (Throw e, st') ->
  remove_created created st' = (Throw e, st').
Proof.
  revert st. induction created as [|file rest IH]; intros st; simpl; [done|].
  unfold bind at 1, pathExists at 1. case_bool_decide as He.
  - unfold bind at 1, remove at 1. case_bool_decide as Hl.
    + intros [= <- <-]. unfold bind, pathExists, remove.
      rewrite bool_decide_eq_true_2 by done. by rewrite bool_decide_eq_true_2.
    + intros H. pose proof (IH _ H) as IH'.
      apply remove_created_mono in H as (_ & _ & Hn & _).
      unfold bind at 1, pathExists at 1. rewrite bool_decide_eq_false_2.
      * exact IH'.
      * rewrite Hn; [by intros [? ?]|]. simpl. by rewrite lookup_delete_eq.
  - unfold bind at 1, ret at 1. intros H. pose proof (IH _ H) as IH'.
    apply remove_created_mono in H as (_ & _ & Hn & _).
    unfold bind at 1, pathExists at 1. rewrite bool_decide_eq_false_2.
    + exact IH'.
    + rewrite Hn; [by intros [? ?]|].
      destruct (files st !! file) eqn:E; [|done]. exfalso. apply He. eauto.
Qed.

(** [rollbackRefactoring] step by step. *)
Lemma rollback_unfold originalFile created backupPath st :
  rollbackRefactoring originalFile created backupPath st =
  match remove_created created st with
  | (Ok _, st1) =>
      if bool_decide (is_Some (files st1 !! backupPath))
      then copy backupPath originalFile st1 else (Ok tt, st1)
  | (Throw e, st1) => (Throw e, st1)
  end.
Proof.
  unfold rollbackRefactoring, try_catch, throw. unfold bind at 1.
  destruct (remove_created created st) as [[[]|e1] st1]; [|done].
  unfold bind, pathExists, ret. case_bool_decide; [|done].
  destruct (copy backupPath originalFile st1) as [[[]|?] ?]; done.
Qed.

Lemma copy_throw_state src dst st e st' :
  copy src dst st = (Throw e, st') -> st' = st.
Proof. unfold copy. repeat case_match; intros [=]; congruence. Qed.

(** A rollback that failed fails again, in the same way, when it is retried
    at once: this is what the [catch] block of [performRefactoring] does. *)
Lemma rollback_throw_again originalFile created backupPath st e st' :
  rollbackRefactoring originalFile created backupPath st = (Throw e, st') ->
  rollbackRefactoring originalFile created backupPath st' = (Throw e, st').
Proof.
  rewrite !rollback_unfold.
  destruct (remove_created created st) as [[[]|e1] st1] eqn:E.
  - pose proof (remove_created_absent _ _ _ E) as Habs.
    case_bool_decide as Hb; [|done]. intros H.
    pose proof (copy_throw_state _ _ _ _ _ H) as ->.
    rewrite (remove_created_skip created st1 Habs).
    by rewrite bool_decide_eq_true_2.
  - intros [= <- <-]. by rewrite (remove_created_throw_again _ _ _ _ E).
Qed.

End RollbackFacts.

Section WriterFacts.
Import Fs Engine.
Context (pf : Platform) (syn : Synthesis) (config : RefactorConfig).

Lemma wrote_nil spare st : wrote spare st st [].
Proof. repeat split; auto. intros f Hf. by apply elem_of_nil in Hf. Qed.

Lemma wrote_trans spare st st1 st2 w1 w2 :
  wrote spare st st1 w1 -> wrote spare st1 st2 w2 -> wrote spare st st2 (w1 ++ w2).
Proof.
  intros (Hl1 & Hc1 & Hw1 & Hf1) (Hl2 & Hc2 & Hw2 & Hf2).
  split; [congruence|]. split; [congruence|]. split.
  - intros f Hf. apply elem_of_app in Hf as [Hf|Hf]; [by apply Hw1|].
    rewrite <- Hl1. by apply Hw2.
  - intros p Hp Hs. rewrite elem_of_app in Hp.
    rewrite Hf2, Hf1; auto.
Qed.

Lemma writeFile_wrote spare p c st st' :
  writeFile p c st = (Ok tt, st') -> wrote spare st st' [p].
Proof.
  unfold writeFile. case_bool_decide as Hl; [done|]. intros [= <-].
  repeat split; simpl; auto.
  - intros f Hf. by apply list_elem_of_singleton in Hf as ->.
  - intros q Hq _. rewrite list_elem_of_singleton in Hq.
    by rewrite lookup_insert_ne.
Qed.

Lemma writeFile_spare p c st st' :
  writeFile p c st = (Ok tt, st') -> wrote (Some p) st st' [].
Proof.
  unfold writeFile. case_bool_decide as Hl; [done|]. intros [= <-].
  repeat split; simpl; auto.
  - intros f Hf. by apply elem_of_nil in Hf.
  - intros q _ Hq. rewrite lookup_insert_ne; [done|]. congruence.
Qed.

Lemma write_each_spec spare plan acc st :
  exists written err st',
    write_each plan acc st = (Ok (acc ++ written, err), st') /\
    wrote spare st st' written.
Proof.
  revert acc st. induction plan as [|[file text] rest IH]; intros acc st; simpl.
  - exists [], None, st. rewrite app_nil_r. split; [done|]. apply wrote_nil.
  - unfold bind at 1, attempt at 1.
    destruct (writeFile file text st) as [[[]|e] st1] eqn:E.
    + destruct (IH (acc ++ [file]) st1) as (w & err & st' & -> & Hw).
      exists (file :: w), err, st'. split.
      * by rewrite <- app_assoc.
      * apply (wrote_trans spare st st1 st' [file] w); [|done].
        by eapply writeFile_wrote.
    + exists [], (Some e), st1. rewrite app_nil_r. split; [done|].
      revert E. unfold writeFile. case_bool_decide; [|done].
      intros [= <- <-]. apply wrote_nil.
Qed.

Lemma write_all_spec spare plan acc st newFiles st' :
  write_all plan acc st = (Ok newFiles, st') ->
  exists written, newFiles = acc ++ written /\ wrote spare st st' written.
Proof.
  unfold write_all, bind.
  destruct (write_each_spec spare plan acc st) as (w & err & st1 & -> & Hw).
  destruct err; [done|]. intros [= <- <-]. eauto.
Qed.

Lemma refactorByKind_wrote filePath content st created st' :
  refactorByKind pf syn config filePath content st = (Ok created, st') ->
  wrote (Some filePath) st st' created.
Proof.
  unfold refactorByKind.
  destruct (_ || _).
  { unfold refactorGraphQLFile. unfold bind at 1.
    destruct (write_all _ _ st) as [[nf|e] st1] eqn:E; [|done].
    apply (write_all_spec (Some filePath)) in E as (w & -> & Hw).
    unfold bind at 1.
    destruct (writeFile filePath _ st1) as [[[]|e] st2] eqn:E2; [|done].
    intros [= <- <-]. apply writeFile_spare in E2.
    pose proof (wrote_trans _ _ _ _ _ _ Hw E2) as H. by rewrite app_nil_r in H. }
  destruct (_ && _).
  { unfold refactorTypesFile. intros E.
    by apply (write_all_spec (Some filePath)) in E as (w & -> & Hw). }
  unfold refactorGenericFile.
  destruct (_ || _).
  { unfold refactorReactComponent. unfold bind at 1.
    destruct (write_each_spec (Some filePath) (reactPlan syn filePath content) [] st)
      as (w & err & st1 & -> & Hw).
    destruct err as [e|].
    - intros E. apply (write_all_spec (Some filePath)) in E as (w2 & -> & Hw2).
      simpl. eapply wrote_trans; eauto.
    - unfold ret. by intros [= <- <-]. }
  unfold bind at 1.
  destruct (write_all _ _ st) as [[nf|e] st1] eqn:E; [|done].
  apply (write_all_spec (Some filePath)) in E as (w & -> & Hw).
  unfold bind at 1.
  destruct (writeFile _ _ st1) as [[[]|e] st2] eqn:E2; [|done].
  unfold ret. intros [= <- <-]. simpl.
  eapply wrote_trans; [done|]. by eapply writeFile_wrote.
Qed.

Lemma createBackup_inv filePath st backupPath st0 :
  createBackup pf filePath st = (Ok backupPath, st0) ->
  exists original,
    files st !! filePath = Some original /\
    backupPath = backupPathAt pf filePath (clock st) /\
    backupPath <> filePath /\
    (backupPath ∉ locked st) /\
    st0 = State (<[backupPath := original]> (files st)) (locked st) (S (clock st))
            (let backupDir := join pf (projectRoot pf) ".refactor-backups" in
             if dirExists pf (files st) backupDir || bool_decide (backupDir ∈ dirs st)
             then dirs st else {[ backupDir ]} ∪ dirs st).
Proof.
  unfold createBackup, ensureDir, isDirectory, mkdir, pathExists.
  unfold bind, tick, copy, ret, throw. simpl.
  case_bool_decide as Hfile; [done|].
  destruct (dirExists pf (files st) _ || bool_decide _); simpl.
  - destruct (files st !! filePath) as [original|] eqn:E; [|done].
    case_bool_decide as Hne; [done|]. case_bool_decide as Hl; [done|].
    intros [= <- <-]. exists original. repeat split; auto.
  - case_bool_decide as Hlk; [done|]. simpl.
    destruct (files st !! filePath) as [original|] eqn:E; [|done].
    case_bool_decide as Hne; [done|]. case_bool_decide as Hl; [done|].
    intros [= <- <-]. exists original. repeat split; auto.
Qed.

End WriterFacts.



Section RollbackFailure.
Import Fs Engine.
Context (pf : Platform) (syn : Synthesis) (config : RefactorConfig).

Lemma performRefactoring_raises filePath content suggestions st e :
  rollback_raises pf syn config filePath content st e ->
  exists st', performRefactoring pf syn config filePath content suggestions st
              = (Throw e, st').
Proof.
  intros [b st0 st1 we st2 Hb Hw Hr | b st0 created st1 v st2 Hb Hw Hv Hf Hr].
  - exists st2. unfold performRefactoring. unfold bind at 1. rewrite Hb.
    unfold bind at 1, attempt at 1. rewrite Hw.
    unfold bind at 1. by rewrite Hr.
  - exists st2. unfold performRefactoring. unfold bind at 1. rewrite Hb.
    unfold bind at 1, attempt at 1. rewrite Hw.
    unfold try_catch, bind at 1. rewrite Hv, Hf. simpl.
    unfold bind at 1. rewrite Hr.
    unfold bind at 1. by rewrite (rollback_throw_again _ _ _ _ _ _ Hr).
Qed.

Lemma refactorFile_returns file content st e st' :
  files st !! path file = Some content ->
  performRefactoring pf syn config (path file) content
    (analyzeFile syn (path file) content) st = (Throw e, st') ->
  refactorFile pf syn config file st = (Ok (failed (path file) (Some e)), st').
Proof.
  intros Hc Hp. unfold refactorFile, bind, readFile. rewrite Hc.
  unfold try_catch. by rewrite Hp.
Qed.

End RollbackFailure.

(** C2, as the code has it.  When the rollback of a transaction raises (the
    restore of the original from the backup is rejected), the error leaves
    [rollbackRefactoring] and [performRefactoring] as a raised error, and
    [refactorFile] catches it: it returns an ordinary [RefactorResult] with
    [success = false] whose error is the text of the raised error.  The loop
    of [run] stores that result; its caller sees no raised error. *)
Theorem rollback_failure_is_returned
    (pf : Engine.Platform) (syn : Engine.Synthesis) (config : Engine.RefactorConfig)
    (options : Engine.RunOptions) (file : Engine.FileToRefactor)
    (content : string) (st_pre st : Fs.state) (e : string) :
  Engine.dryRun options = false ->
  run_backup_step pf options file st_pre = (Fs.Ok tt, st) ->
  Fs.files st !! Engine.path file = Some content ->
  rollback_raises pf syn config (Engine.path file) content st e ->
  exists st',
    Engine.performRefactoring pf syn config (Engine.path file) content
      (Engine.analyzeFile syn (Engine.path file) content) st = (Fs.Throw e, st') /\
    Engine.refactorFile pf syn config file st
      = (Fs.Ok (Engine.failed (Engine.path file) (Some e)), st') /\
    Engine.run_one pf syn config options file st_pre
      = (Fs.Ok (Engine.failed (Engine.path file) (Some e)), st') /\
    Engine.success (Engine.failed (Engine.path file) (Some e)) = false.
Proof.
  intros Hd Hpre Hc Hr.
  destruct (performRefactoring_raises pf syn config _ _
              (Engine.analyzeFile syn (Engine.path file) content) _ _ Hr)
    as [st' Hp].
  pose proof (refactorFile_returns pf syn config _ _ _ _ _ Hc Hp) as Hrf.
  exists st'. split; [done|]. split; [done|]. split; [|done].
  unfold Engine.run_one, Fs.try_catch. rewrite Hd.
  unfold run_backup_step in Hpre. unfold Fs.bind at 1.
  rewrite Hpre. by rewrite Hrf.
Qed.

Section SampleRollbackFailure.
Import Fs Engine.

(** On the sample disk with the long file protected against writing, the
    chunks are written, verification fails, and the restore is rejected. *)
Lemma sample_rollback_raises :
  rollback_raises Sample.pf Sample.syn Sample.config "/p/src/long.ts"
    Sample.long_ts Sample.st_locked (denied "/p/src/long.ts").
Proof.
  eapply (raises_after_verification _ _ _ _ _ _ _ _ _ _ _
            (Build_Verification false
               (Some "Syntax error in file: /p/src/long-part1.ts - unbalanced braces"))).
  - vm_compute. reflexivity.
  - vm_compute. reflexivity.
  - vm_compute. reflexivity.
  - reflexivity.
  - vm_compute. reflexivity.
Qed.

End SampleRollbackFailure.

Lemma rollback_failure_is_returned_witness :
  exists st',
    Engine.performRefactoring Sample.pf Sample.syn Sample.config
      "/p/src/long.ts" Sample.long_ts
      (Engine.analyzeFile Sample.syn "/p/src/long.ts" Sample.long_ts)
      Sample.st_locked = (Fs.Throw (Fs.denied "/p/src/long.ts"), st') /\
    Engine.refactorFile Sample.pf Sample.syn Sample.config long_file Sample.st_locked
      = (Fs.Ok (Engine.failed "/p/src/long.ts" (Some (Fs.denied "/p/src/long.ts"))), st') /\
    Engine.run_one Sample.pf Sample.syn Sample.config only_long long_file Sample.st_locked
      = (Fs.Ok (Engine.failed "/p/src/long.ts" (Some (Fs.denied "/p/src/long.ts"))), st') /\
    Engine.success (Engine.failed "/p/src/long.ts" (Some (Fs.denied "/p/src/long.ts")))
      = false.
Proof.
  apply (rollback_failure_is_returned Sample.pf Sample.syn Sample.config only_long
           long_file Sample.long_ts Sample.st_locked Sample.st_locked).
  - reflexivity.
  - reflexivity.
  - vm_compute. reflexivity.
  - exact sample_rollback_raises.
Defined.

(** C2, as the claim words it, fails: in the transaction above the restore is
    rejected during rollback, and the caller of [run] is handed a list with
    an ordinary failed result, not a raised error. *)
Lemma rollback_failure_not_raised :
  rollback_raises Sample.pf Sample.syn Sample.config "/p/src/long.ts"
    Sample.long_ts Sample.st_locked (Fs.denied "/p/src/long.ts") /\
  exists res st',
    Engine.run Sample.pf Sample.syn Sample.config only_long Sample.st_locked
      = (Fs.Ok [res], st') /\
    Engine.success res = false /\
    Engine.error res = Some (Fs.denied "/p/src/long.ts") /\
    ~ (exists e, Engine.run Sample.pf Sample.syn Sample.config only_long
                   Sample.st_locked = (Fs.Throw e, st')).
Proof.
  split; [exact sample_rollback_raises|].
  eexists _, _. split; [vm_compute; reflexivity|].
  split; [reflexivity|]. split; [reflexivity|].
  intros [e He]. vm_compute in He. discriminate He.
Qed.

(* ===================================================================== *)
(** ** The scanner *)
(* ===================================================================== *)

Section ScannerFacts.
Import Scanner Blocks.

Local Arguments isFunction : simpl never.
Local Arguments isComponent : simpl never.
Local Arguments isMainComponent : simpl never.
Local Arguments extractBlock : simpl never.
Local Arguments Js.trim : simpl never.
Local Arguments Js.includes : simpl never.
Local Arguments Js.startsWith : simpl never.
Local Arguments classify : simpl never.

(** Each end finder answers with a line of the block it was started on. *)
Lemma findEndOfImport_loop_bounds ls i c :
  ls <> [] -> i <= findEndOfImport_loop ls i c < i + length ls.
Proof.
  revert i c. induction ls as [|line rest IH]; intros i c Hne; [done|]. simpl.
  destruct (_ && _); [lia|].
  destruct rest as [|l2 rest']; [simpl; lia|].
  specialize (IH (S i) (c + Z.of_nat (Js.count_char "{" line)
                          - Z.of_nat (Js.count_char "}" line))%Z ltac:(done)).
  simpl in *. lia.
Qed.

Lemma findEndOfTypeDefinition_loop_bounds ls i st :
  ls <> [] -> i <= findEndOfTypeDefinition_loop ls i st < i + length ls.
Proof.
  revert i st. induction ls as [|line rest IH]; intros i st Hne; [done|]. simpl.
  destruct (count_line _ _ line st) as [bc found].
  destruct (_ && _); [lia|]. destruct (_ && _); [lia|].
  destruct rest as [|l2 rest']; [simpl; lia|].
  specialize (IH (S i) (bc, found) ltac:(done)). simpl in *. lia.
Qed.

Lemma findEndOfConstant_loop_bounds ls i st :
  ls <> [] -> i <= findEndOfConstant_loop ls i st < i + length ls.
Proof.
  revert i st. induction ls as [|line rest IH]; intros i st Hne; [done|]. simpl.
  destruct (count_line _ _ line st) as [bc found].
  destruct (_ && _); [lia|]. destruct (_ && _); [lia|].
  destruct rest as [|l2 rest']; [simpl; lia|].
  specialize (IH (S i) (bc, found) ltac:(done)). simpl in *. lia.
Qed.

Lemma findEndOfFunction_loop_bounds ls i st :
  ls <> [] -> i <= findEndOfFunction_loop ls i st < i + length ls.
Proof.
  revert i st. induction ls as [|line rest IH]; intros i st Hne; [done|].
  cbn [findEndOfFunction_loop].
  destruct (count_line _ _ line st) as [bc found].
  destruct (_ && _); [simpl; lia|]. destruct (_ && _); [simpl; lia|].
  destruct rest as [|l2 rest']; [simpl; lia|].
  specialize (IH (S i) (bc, found) ltac:(done)). simpl length in *. lia.
Qed.

Lemma drop_nonempty {A} (l : list A) i : i < length l -> drop i l <> [].
Proof.
  intros H E. apply (f_equal length) in E. rewrite length_drop in E. simpl in E. lia.
Qed.

Lemma extractBlock_bounds lines i bt :
  i < length lines ->
  i <= endIndex (extractBlock lines i bt) < length lines.
Proof.
  intros Hi. pose proof (drop_nonempty lines i Hi) as Hne.
  assert (Hlen : i + length (drop i lines) = length lines)
    by (rewrite length_drop; lia).
  unfold extractBlock. rewrite <- Hlen.
  destruct bt; cbn [endIndex];
    [ apply findEndOfImport_loop_bounds
    | apply findEndOfTypeDefinition_loop_bounds
    | apply findEndOfConstant_loop_bounds
    | apply findEndOfFunction_loop_bounds ]; done.
Qed.

(** [parseReactFile] is the scan of the blocks followed by their emission. *)
Lemma parse_loop_scan fuel lines i result :
  parse_loop fuel lines i result =
  match scan_loop fuel lines i with
  | Some bs => Some (fold_left (emit lines) bs result)
  | None => None
  end.
Proof.
  revert i result. induction fuel as [|fuel IH]; intros i result.
  - simpl. by destruct (length lines <=? i).
  - cbn [parse_loop scan_loop]. destruct (length lines <=? i); [done|].
    unfold classify.
    destruct (Js.startsWith _ "import").
    { rewrite IH. by destruct (scan_loop fuel lines _). }
    destruct (_ || _).
    { rewrite IH. by destruct (scan_loop fuel lines _). }
    destruct (_ && _).
    { rewrite IH. by destruct (scan_loop fuel lines _). }
    destruct (isFunction _ || isComponent _); [|apply IH].
    rewrite IH.
    destruct (isComponent _); [destruct (isMainComponent lines i)|];
      by destruct (scan_loop fuel lines _).
Qed.

(** The scan ends within [length lines - i] turns; the blocks come in file
    order without overlap, each starts where the chain of tests fires, and a
    line left out of every block is one the chain of tests skips. *)
Lemma scan_loop_total fuel lines i :
  length lines - i <= fuel ->
  exists bs,
    scan_loop fuel lines i = Some bs /\
    ordered i bs (length lines) /\
    (forall b, b ∈ bs ->
       classify lines (first b) = Some (bucket b) /\
       last b = endIndex (extractBlock lines (first b) (blockType_of (bucket b)))) /\
    (forall j, i <= j < length lines ->
       (exists b, b ∈ bs /\ covers b j) \/ classify lines j = None).
Proof.
  revert i. induction fuel as [|fuel IH]; intros i Hfuel.
  - exists []. simpl. rewrite (proj2 (Nat.leb_le _ _)) by lia.
    split; [done|]. split; [done|]. split.
    + intros b Hb. by apply elem_of_nil in Hb.
    + intros j Hj. lia.
  - cbn [scan_loop]. destruct (length lines <=? i) eqn:Hle.
    { apply Nat.leb_le in Hle. exists []. split; [done|]. split; [done|]. split.
      - intros b Hb. by apply elem_of_nil in Hb.
      - intros j Hj. lia. }
    apply Nat.leb_gt in Hle.
    destruct (classify lines i) as [c|] eqn:Hc.
    + pose proof (extractBlock_bounds lines i (blockType_of c) Hle) as He.
      set (e := endIndex (extractBlock lines i (blockType_of c))) in *.
      destruct (IH (e + 1)) as (bs & -> & Hord & Hst & Hcov); [lia|].
      exists (Range i e c :: bs). split; [done|]. split; [|split].
      * simpl. replace (S e) with (e + 1) by lia. repeat split; auto; lia.
      * intros b Hb. apply elem_of_cons in Hb as [->|Hb]; [|by apply Hst].
        simpl. done.
      * intros j Hj. destruct (decide (j <= e)) as [Hje|Hje].
        -- left. exists (Range i e c). split; [by left|]. unfold covers. simpl. lia.
        -- destruct (Hcov j) as [(b & Hb & Hcb)|Hn]; [lia| |by right].
           left. exists b. split; [by right|done].
    + destruct (IH (i + 1)) as (bs & -> & Hord & Hst & Hcov); [lia|].
      exists bs. split; [done|]. split; [|split; [done|]].
      * destruct bs as [|b rest]; [done|]. simpl in *. 
        destruct Hord as (? & ? & ? & ?). repeat split; auto; lia.
      * intros j Hj. destruct (decide (j = i)) as [->|Hne]; [by right|].
        apply Hcov. lia.
Qed.

Lemma ordered_covers_above lo bs n b j :
  ordered lo bs n -> b ∈ bs -> covers b j -> lo <= j.
Proof.
  revert lo. induction bs as [|b0 rest IH]; intros lo Hord Hb Hc.
  - by apply elem_of_nil in Hb.
  - simpl in Hord. destruct Hord as (H1 & H2 & H3 & Hrest).
    apply elem_of_cons in Hb as [->|Hb].
    + unfold covers in Hc. lia.
    + specialize (IH _ Hrest Hb Hc). lia.
Qed.

(** Blocks in order do not overlap: a line lies in one block at most. *)
Lemma ordered_disjoint lo bs n b1 b2 j :
  ordered lo bs n -> b1 ∈ bs -> b2 ∈ bs -> covers b1 j -> covers b2 j -> b1 = b2.
Proof.
  revert lo. induction bs as [|b0 rest IH]; intros lo Hord H1 H2 C1 C2.
  - by apply elem_of_nil in H1.
  - simpl in Hord. destruct Hord as (Ha & Hb & Hc & Hrest).
    apply elem_of_cons in H1 as [->|H1]; apply elem_of_cons in H2 as [->|H2].
    + done.
    + pose proof (ordered_covers_above _ _ _ _ _ Hrest H2 C2). unfold covers in C1. lia.
    + pose proof (ordered_covers_above _ _ _ _ _ Hrest H1 C1). unfold covers in C2. lia.
    + by eapply IH.
Qed.

Lemma ordered_within lo bs n b :
  ordered lo bs n -> b ∈ bs -> first b <= last b /\ last b < n.
Proof.
  revert lo. induction bs as [|b0 rest IH]; intros lo Hord Hb.
  - by apply elem_of_nil in Hb.
  - simpl in Hord. destruct Hord as (H1 & H2 & H3 & Hrest).
    apply elem_of_cons in Hb as [->|Hb]; [done|]. by eapply IH.
Qed.

End ScannerFacts.

(** C3, as the code has it.  [parseReactFile] returns for every input.  Its
    blocks are line ranges inside the file, in file order and pairwise
    disjoint, so a line lies in one block at most; each block starts on a
    line where one of the four start tests fires and ends where its end
    finder says; the returned record is the emission of these blocks in
    order.  A line that lies in no block is a line on which no start test
    fires: blank and comment lines, and also any other statement that is not
    an import, a type, a [const] or a function. *)
Theorem scanner_blocks_partition (content : string) :
  let lines := Js.split "010" content in
  exists bs,
    Blocks.scan_loop (length lines) lines 0 = Some bs /\
    Scanner.parseReactFile content
      = Some (fold_left (Blocks.emit lines) bs Scanner.empty_parsed) /\
    (forall b, b ∈ bs ->
       Blocks.first b <= Blocks.last b < length lines /\
       Blocks.classify lines (Blocks.first b) = Some (Blocks.bucket b) /\
       Blocks.last b
         = Scanner.endIndex (Scanner.extractBlock lines (Blocks.first b)
                               (Blocks.blockType_of (Blocks.bucket b)))) /\
    Blocks.ordered 0 bs (length lines) /\
    (forall b1 b2 j, b1 ∈ bs -> b2 ∈ bs ->
       Blocks.covers b1 j -> Blocks.covers b2 j -> b1 = b2) /\
    (forall j, j < length lines ->
       (exists b, b ∈ bs /\ Blocks.covers b j) \/ Blocks.classify lines j = None).
Proof.
  intros lines.
  destruct (scan_loop_total (length lines) lines 0) as (bs & Hs & Hord & Hst & Hcov); [lia|].
  exists bs. split; [done|]. split.
  { unfold Scanner.parseReactFile. fold lines. by rewrite parse_loop_scan, Hs. }
  split.
  { intros b Hb. destruct (Hst b Hb) as [Hc He].
    destruct (ordered_within _ _ _ _ Hord Hb). split; [lia|done]. }
  split; [done|]. split.
  { intros b1 b2 j. by apply ordered_disjoint with (lo := 0) (n := length lines). }
  intros j Hj. apply Hcov. lia.
Qed.

(** C3, as the claim words it, fails.  The one-line file [let total = 0;] has
    no delimiter at all; its line is neither blank nor a comment; the scan
    puts it in no block, and [parseReactFile] returns six empty buckets. *)
Lemma scanner_skips_plain_statement :
  Blocks.balanced Files.plain_statement /\
  Blocks.scan_loop 1 (Js.split "010" Files.plain_statement) 0 = Some [] /\
  Scanner.parseReactFile Files.plain_statement = Some Scanner.empty_parsed /\
  ~ Blocks.covers_all_code (Js.split "010" Files.plain_statement) [].
Proof.
  split; [by vm_compute|]. split; [by vm_compute|]. split; [by vm_compute|].
  intros H. destruct (H 0 Files.plain_statement) as (b & Hb & _).
  - reflexivity.
  - by vm_compute.
  - by vm_compute.
  - by apply elem_of_nil in Hb.
Qed.

(* ===================================================================== *)
(** ** The classifier *)
(* ===================================================================== *)

(** What [isMainComponent] tests, spelled out: the line declares a name, and
    a line at or below it holds the text [export default <name>], or the line
    itself holds [export function], or the name has a role suffix. *)
Lemma isMainComponent_iff (lines : list string) (i : nat) :
  Scanner.isMainComponent lines i = true <->
  exists line name,
    lines !! i = Some line /\
    Regex.capture Scanner.name_re 1 line = Some name /\
    ((exists j l, i <= j /\ lines !! j = Some l /\
                  Js.includes l ("export default " +:+ name) = true) \/
     Js.includes line "export function" = true \/
     Regex.test Scanner.role_re name = true).
Proof.
  unfold Scanner.isMainComponent, Scanner.default_export_after.
  destruct (lines !! i) as [line|] eqn:Hl; [|split; [done|by intros (? & ? & ? & _)]].
  destruct (Regex.capture Scanner.name_re 1 line) as [name|] eqn:Hn;
    [|split; [done|intros (? & ? & [= <-] & ? & _); congruence]].
  assert (Hex : existsb (fun l => Js.includes l ("export default " +:+ name))
                  (drop i lines) = true <->
                exists j l, i <= j /\ lines !! j = Some l /\
                            Js.includes l ("export default " +:+ name) = true).
  { rewrite existsb_exists. split.
    - intros (l & Hin & Hl'). apply list_elem_of_In, list_elem_of_lookup in Hin as [k Hk].
      rewrite lookup_drop in Hk. exists (i + k), l. split; [lia|done].
    - intros (j & l & Hj & Hjl & Hl'). exists l. split; [|done].
      apply list_elem_of_In, list_elem_of_lookup. exists (j - i).
      rewrite lookup_drop. by replace (i + (j - i)) with j by lia. }
  split.
  - intros H. exists line, name. split; [done|]. split; [done|].
    destruct (existsb _ _) eqn:E1; [left; by apply Hex|].
    destruct (Js.includes line "export function") eqn:E2; [right; by left|].
    destruct (Regex.test Scanner.role_re name) eqn:E3; [right; by right|done].
  - intros (line' & name' & [= <-] & Hn' & H). rewrite Hn in Hn'. injection Hn' as <-.
    destruct H as [H|[->|H]].
    + apply Hex in H. by rewrite H.
    + by destruct (existsb _ _).
    + rewrite H. by destruct (existsb _ _), (Js.includes line "export function").
Qed.

(** C6.  The component of [default_function] is the file's default export,
    with the declared identifier [Main]; [isMainComponent] answers [false]
    for it, and [parseReactFile] files the block under [subComponents] and
    leaves [mainComponent] empty.  The test for a default export looks for
    the text [export default Main], which [export default function Main]
    does not hold. *)
Theorem default_export_function_is_not_main :
  Js.split "010" Files.default_function
    = ["export default function Main() {"; "return null;"; "}"] /\
  Scanner.isComponent "export default function Main() {" = true /\
  Regex.capture Scanner.name_re 1 "export default function Main() {" = Some "Main" /\
  Scanner.isMainComponent (Js.split "010" Files.default_function) 0 = false /\
  Blocks.classify (Js.split "010" Files.default_function) 0
    = Some Blocks.CSubComponent /\
  Scanner.parseReactFile Files.default_function
    = Some (Scanner.Parsed [] [] [] [] [Files.default_function] EmptyString).
Proof. vm_compute. repeat split; reflexivity. Qed.

(** What the bucket of a block does depend on: its first line, and whether a
    line at or below that first line holds the text [export default] followed
    by the declared name.  Two blocks that agree on both get the same bucket,
    whatever the lines above them and whatever was scanned before; no
    iteration state and no field of the instance enters. *)
Lemma classify_reads_first_line_and_later_export
    (lines1 lines2 : list string) (i1 i2 : nat) (line : string) :
  lines1 !! i1 = Some line ->
  lines2 !! i2 = Some line ->
  (forall name, Regex.capture Scanner.name_re 1 line = Some name ->
     Scanner.default_export_after lines1 i1 name
     = Scanner.default_export_after lines2 i2 name) ->
  Blocks.classify lines1 i1 = Blocks.classify lines2 i2.
Proof.
  intros H1 H2 Hexp.
  unfold Blocks.classify, Scanner.line_at, Scanner.isMainComponent.
  rewrite H1, H2. simpl default.
  destruct (Regex.capture Scanner.name_re 1 line) as [name|] eqn:Hn; [|done].
  by rewrite (Hexp name).
Qed.

Example classify_below_header :
  Blocks.classify Files.export_below 0
  = Blocks.classify Files.export_below_with_header 1.
Proof.
  apply (classify_reads_first_line_and_later_export
           Files.export_below Files.export_below_with_header 0 1 "function Foo() {").
  - reflexivity.
  - reflexivity.
  - intros name Hn. vm_compute in Hn. injection Hn as <-. vm_compute. reflexivity.
Qed.

(** C8.  The two files [export_above] and [export_below] hold the same
    component block, text for text, and the same default-export statement;
    the statement stands above the block in the first and below it in the
    second.  The classifier makes the block a sub-component in the first and
    the main component in the second: its search for the default export
    starts at the first line of the block and reads downwards only. *)
Theorem classification_depends_on_export_position :
  Blocks.scan_loop 4 Files.export_above 0
    = Some [Blocks.Range 1 3 Blocks.CSubComponent] /\
  Blocks.scan_loop 4 Files.export_below 0
    = Some [Blocks.Range 0 2 Blocks.CMain] /\
  Blocks.text_of Files.export_above (Blocks.Range 1 3 Blocks.CSubComponent)
    = Blocks.text_of Files.export_below (Blocks.Range 0 2 Blocks.CMain) /\
  "export default Foo;" ∈ Files.export_above /\
  "export default Foo;" ∈ Files.export_below /\
  Blocks.classify Files.export_above 1 <> Blocks.classify Files.export_below 0.
Proof.
  split; [by vm_compute|]. split; [by vm_compute|]. split; [by vm_compute|].
  split; [by left|]. split; [do 3 right; by left|].
  by vm_compute.
Qed.

(* ===================================================================== *)
(** ** Export names *)
(* ===================================================================== *)

Section NamingFacts.
Import Naming.

Lemma append_empty_r (s : string) : s +:+ EmptyString = s.
Proof.
  induction s as [|c s IH]; [done|].
  change (String c (s +:+ EmptyString) = String c s). by rewrite IH.
Qed.

Lemma join_empty_cons (x : string) (l : list string) :
  Js.join EmptyString (x :: l) = x +:+ Js.join EmptyString l.
Proof.
  unfold Js.join. destruct l as [|y l]; simpl; [by rewrite append_empty_r|done].
Qed.

Lemma split_cons c s : exists h t, Js.split c s = h :: t.
Proof.
  destruct s as [|a s]; simpl; [by eexists _, _|].
  destruct (Ascii.eqb a c); [by eexists _, _|].
  destruct (Js.split c s); by eexists _, _.
Qed.

Lemma pascal_segments (fresh : bool) (s : string) :
  match Js.split "-" s with
  | h :: t =>
      (if fresh then capitalize h else h) +:+ Js.join EmptyString (map capitalize t)
  | [] => EmptyString
  end = pascal_spec_go fresh s.
Proof.
  revert fresh. induction s as [|c s IH]; intros fresh.
  - simpl. by destruct fresh.
  - cbn [Js.split pascal_spec_go].
    destruct (Ascii.eqb c "-") eqn:Hc.
    + specialize (IH true). destruct (Js.split "-" s) as [|h t] eqn:Hs.
      { destruct (split_cons "-" s) as (? & ? & ?). congruence. }
      cbn [map]. rewrite join_empty_cons, IH. by destruct fresh.
    + specialize (IH false). destruct (Js.split "-" s) as [|h t] eqn:Hs.
      { destruct (split_cons "-" s) as (? & ? & ?). congruence. }
      rewrite <- IH. by destruct fresh.
Qed.

(** [extractMainComponentName] is the derivation of the specification. *)
Lemma extractMainComponentName_spec (fileName : string) :
  extractMainComponentName fileName = pascal_spec fileName.
Proof.
  unfold extractMainComponentName, pascal_spec.
  rewrite <- (pascal_segments true fileName).
  destruct (Js.split "-" fileName) as [|h t]; [done|].
  cbn [map]. by rewrite join_empty_cons.
Qed.

End NamingFacts.

(** C7.  On the base name [step-2-form] the derivation of the specification
    gives [Step2Form], and so does [extractMainComponentName]; [toPascalCase]
    gives [Step-2Form]: its pattern only takes a hyphen away when a lower-case
    letter follows, so the hyphen before the digit stays.  The same happens
    before an upper-case letter and at the end of the name. *)
Theorem toPascalCase_keeps_hyphens :
  Naming.pascal_spec "step-2-form" = "Step2Form" /\
  Naming.extractMainComponentName "step-2-form" = "Step2Form" /\
  Naming.toPascalCase "step-2-form" = "Step-2Form" /\
  Naming.toPascalCase "data-Table" = "Data-Table" /\
  Naming.pascal_spec "data-Table" = "DataTable" /\
  Naming.toPascalCase "my-data-table" = Naming.pascal_spec "my-data-table".
Proof. vm_compute. repeat split; reflexivity. Qed.

(* ===================================================================== *)
(** ** The import dependency filters *)
(* ===================================================================== *)

Section ImportFacts.
Import Regex Imports.

Local Arguments Js.is_word : simpl never.

Lemma startsWith_append s t :
  Js.startsWith s t = true <-> exists post, s = t +:+ post.
Proof.
  unfold Js.startsWith. revert s. induction t as [|a t IH]; intros s; simpl.
  - split; [intros _; by exists s|done].
  - destruct s as [|b s]; [split; [done|intros [post [=]]]|].
    rewrite andb_true_iff, IH. split.
    + intros [Hab [post ->]]. apply Ascii.eqb_eq in Hab as ->. by exists post.
    + intros [post [= -> ->]]. split; [apply Ascii.eqb_refl|by exists post].
Qed.

Lemma skip_append t post : skip (String.length t) (t +:+ post) = post.
Proof. induction t as [|a t IH]; simpl; [by destruct post|done]. Qed.

Lemma append_inj_l (t a b : string) : t +:+ a = t +:+ b -> a = b.
Proof.
  induction t as [|x t IH]; [done|].
  change (String x (t +:+ a) = String x (t +:+ b) -> a = b).
  intros [= H]. by apply IH.
Qed.

(** [s.includes(sub)] is: [sub] occurs somewhere in [s]. *)
Lemma includes_occurs s sub : Js.includes s sub = true <-> occurs sub s.
Proof.
  unfold occurs. induction s as [|c s IH]; simpl.
  - rewrite orb_false_r, startsWith_append. split.
    + intros [post H]. by exists EmptyString, post.
    + intros (pre & post & H). destruct pre; [by exists post|done].
  - rewrite orb_true_iff, startsWith_append, IH. split.
    + intros [[post H]|(pre & post & H)].
      * by exists EmptyString, post.
      * exists (String c pre), post. by rewrite H.
    + intros (pre & post & H). destruct pre as [|c' pre].
      * left. by exists post.
      * right. injection H as -> H. by exists pre, post.
Qed.

(** The matcher on a literal. *)
Lemma m_Lit {R} t prev s c (k : option ascii -> string -> caps -> option R) :
  m (Lit t) prev s c k =
  if Js.startsWith s t then k (last_char prev t) (skip (String.length t) s) c
  else None.
Proof.
  revert prev s. induction t as [|a t IH]; intros prev s.
  - simpl. by destruct s.
  - cbn [Lit m]. destruct s as [|b s]; [done|].
    unfold Js.startsWith. cbn [Js.startsWith_ String.length skip last_char].
    destruct (Ascii.eqb a b) eqn:Hab; [|done].
    apply Ascii.eqb_eq in Hab as ->. rewrite IH. done.
Qed.

Lemma identifier_last_word prev t :
  is_identifier t -> word_before (last_char prev t) = true.
Proof.
  intros [Hne Hw]. destruct t as [|a t]; [done|]. clear Hne.
  revert a Hw. induction t as [|b t IH]; intros a Hw; simpl in *.
  - by apply andb_true_iff in Hw as [-> _].
  - apply andb_true_iff in Hw as [_ Hw]. by apply IH.
Qed.

Lemma identifier_first_word t post :
  is_identifier t -> word_after (t +:+ post) = true.
Proof.
  intros [Hne Hw]. destruct t as [|a t]; [done|]. simpl in *.
  by apply andb_true_iff in Hw as [-> _].
Qed.

(** The pattern of [filterUsedTypes] at one position. *)
Lemma match_here_type_re t prev s :
  is_identifier t ->
  is_Some (match_here (type_re t) prev s) <->
  exists post, s = t +:+ post /\ word_before prev = false /\ word_after post = false.
Proof.
  intros Hid. unfold match_here, type_re. cbn [m]. rewrite m_Lit.
  destruct (Js.startsWith s t) eqn:Hs.
  - apply startsWith_append in Hs as [post ->].
    rewrite skip_append, (identifier_first_word t post Hid),
      (identifier_last_word prev t Hid).
    split.
    + destruct (word_before prev) eqn:Hb, (word_after post) eqn:Ha; simpl;
        try (by intros [? [=]]).
      intros _. by exists post.
    + intros (post' & Heq & Hb & Ha). apply append_inj_l in Heq as <-.
      rewrite Hb, Ha. simpl. by eexists.
  - destruct (xorb _ _); (split; [by intros [? [=]]|]);
      intros (post & -> & _); 
      (assert (Js.startsWith (t +:+ post) t = true) as E
         by (apply startsWith_append; by exists post)); congruence.
Qed.

Lemma append_nil_l (s : string) : EmptyString +:+ s = s.
Proof. reflexivity. Qed.

Lemma append_cons (a : ascii) (s1 s2 : string) :
  String a s1 +:+ s2 = String a (s1 +:+ s2).
Proof. reflexivity. Qed.

Lemma exec_from_None r prev pre s :
  exec_from r prev pre s = None <->
  forall s1 s2, s = s1 +:+ s2 -> match_here r (last_char prev s1) s2 = None.
Proof.
  revert prev pre. induction s as [|a s IH]; intros prev pre; cbn [exec_from].
  - destruct (match_here r prev EmptyString) as [[rest c]|] eqn:E; split.
    + done.
    + intros H. specialize (H EmptyString EmptyString eq_refl). simpl in H. congruence.
    + intros _ s1 s2 H. destruct s1; [|by rewrite append_cons in H].
      rewrite append_nil_l in H. by subst s2.
    + done.
  - destruct (match_here r prev (String a s)) as [[rest c]|] eqn:E; split.
    + done.
    + intros H. specialize (H EmptyString (String a s) eq_refl). simpl in H. congruence.
    + intros H s1 s2 Hs. destruct s1 as [|a' s1].
      * rewrite append_nil_l in Hs. by subst s2.
      * rewrite append_cons in Hs. injection Hs as <- Hs. simpl.
        by apply (proj1 (IH (Some a) (String a pre)) H).
    + intros H. apply IH. intros s1 s2 Hs.
      apply (H (String a s1) s2). by rewrite append_cons, Hs.
Qed.

Lemma exec_from_Some r prev pre s :
  exec_from r prev pre s <> None ->
  exists s1 s2, s = s1 +:+ s2 /\ is_Some (match_here r (last_char prev s1) s2).
Proof.
  revert prev pre. induction s as [|a s IH]; intros prev pre; cbn [exec_from].
  - destruct (match_here r prev EmptyString) eqn:E; [intros _|done].
    exists EmptyString, EmptyString. simpl. rewrite E. eauto.
  - destruct (match_here r prev (String a s)) eqn:E.
    + intros _. exists EmptyString, (String a s). simpl. rewrite E. eauto.
    + intros H. destruct (IH _ _ H) as (s1 & s2 & -> & Hm).
      exists (String a s1), s2. done.
Qed.

Lemma test_iff r s :
  test r s = true <->
  exists s1 s2, s = s1 +:+ s2 /\ is_Some (match_here r (last_char None s1) s2).
Proof.
  unfold test, exec. split.
  - destruct (exec_from r None EmptyString s) eqn:E; [intros _|done].
    apply (exec_from_Some r None EmptyString). congruence.
  - intros (s1 & s2 & Hs & Hm).
    destruct (exec_from r None EmptyString s) eqn:E; [done|].
    rewrite exec_from_None in E. rewrite (E s1 s2 Hs) in Hm. by destruct Hm.
Qed.

(** The pattern of [filterUsedTypes] finds the whole-identifier occurrences. *)
Lemma test_type_re t text :
  is_identifier t -> test (type_re t) text = true <-> occurs_whole t text.
Proof.
  intros Hid. rewrite test_iff. unfold occurs_whole, last_of. split.
  - intros (s1 & s2 & -> & Hm).
    apply (match_here_type_re t _ s2 Hid) in Hm as (post & -> & Hb & Ha).
    by exists s1, post.
  - intros (pre & post & -> & Hb & Ha). exists pre, (t +:+ post).
    split; [done|]. apply (match_here_type_re t _ _ Hid). by exists post.
Qed.

Lemma filterUsedTypes_elem allTypes text t :
  t ∈ filterUsedTypes allTypes text <->
  t ∈ allTypes /\ test (type_re t) text = true.
Proof.
  induction allTypes as [|t0 rest IH]; simpl.
  - rewrite !elem_of_nil. tauto.
  - destruct (test (type_re t0) text) eqn:E.
    + rewrite !elem_of_cons, IH. split.
      * intros [->|[? ?]]; auto.
      * intros [[->|?] ?]; auto.
    + rewrite elem_of_cons, IH. split.
      * intros [? ?]; auto.
      * intros [[->|?] ?]; [congruence|auto].
Qed.

Lemma any_named_used_existsb text imports :
  any_named_used text imports =
  existsb (Js.includes text)
    (map (fun imp => Js.trim (replace_first alias_re imp EmptyString)) imports).
Proof.
  induction imports as [|imp rest IH]; simpl; [done|].
  destruct (Js.includes text _); [done|]. by rewrite IH.
Qed.

Lemma import_is_used_names text stmt :
  import_is_used text stmt =
  match imported_names stmt with
  | Some names => Some (existsb (Js.includes text) names)
  | None => None
  end.
Proof.
  unfold import_is_used, imported_names.
  destruct (exec import_re stmt) as [f|]; [|done].
  destruct (truthy (cap 1 (groups f))) as [named|].
  { by rewrite any_named_used_existsb. }
  destruct (truthy (cap 2 (groups f))) as [ns|].
  { simpl. by rewrite orb_false_r. }
  destruct (truthy (cap 3 (groups f))) as [d|]; [|done].
  simpl. by rewrite orb_false_r.
Qed.

Lemma existsb_elem {A} (f : A -> bool) (l : list A) :
  existsb f l = true <-> exists x, x ∈ l /\ f x = true.
Proof.
  rewrite existsb_exists. split; intros (x & H1 & H2); exists x;
    (split; [by apply list_elem_of_In|done]).
Qed.

Lemma getRequiredImports_elem text allImports stmt :
  stmt ∈ getRequiredImports text allImports <->
  stmt ∈ allImports /\
  exists names, imported_names stmt = Some names /\
                exists n, n ∈ names /\ occurs n text.
Proof.
  assert (Hused : forall st, import_is_used text st = Some true <->
            exists names, imported_names st = Some names /\
                          exists n, n ∈ names /\ occurs n text).
  { intros st. rewrite import_is_used_names.
    destruct (imported_names st) as [names|].
    - split.
      + intros [= He]. exists names. split; [done|].
        apply existsb_elem in He as (n & Hn & Hi). exists n.
        split; [done|]. by apply includes_occurs.
      + intros (names' & [= <-] & n & Hn & Ho). f_equal.
        apply existsb_elem. exists n. split; [done|]. by apply includes_occurs.
    - split; [done|]. by intros (? & ? & _). }
  induction allImports as [|s0 rest IH]; simpl.
  - rewrite !elem_of_nil. tauto.
  - destruct (import_is_used text s0) as [[|]|] eqn:E.
    + rewrite !elem_of_cons, IH. split.
      * intros [->|[? ?]]; [|auto]. split; [by left|]. by apply Hused.
      * intros [[->|?] ?]; auto.
    + rewrite elem_of_cons, IH. split.
      * intros [? ?]; auto.
      * intros [[->|Hin] Hu]; [|auto]. apply Hused in Hu. congruence.
    + rewrite elem_of_cons, IH. split.
      * intros [? ?]; auto.
      * intros [[->|Hin] Hu]; [|auto]. apply Hused in Hu. congruence.
Qed.

End ImportFacts.


(* ===================================================================== *)
(** ** More on the scan and on [run] *)
(* ===================================================================== *)

Section ScanComplete.
Import Fs Engine.
Context (pf : Platform) (syn : Synthesis) (config : RefactorConfig).

Lemma scan_files_complete fw fs acc st res st' :
  scan_files config fw fs acc st = (Ok res, st') ->
  (forall f, f ∈ acc -> f ∈ res) /\
  forall file content,
    file ∈ fs -> files st !! file = Some content ->
    (Z.of_nat (length (Js.split "010" content)) > maxLines config)%Z ->
    Build_FileToRefactor file (length (Js.split "010" content)) fw ∈ res.
Proof.
  revert acc. induction fs as [|file0 rest IH]; intros acc; simpl.
  - unfold ret. intros [= <- <-]. split; [done|]. intros ? ? Hin. by apply elem_of_nil in Hin.
  - unfold bind at 1.
    destruct (getFileLineCount file0 st) as [[n|e] st1] eqn:E; [|done].
    apply getFileLineCount_inv in E as [-> Hn].
    destruct (Hn n eq_refl) as (content0 & Hc0 & ->).
    destruct (Z.of_nat _ >? maxLines config)%Z eqn:Hgt; intros H;
      pose proof (IH _ H) as [Hacc Hall]; (split; [intros f Hf; apply Hacc; try apply elem_of_app; auto|]);
      intros file content Hin Hc Hlong;
      (apply elem_of_cons in Hin as [->|Hin]; [|by eapply Hall]).
    + rewrite Hc0 in Hc. injection Hc as <-. apply Hacc.
      apply elem_of_app. right. by left.
    + rewrite Hc0 in Hc. injection Hc as <-. lia.
Qed.

Lemma scan_dirs_complete fw dirs acc st res st' :
  scan_dirs pf config fw dirs acc st = (Ok res, st') ->
  (forall f, f ∈ acc -> f ∈ res) /\
  forall dir file content,
    dir ∈ dirs ->
    dirExists pf (files st) (join pf (projectRoot pf) dir) = true ->
    file ∈ globbed pf config (files st) dir ->
    files st !! file = Some content ->
    (Z.of_nat (length (Js.split "010" content)) > maxLines config)%Z ->
    Build_FileToRefactor file (length (Js.split "010" content)) fw ∈ res.
Proof.
  revert acc. induction dirs as [|dir0 rest IH]; intros acc; simpl.
  - unfold ret. intros [= <- <-]. split; [done|].
    intros ? ? ? Hin. by apply elem_of_nil in Hin.
  - unfold bind at 1, get_files at 1.
    destruct (dirExists pf (files st) (join pf (projectRoot pf) dir0)) eqn:Hd; simpl.
    + unfold bind at 1.
      destruct (scan_files _ _ _ _ _) as [[res1|e] st1] eqn:E; [|done].
      pose proof (scan_files_inv config _ _ _ _ _ _ E) as [-> _].
      apply scan_files_complete in E as [Hacc1 Hall1].
      intros H. pose proof (IH _ H) as [Hacc Hall]. split; [by auto|].
      intros dir file content Hin Hde Hg Hc Hlong.
      apply elem_of_cons in Hin as [->|Hin]; [|by eapply Hall].
      apply Hacc. by eapply Hall1.
    + intros H. pose proof (IH _ H) as [Hacc Hall]. split; [done|].
      intros dir file content Hin Hde Hg Hc Hlong.
      apply elem_of_cons in Hin as [->|Hin]; [congruence|by eapply Hall].
Qed.

End ScanComplete.

(** X1.  [scan] only reads: it returns the provider as it found it.  And it
    misses nothing: every file that [glob] lists for a target directory that
    exists and whose line count is above [maxLines] is among the entries
    returned, with that line count and the framework detected. *)
Theorem scan_returns_every_longer_file
    (pf : Engine.Platform) (syn : Engine.Synthesis) (config : Engine.RefactorConfig)
    (st st' : Fs.state) (found : list Engine.FileToRefactor) :
  Engine.scan pf syn config st = (Fs.Ok found, st') ->
  st' = st /\
  forall dir file content,
    dir ∈ Engine.targetDirectories config ->
    Engine.dirExists pf (Fs.files st)
      (Engine.join pf (Engine.projectRoot pf) dir) = true ->
    file ∈ globbed pf config (Fs.files st) dir ->
    Fs.files st !! file = Some content ->
    (Z.of_nat (length (Js.split "010" content)) > Engine.maxLines config)%Z ->
    Engine.Build_FileToRefactor file (length (Js.split "010" content))
      (Engine.detectFramework syn (Fs.files st)) ∈ found.
Proof.
  intros H. pose proof (scan_inv pf syn config _ _ _ H) as [-> _]. split; [done|].
  revert H. unfold Engine.scan, Fs.bind at 1, Fs.get_files at 1. intros H.
  by apply scan_dirs_complete in H as [_ H].
Qed.

Lemma scan_returns_every_longer_file_witness :
  exists found,
    Engine.scan Sample.pf Sample.syn Sample.config Sample.st0
      = (Fs.Ok found, Sample.st0) /\
    Engine.Build_FileToRefactor "/p/src/long.ts" 4 "unknown" ∈ found.
Proof.
  eexists. split; [vm_compute; reflexivity|].
  refine (proj2 (scan_returns_every_longer_file Sample.pf Sample.syn Sample.config
                   Sample.st0 Sample.st0 _ _) "src" "/p/src/long.ts" Sample.long_ts
            _ _ _ _ _).
  - vm_compute. reflexivity.
  - by left.
  - vm_compute. reflexivity.
  - refine (bool_decide_unpack _ _). vm_compute. exact I.
  - vm_compute. reflexivity.
  - vm_compute. reflexivity.
Defined.

Section RunTotal.
Import Fs Engine.
Context (pf : Platform) (syn : Synthesis) (config : RefactorConfig).

Lemma performRefactoring_originalFile filePath content suggestions st res st' :
  performRefactoring pf syn config filePath content suggestions st = (Ok res, st') ->
  originalFile res = filePath.
Proof.
  unfold performRefactoring. unfold bind at 1.
  destruct (createBackup pf filePath st) as [[b|e] st0]; [|done].
  unfold bind at 1, attempt at 1.
  destruct (refactorByKind pf syn config filePath content st0) as [[created|e] st1].
  - unfold try_catch, bind at 1.
    destruct (verifyRefactoring_total filePath created st1) as (v & -> & _).
    destruct (v_success v); simpl.
    + unfold ret. by intros [= <- <-].
    + unfold bind at 1.
      destruct (rollbackRefactoring filePath created b st1) as [[[]|e] st2].
      * unfold ret. by intros [= <- <-].
      * unfold bind at 1.
        by destruct (rollbackRefactoring filePath created b st2) as [[[]|e'] st3].
  - unfold bind at 1.
    by destruct (rollbackRefactoring filePath [] b st1) as [[[]|e'] st2].
Qed.

Lemma refactorFile_originalFile file st res st' :
  refactorFile pf syn config file st = (Ok res, st') -> originalFile res = path file.
Proof.
  unfold refactorFile. unfold bind at 1.
  destruct (readFile (path file) st) as [[content|e] st0]; [|done].
  unfold try_catch.
  destruct (performRefactoring _ _ _ _ _ _ st0) as [[r|e] st1] eqn:E.
  - intros [= <- <-]. by eapply performRefactoring_originalFile.
  - unfold ret. by intros [= <- <-].
Qed.

(** The loop body of [run] catches everything: it returns a result for its
    file whatever happens. *)
Lemma run_one_total options file st :
  exists res st', run_one pf syn config options file st = (Ok res, st') /\
                  originalFile res = path file.
Proof.
  unfold run_one, try_catch.
  destruct (dryRun options).
  - unfold bind at 1. destruct (readFile (path file) st) as [[content|e] st0].
    + by eexists _, _.
    + by eexists _, _.
  - match goal with |- context [bind ?c ?k st] => destruct (bind c k st) as [[r|e] st1] eqn:E end.
    + exists r, st1. split; [done|]. revert E. unfold bind at 1.
      match goal with |- context [?c st] =>
        lazymatch c with (if _ then _ else _) => destruct (c st) as [[[]|e0] st0] end end;
        [|done].
      by apply refactorFile_originalFile.
    + by eexists _, _.
Qed.

Lemma run_loop_total options fs acc st :
  exists results st',
    run_loop pf syn config options fs acc st = (Ok results, st') /\
    map originalFile results = map originalFile acc ++ map path fs.
Proof.
  revert acc st. induction fs as [|file rest IH]; intros acc st; simpl.
  - exists acc, st. by rewrite app_nil_r.
  - unfold bind at 1.
    destruct (run_one_total options file st) as (res & st1 & -> & Ho).
    destruct (IH (acc ++ [res]) st1) as (results & st' & -> & Hm).
    exists results, st'. split; [done|].
    rewrite Hm, map_app, <- app_assoc. simpl. by rewrite Ho.
Qed.

End RunTotal.





Section WriterFrame.
Import Fs Engine.
Context (pf : Platform) (syn : Synthesis) (config : RefactorConfig).

Lemma writeFile_frame spare p c st r st' :
  writeFile p c st = (r, st') -> exists written, wrote spare st st' written.
Proof.
  destruct r as [[]|e]; intros E.
  - exists [p]. by eapply writeFile_wrote.
  - exists []. revert E. unfold writeFile. case_bool_decide; [|done].
    intros [= _ <-]. apply wrote_nil.
Qed.

Lemma write_all_frame spare plan acc st r st' :
  write_all plan acc st = (r, st') -> exists written, wrote spare st st' written.
Proof.
  unfold write_all, bind.
  destruct (write_each_spec spare plan acc st) as (w & err & st1 & -> & Hw).
  destruct err; unfold throw, ret; intros [= <- <-]; eauto.
Qed.

(** Whether it returns or throws, a writer changes neither the locks nor the
    clock, and it removes nothing. *)
Lemma refactorByKind_frame filePath content st r st' :
  refactorByKind pf syn config filePath content st = (r, st') ->
  exists written, wrote (Some filePath) st st' written.
Proof.
  unfold refactorByKind.
  destruct (_ || _).
  { unfold refactorGraphQLFile. unfold bind at 1.
    destruct (write_all _ _ st) as [[nf|e] st1] eqn:E;
      apply (write_all_frame (Some filePath)) in E as (w & Hw).
    - unfold bind at 1.
      destruct (writeFile filePath _ st1) as [[[]|e] st2] eqn:E2.
      + unfold ret. intros [= <- <-]. apply writeFile_spare in E2.
        exists (w ++ []). by eapply wrote_trans.
      + intros [= <- <-]. exists w.
        revert E2. unfold writeFile. case_bool_decide; [|done]. by intros [= _ <-].
    - intros [= <- <-]. eauto. }
  destruct (_ && _).
  { unfold refactorTypesFile. apply write_all_frame. }
  unfold refactorGenericFile.
  destruct (_ || _).
  { unfold refactorReactComponent. unfold bind at 1.
    destruct (write_each_spec (Some filePath) (reactPlan syn filePath content) [] st)
      as (w & err & st1 & -> & Hw).
    destruct err as [e|].
    - intros E. apply (write_all_frame (Some filePath)) in E as (w2 & Hw2).
      exists (w ++ w2). by eapply wrote_trans.
    - unfold ret. intros [= <- <-]. eauto. }
  unfold bind at 1.
  destruct (write_all _ _ st) as [[nf|e] st1] eqn:E;
    apply (write_all_frame (Some filePath)) in E as (w & Hw).
  - unfold bind at 1.
    destruct (writeFile _ _ st1) as [[[]|e] st2] eqn:E2;
      apply (writeFile_frame (Some filePath)) in E2 as (w2 & Hw2).
    + unfold ret. intros [= <- <-]. exists (w ++ w2). by eapply wrote_trans.
    + intros [= <- <-]. exists (w ++ w2). by eapply wrote_trans.
  - intros [= <- <-]. eauto.
Qed.

End WriterFrame.

(** X4.  When the writer of a transaction throws, [performRefactoring]
    restores the original file from the backup and raises the writer's own
    error again; the files the writer had put down before it failed are not
    removed, since the list of created files is still empty at that point:
    apart from the original, the disk is as the writer left it. *)
Theorem writer_failure_leaves_written_files
    (pf : Engine.Platform) (syn : Engine.Synthesis) (config : Engine.RefactorConfig)
    (filePath content : string) (suggestions : Engine.Suggestions)
    (st st0 st1 : Fs.state) (backupPath writerError : string) :
  Engine.createBackup pf filePath st = (Fs.Ok backupPath, st0) ->
  Engine.refactorByKind pf syn config filePath content st0 = (Fs.Throw writerError, st1) ->
  Fs.files st1 !! backupPath = Fs.files st0 !! backupPath ->
  filePath ∉ Fs.locked st ->
  exists original st',
    Fs.files st !! filePath = Some original /\
    Engine.performRefactoring pf syn config filePath content suggestions st
      = (Fs.Throw writerError, st') /\
    Fs.files st' !! filePath = Some original /\
    forall p, p <> filePath -> Fs.files st' !! p = Fs.files st1 !! p.
Proof.
  intros Hb Hw Hkeep Hunl.
  destruct (createBackup_inv _ _ _ _ _ Hb) as (original & Ho & _ & Hne & Hbl & Hst0).
  destruct (refactorByKind_frame _ _ _ _ _ _ _ _ Hw) as (w & Hl1 & _ & _ & _).
  assert (Hbk : Fs.files st1 !! backupPath = Some original).
  { rewrite Hkeep. subst st0. simpl. by rewrite lookup_insert_eq. }
  exists original, (Fs.set_files (insert filePath original) st1).
  split; [done|]. split; [|split].
  - unfold Engine.performRefactoring. unfold Fs.bind at 1. rewrite Hb.
    unfold Fs.bind at 1, Fs.attempt at 1. rewrite Hw.
    unfold Fs.bind at 1. rewrite rollback_unfold. simpl.
    rewrite bool_decide_eq_true_2 by (rewrite Hbk; eauto).
    unfold Fs.copy. rewrite Hbk.
    rewrite bool_decide_eq_false_2 by done.
    rewrite bool_decide_eq_false_2; [done|].
    rewrite Hl1. by subst st0.
  - simpl. by rewrite lookup_insert_eq.
  - intros p Hp. simpl. by rewrite lookup_insert_ne.
Qed.

(** The second chunk file of the long sample file is protected: the first
    chunk is written, the second write is rejected, and the first chunk file
    stays on the disk after the transaction has raised. *)
Lemma writer_failure_leaves_written_files_witness :
  exists st',
    Engine.performRefactoring Sample.pf Sample.syn Sample.config
      "/p/src/long.ts" Sample.long_ts
      (Engine.analyzeFile Sample.syn "/p/src/long.ts" Sample.long_ts)
      Sample2.st_part2_locked
    = (Fs.Throw (Fs.denied "/p/src/long-part2.ts"), st') /\
    Fs.files st' !! "/p/src/long.ts" = Some Sample.long_ts /\
    is_Some (Fs.files st' !! "/p/src/long-part1.ts").
Proof.
  pose (bk := "/p/.refactor-backups/long.ts-2025-07-08T10-00-00-0Z.backup").
  pose (st0 := Fs.State (<[bk := Sample.long_ts]> Sample.disk)
                 {[ "/p/src/long-part2.ts" ]} 1 {[ "/p/.refactor-backups" ]}).
  pose (st1 := Fs.set_files (insert "/p/src/long-part1.ts" "function f() {
g();") st0).
  destruct (writer_failure_leaves_written_files Sample.pf Sample.syn Sample.config
               "/p/src/long.ts" Sample.long_ts
               (Engine.analyzeFile Sample.syn "/p/src/long.ts" Sample.long_ts)
               Sample2.st_part2_locked st0 st1 bk (Fs.denied "/p/src/long-part2.ts"))
    as (original & st' & Ho & Hp & Hf & Hrest).
  - vm_compute. reflexivity.
  - vm_compute. reflexivity.
  - vm_compute. reflexivity.
  - intros Hin. apply (bool_decide_pack _) in Hin. vm_compute in Hin. exact Hin.
  - exists st'. split; [exact Hp|]. split.
    + rewrite Hf, <- Ho. reflexivity.
    + rewrite Hrest by discriminate. vm_compute. eauto.
Defined.

(** X5.  What a result of [performRefactoring] says about the disk.  A
    result with [success = true] lists exactly the files the writer returned,
    each of which exists, is not blank and has its braces paired, carries
    the estimated reduction and no error, and the disk is as the writer left
    it (nothing rolled back).  A result with [success = false] lists no
    file. *)
Theorem performRefactoring_result_is_verified
    (pf : Engine.Platform) (syn : Engine.Synthesis) (config : Engine.RefactorConfig)
    (filePath content : string) (suggestions : Engine.Suggestions)
    (st st' : Fs.state) (res : Engine.RefactorResult) :
  Engine.performRefactoring pf syn config filePath content suggestions st
    = (Fs.Ok res, st') ->
  (Engine.success res = true ->
     Forall (file_ok (Fs.files st')) (Engine.newFiles res) /\
     Engine.error res = None /\
     Engine.linesReduced res = Engine.estimatedReduction suggestions /\
     exists backupPath st0,
       Engine.createBackup pf filePath st = (Fs.Ok backupPath, st0) /\
       Engine.refactorByKind pf syn config filePath content st0
         = (Fs.Ok (Engine.newFiles res), st')) /\
  (Engine.success res = false -> Engine.newFiles res = []).
Proof.
  unfold Engine.performRefactoring. unfold Fs.bind at 1.
  destruct (Engine.createBackup pf filePath st) as [[b|e] st0] eqn:Hb; [|done].
  unfold Fs.bind at 1, Fs.attempt at 1.
  destruct (Engine.refactorByKind pf syn config filePath content st0)
    as [[created|e] st1] eqn:Hw.
  - unfold Fs.try_catch, Fs.bind at 1.
    destruct (verifyRefactoring_total filePath created st1) as (v & -> & Hvt & _).
    destruct (Engine.v_success v) eqn:Hv; simpl.
    + unfold Fs.ret. intros [= <- <-]. simpl. split; [|done]. intros _.
      destruct (Hvt eq_refl) as [Hall _]. split; [done|]. split; [done|].
      split; [done|]. by exists b, st0.
    + unfold Fs.bind at 1.
      destruct (Engine.rollbackRefactoring filePath created b st1) as [[[]|e] st2].
      * unfold Fs.ret. intros [= <- <-]. simpl. split; [done|done].
      * unfold Fs.bind at 1.
        by destruct (Engine.rollbackRefactoring filePath created b st2) as [[[]|e'] st3].
  - unfold Fs.bind at 1.
    by destruct (Engine.rollbackRefactoring filePath [] b st1) as [[[]|e'] st2].
Qed.

(** A file of two well-formed pieces: both chunk files and the index file
    are written and pass. *)
Lemma performRefactoring_result_is_verified_witness :
  exists res st',
    Engine.performRefactoring Sample.pf Sample.syn Sample.config
      "/p/src/ok.ts" Sample2.ok_ts
      (Engine.analyzeFile Sample.syn "/p/src/ok.ts" Sample2.ok_ts) Sample2.st_ok
    = (Fs.Ok res, st') /\
    Engine.newFiles res
    = ["/p/src/ok-part1.ts"; "/p/src/ok-part2.ts"; "/p/src/ok-index.ts"] /\
    Forall (file_ok (Fs.files st')) (Engine.newFiles res).
Proof.
  destruct (Engine.performRefactoring Sample.pf Sample.syn Sample.config
      "/p/src/ok.ts" Sample2.ok_ts
      (Engine.analyzeFile Sample.syn "/p/src/ok.ts" Sample2.ok_ts) Sample2.st_ok)
    as [r st'] eqn:E.
  assert (Hr : r = Fs.Ok (Engine.Build_RefactorResult "/p/src/ok.ts"
                 ["/p/src/ok-part1.ts"; "/p/src/ok-part2.ts"; "/p/src/ok-index.ts"]
                 (inject_Z 4 * (7 # 10)) true None None)).
  { pose proof E as E'. vm_compute in E'. injection E' as <- _. vm_compute. reflexivity. }
  subst r. eexists _, st'. split; [reflexivity|]. split; [reflexivity|].
  exact (proj1 (proj1 (performRefactoring_result_is_verified _ _ _ _ _ _ _ _ _ E) eq_refl)).
Defined.

(* ===================================================================== *)
(** ** The generic writer: chunks, index file, line count *)
(* ===================================================================== *)

Section ChunkFacts.
Import Engine.

Lemma str_app_assoc (a b c : string) : (a +:+ b) +:+ c = a +:+ b +:+ c.
Proof.
  induction a as [|x a IH]; [done|].
  change (String x ((a +:+ b) +:+ c) = String x (a +:+ b +:+ c)). by rewrite IH.
Qed.

Lemma join_cons2 sep (x y : string) (l : list string) :
  Js.join sep (x :: y :: l) = x +:+ sep +:+ Js.join sep (y :: l).
Proof. reflexivity. Qed.

(** [content.split('\n').join('\n')] is [content]. *)
Lemma join_split c s : Js.join (String c EmptyString) (Js.split c s) = s.
Proof.
  induction s as [|a s IH]; [done|]. simpl.
  destruct (Ascii.eqb_spec a c) as [->|Hne].
  - destruct (split_cons c s) as (h & t & E). rewrite E in *.
    rewrite join_cons2, IH. reflexivity.
  - destruct (split_cons c s) as (h & t & E). rewrite E in *.
    destruct t as [|y t].
    + simpl in *. by rewrite IH.
    + rewrite join_cons2 in *.
      change (String a (h +:+ String c EmptyString +:+ Js.join (String c EmptyString) (y :: t))
              = String a s). by rewrite IH.
Qed.

Lemma trimEnd_newline (t : string) :
  Js.trimEnd (t +:+ String "010" EmptyString) = Js.trimEnd t.
Proof.
  induction t as [|c t IH]; [done|].
  change (Js.trimEnd (String c (t +:+ String "010" EmptyString)) = Js.trimEnd (String c t)).
  simpl. by rewrite IH.
Qed.

Lemma trim_newline (s : string) :
  Js.trim (s +:+ String "010" EmptyString) = Js.trim s.
Proof.
  unfold Js.trim. induction s as [|c s IH]; [done|].
  change (Js.trimEnd (Js.trimStart (String c (s +:+ String "010" EmptyString)))
          = Js.trimEnd (Js.trimStart (String c s))).
  simpl. destruct (Js.is_space c); [done|].
  change (Js.trimEnd (String c s +:+ String "010" EmptyString) = Js.trimEnd (String c s)).
  apply trimEnd_newline.
Qed.

(** The loop of [splitContentIntoChunks] over lines none of which is a
    place to cut. *)
Lemma chunk_fold_no_cut (maxLines : Z) (ls : list string) chunks cur n :
  ls <> [] ->
  (forall j line, ls !! j = Some line -> Js.trim line = EmptyString ->
                  (Z.of_nat (n + j) < maxLines)%Z) ->
  fold_left
    (fun '(chunks, currentChunk, currentLines) line =>
       if (Z.of_nat currentLines >=? maxLines)%Z
          && String.eqb (Js.trim line) EmptyString
       then (chunks ++ [Js.trim currentChunk], EmptyString, 0)
       else (chunks, currentChunk +:+ line +:+ String "010" EmptyString,
             S currentLines))
    ls (chunks, cur, n)
  = (chunks, cur +:+ Js.join (String "010" EmptyString) ls +:+ String "010" EmptyString,
     n + length ls).
Proof.
  revert cur n. induction ls as [|x ls IH]; intros cur n Hne H; [done|].
  assert (Hx : ((Z.of_nat n >=? maxLines)%Z && String.eqb (Js.trim x) EmptyString) = false).
  { destruct (String.eqb_spec (Js.trim x) EmptyString) as [Ht|_];
      [|by rewrite andb_false_r].
    specialize (H 0 x eq_refl Ht). rewrite Nat.add_0_r in H.
    rewrite andb_true_r, Z.geb_leb. apply Z.leb_gt. lia. }
  cbn [fold_left]. rewrite Hx.
  destruct ls as [|y ls].
  - simpl. f_equal. lia.
  - rewrite IH; [|done|].
    + rewrite join_cons2, !str_app_assoc. f_equal. simpl. lia.
    + intros j line Hl Ht. specialize (H (S j) line Hl Ht).
      replace (S n + j) with (n + S j) by lia. done.
Qed.

Lemma write_each_files plan acc st nf st' :
  write_each plan acc st = (Fs.Ok (nf, None), st') -> nf = acc ++ plan.*1.
Proof.
  revert acc st. induction plan as [|[file text] rest IH]; intros acc st; simpl.
  - unfold Fs.ret. intros [= <- _]. by rewrite app_nil_r.
  - unfold Fs.bind at 1, Fs.attempt at 1.
    destruct (Fs.writeFile file text st) as [[[]|e] st1]; [|done].
    intros E. apply IH in E as ->. by rewrite <- app_assoc.
Qed.

Lemma write_all_files plan acc st nf st' :
  write_all plan acc st = (Fs.Ok nf, st') -> nf = acc ++ plan.*1.
Proof.
  unfold write_all, Fs.bind.
  destruct (write_each plan acc st) as [[[nf' [e|]]|e] st1] eqn:E; try done.
  unfold Fs.ret. intros [= <- <-]. by eapply write_each_files.
Qed.

Lemma filter_all_out {A} (f : A -> bool) (l : list A) :
  (forall x, x ∈ l -> f x = true) -> filter (fun x => negb (f x)) l = [].
Proof.
  induction l as [|x l IH]; intros H; [done|].
  rewrite filter_cons. rewrite (H x) by (by left). simpl.
  apply IH. intros y Hy. apply H. by right.
Qed.

End ChunkFacts.

(** X6.  [splitContentIntoChunks] cuts at blank lines only, and only once
    the current chunk holds [maxLines] lines.  A text with no blank line at
    line index [maxLines] or later (so every text of at most [maxLines]
    lines, and every text without a blank line) is not split: the result is
    the whole text trimmed, as one chunk, or no chunk at all when the text
    is blank. *)
Theorem splitContentIntoChunks_without_cut (content : string) (maxLines : Z) :
  (forall i line,
     Js.split "010" content !! i = Some line -> Js.trim line = EmptyString ->
     (Z.of_nat i < maxLines)%Z) ->
  Engine.splitContentIntoChunks content maxLines
  = if String.eqb (Js.trim content) EmptyString then [] else [Js.trim content].
Proof.
  intros H. unfold Engine.splitContentIntoChunks.
  rewrite (chunk_fold_no_cut maxLines (Js.split "010" content) [] EmptyString 0).
  - rewrite join_split, append_nil_l, trim_newline.
    by destruct (String.eqb (Js.trim content) EmptyString).
  - destruct (split_cons "010" content) as (h & t & ->). done.
  - exact H.
Qed.

Lemma splitContentIntoChunks_without_cut_witness :
  Engine.splitContentIntoChunks Sample2.ok_ts 4 = [Sample2.ok_ts].
Proof.
  apply (splitContentIntoChunks_without_cut Sample2.ok_ts 4).
  intros i line Hl _. apply lookup_lt_Some in Hl.
  change (length (Js.split "010" Sample2.ok_ts)) with 4 in Hl. lia.
Defined.

(** X7.  The index file of the generic writer leaves out every file whose
    path contains [index].  When all the chunk files are such paths (the
    source lies in a directory or has a name that contains [index]; or
    there is no chunk at all because the source is blank), the index file
    written is a lone line break, and verification of the created files
    fails on it: such a refactoring never succeeds. *)
Theorem generic_index_of_index_paths_fails
    (pf : Engine.Platform) (syn : Engine.Synthesis) (config : Engine.RefactorConfig)
    (filePath content : string) (st st1 : Fs.state) (created : list string) :
  (String.eqb (Engine.extname pf filePath) ".tsx"
   || String.eqb (Engine.extname pf filePath) ".jsx") = false ->
  (forall file,
     file ∈ (Engine.chunk_plan pf (Engine.dirname pf filePath)
               (Engine.basename_ext pf filePath (Engine.extname pf filePath))
               (Engine.extname pf filePath)
               (Engine.splitContentIntoChunks content (Engine.maxLines config))).*1 ->
     Js.includes file "index" = true) ->
  Engine.refactorGenericFile pf syn config filePath content st = (Fs.Ok created, st1) ->
  let indexFile :=
    Engine.join pf (Engine.dirname pf filePath)
      (Engine.basename_ext pf filePath (Engine.extname pf filePath) +:+ "-index" +:+
       Engine.extname pf filePath) in
  indexFile ∈ created /\
  Fs.files st1 !! indexFile = Some (String "010" EmptyString) /\
  exists v,
    Engine.verifyRefactoring filePath created st1 = (Fs.Ok v, st1) /\
    Engine.v_success v = false.
Proof.
  intros Hext Hidx. unfold Engine.refactorGenericFile. rewrite Hext.
  unfold Fs.bind at 1.
  destruct (Engine.write_all _ _ st) as [[nf|e] st0] eqn:E; [|done].
  apply write_all_files in E. simpl in E. subst nf.
  unfold Fs.bind at 1, Fs.writeFile at 1. case_bool_decide as Hl; [done|].
  cbv beta iota zeta. unfold Fs.ret. intros [= <- <-].
  set (indexFile := Engine.join pf (Engine.dirname pf filePath)
      (Engine.basename_ext pf filePath (Engine.extname pf filePath) +:+ "-index" +:+
       Engine.extname pf filePath)).
  assert (Hcontent : Engine.createGenericIndexFile pf
            (Engine.basename_ext pf filePath (Engine.extname pf filePath))
            (Engine.chunk_plan pf (Engine.dirname pf filePath)
               (Engine.basename_ext pf filePath (Engine.extname pf filePath))
               (Engine.extname pf filePath)
               (Engine.splitContentIntoChunks content (Engine.maxLines config))).*1
          = String "010" EmptyString).
  { unfold Engine.createGenericIndexFile.
    by rewrite (filter_all_out (fun file => Js.includes file "index") _ Hidx). }
  rewrite Hcontent.
  assert (Hin : indexFile ∈
            (Engine.chunk_plan pf (Engine.dirname pf filePath)
               (Engine.basename_ext pf filePath (Engine.extname pf filePath))
               (Engine.extname pf filePath)
               (Engine.splitContentIntoChunks content (Engine.maxLines config))).*1
            ++ [indexFile]).
  { apply elem_of_app. right. by apply list_elem_of_singleton. }
  split; [exact Hin|]. split.
  { simpl. by rewrite lookup_insert_eq. }
  match goal with |- context [Engine.verifyRefactoring _ ?c ?s] =>
    destruct (verifyRefactoring_total filePath c s) as (v & Ev & Ht & _)
  end.
  exists v. split; [exact Ev|].
  destruct (Engine.v_success v); [|done].
  destruct (Ht eq_refl) as [Hall _]. rewrite Forall_forall in Hall.
  destruct (Hall indexFile Hin) as (c & Hc & Hne & _).
  simpl in Hc. fold indexFile in Hc. rewrite lookup_insert_eq in Hc.
  injection Hc as <-. by destruct Hne.
Qed.

(** A file in a directory named [indexer]: both chunk paths contain [index]. *)
Lemma generic_index_of_index_paths_fails_witness :
  exists created st1,
    Engine.refactorGenericFile Sample.pf Sample.syn Sample.config
      "/p/indexer/ok.ts" Sample2.ok_ts Sample.st0 = (Fs.Ok created, st1) /\
    "/p/indexer/ok-index.ts" ∈ created /\
    Fs.files st1 !! "/p/indexer/ok-index.ts" = Some (String "010" EmptyString) /\
    exists v,
      Engine.verifyRefactoring "/p/indexer/ok.ts" created st1 = (Fs.Ok v, st1) /\
      Engine.v_success v = false.
Proof.
  destruct (Engine.refactorGenericFile Sample.pf Sample.syn Sample.config
      "/p/indexer/ok.ts" Sample2.ok_ts Sample.st0) as [r st1] eqn:E.
  assert (Hr : r = Fs.Ok ["/p/indexer/ok-part1.ts"; "/p/indexer/ok-part2.ts";
                           "/p/indexer/ok-index.ts"]).
  { pose proof E as E'. vm_compute in E'. injection E' as <- _. vm_compute. reflexivity. }
  subst r. eexists _, st1. split; [reflexivity|].
  refine (generic_index_of_index_paths_fails Sample.pf Sample.syn Sample.config
            "/p/indexer/ok.ts" Sample2.ok_ts Sample.st0 st1 _ _ _ E).
  - reflexivity.
  - intros file.
    match goal with |- file ∈ ?l -> _ =>
      replace l with ["/p/indexer/ok-part1.ts"; "/p/indexer/ok-part2.ts"]
        by (vm_compute; reflexivity)
    end.
    rewrite !elem_of_cons, elem_of_nil. intros [->|[->|[]]]; reflexivity.
Defined.

(** X8.  [getFileLineCount] is the number of line breaks plus one: an empty
    file counts one line, and a final line break adds a line.  On a path
    that does not exist it raises the provider's error; it never changes
    the disk. *)
Theorem getFileLineCount_counts_line_breaks (filePath : string) (st : Fs.state) :
  Engine.getFileLineCount filePath st
  = match Fs.files st !! filePath with
    | Some content => (Fs.Ok (S (Js.count_char "010" content)), st)
    | None =>
        (Fs.Throw ("Error: ENOENT: no such file or directory, open '" +:+ filePath +:+ "'"),
         st)
    end.
Proof.
  unfold Engine.getFileLineCount, Fs.bind, Fs.readFile, Fs.ret.
  destruct (Fs.files st !! filePath) as [content|]; [|done].
  f_equal. f_equal. induction content as [|a s IH]; [done|]. simpl.
  destruct (Ascii.eqb a "010"); simpl; [by rewrite IH|].
  destruct (split_cons "010" s) as (h & t & E). rewrite E in *. simpl in *. done.
Qed.

(* ===================================================================== *)
(** ** Where a block ends *)
(* ===================================================================== *)

Section BlockEndFacts.
Import Scanner.

Lemma count_char_app c (a b : string) :
  Js.count_char c (a +:+ b) = Js.count_char c a + Js.count_char c b.
Proof.
  induction a as [|x a IH]; [done|].
  change (Js.count_char c (String x (a +:+ b))
          = Js.count_char c (String x a) + Js.count_char c b).
  simpl. rewrite IH. lia.
Qed.

Lemma count_char_join_cons c (x : string) (l : list string) :
  c <> "010"%char -> l <> [] ->
  Js.count_char c (Js.join (String "010" EmptyString) (x :: l))
  = Js.count_char c x + Js.count_char c (Js.join (String "010" EmptyString) l).
Proof.
  intros Hc Hl. destruct l as [|y l]; [done|].
  rewrite join_cons2, !count_char_app.
  change (Js.count_char c (String "010" EmptyString))
    with ((if Ascii.eqb "010" c then 1 else 0) + 0).
  destruct (Ascii.eqb_spec "010" c) as [E|_]; [congruence|]. lia.
Qed.

Lemma take_S_nonempty {A} (l : list A) k : l <> [] -> take (S k) l <> [].
Proof. by destruct l. Qed.

Lemma slice_incl_drop {A} (l : list A) i k :
  Js.slice_incl l i (i + k) = take (S k) (drop i l).
Proof. unfold Js.slice_incl. f_equal. lia. Qed.

(** The difference the loop of [findEndOfImport] keeps, read off a text. *)
Lemma findEndOfImport_loop_spec ls i bc :
  ls <> [] ->
  exists k,
    findEndOfImport_loop ls i bc = i + k /\ k < length ls /\
    (k = length ls - 1 \/
     exists line, ls !! k = Some line /\ Js.includes line ";" = true /\
       (bc + Z.of_nat (Js.count_char "{" (Js.join (String "010" EmptyString) (take (S k) ls)))
           - Z.of_nat (Js.count_char "}" (Js.join (String "010" EmptyString) (take (S k) ls)))
        <= 0)%Z) /\
    forall k' line, k' < k -> ls !! k' = Some line -> Js.includes line ";" = true ->
      ~ (bc + Z.of_nat (Js.count_char "{" (Js.join (String "010" EmptyString) (take (S k') ls)))
            - Z.of_nat (Js.count_char "}" (Js.join (String "010" EmptyString) (take (S k') ls)))
         <= 0)%Z.
Proof.
  revert i bc. induction ls as [|line rest IH]; intros i bc Hne; [done|].
  cbn [findEndOfImport_loop].
  destruct (Js.includes line ";" &&
            (bc + Z.of_nat (Js.count_char "{" line) - Z.of_nat (Js.count_char "}" line) <=? 0)%Z)
    eqn:Hstop.
  - exists 0. split; [lia|]. split; [simpl; lia|]. split.
    + right. exists line. apply andb_prop in Hstop as [Hs Hb].
      apply Z.leb_le in Hb. split; [done|]. split; [done|].
      change (Js.join (String "010" EmptyString) (take 1 (line :: rest))) with line. exact Hb.
    + intros k' l Hk. lia.
  - destruct rest as [|y rest'].
    + exists 0. simpl. split; [lia|]. split; [lia|]. split; [by left|].
      intros k' l Hk. lia.
    + destruct (IH (S i) (bc + Z.of_nat (Js.count_char "{" line)
                            - Z.of_nat (Js.count_char "}" line))%Z)
        as (k & Ek & Hk & Hend & Hfirst); [done|].
      exists (S k). split; [rewrite Ek; lia|]. split; [simpl in *; lia|]. split.
      * destruct Hend as [Hlast|(l & Hl & Hs & Hb)].
        -- left. simpl in *. lia.
        -- right. exists l. split; [done|]. split; [done|].
           change (take (S (S k)) (line :: y :: rest')) with (line :: take (S k) (y :: rest')).
           rewrite !count_char_join_cons by (done || by apply take_S_nonempty).
           lia.
      * intros k' l Hk' Hl Hs. destruct k' as [|k'].
        -- simpl in Hl. injection Hl as <-. change (Js.join (String "010" EmptyString) (take 1 (line :: y :: rest'))) with line.
           rewrite Hs in Hstop. simpl in Hstop. apply Z.leb_gt in Hstop. lia.
        -- simpl in Hl.
           change (take (S (S k')) (line :: y :: rest')) with (line :: take (S k') (y :: rest')).
           rewrite !count_char_join_cons by (done || by apply take_S_nonempty).
           intros Hb. apply (Hfirst k' l); [lia|done|done|]. lia.
Qed.

(** What the character loop of the brace counters comes to. *)
Lemma count_line_braces line bc found :
  count_line is_lbrace is_rbrace line (bc, found)
  = ((bc + Z.of_nat (Js.count_char "{" line) - Z.of_nat (Js.count_char "}" line))%Z,
     found || (0 <? Js.count_char "{" line)).
Proof.
  revert bc found. induction line as [|c line IH]; intros bc found.
  - simpl. f_equal; [lia|by rewrite orb_false_r].
  - cbn [count_line Js.count_char]. unfold is_lbrace, is_rbrace.
    destruct (Ascii.eqb c "{") eqn:E1; destruct (Ascii.eqb c "}") eqn:E2;
      rewrite IH; f_equal; try lia; simpl;
      try (by rewrite orb_true_r); try done.
Qed.

Lemma ends_well_step line y rest bc found k :
  ends_well (y :: rest)
    (bc + Z.of_nat (Js.count_char "{" line) - Z.of_nat (Js.count_char "}" line))%Z
    (found || (0 <? Js.count_char "{" line)) k ->
  k < length (y :: rest) ->
  ends_well (line :: y :: rest) bc found (S k).
Proof.
  unfold ends_well. intros H Hk.
  change (take (S (S k)) (line :: y :: rest)) with (line :: take (S k) (y :: rest)).
  rewrite !count_char_join_cons by (done || by apply take_S_nonempty).
  set (o := Js.count_char "{" line) in *.
  set (o' := Js.count_char "{" (Js.join _ (take (S k) (y :: rest)))) in *.
  assert (Hor : (found || (0 <? o + o')) = (found || (0 <? o) || (0 <? o'))).
  { destruct found; simpl; [done|].
    destruct (Nat.ltb_spec 0 o); destruct (Nat.ltb_spec 0 o');
      destruct (Nat.ltb_spec 0 (o + o')); simpl; try done; lia. }
  rewrite Hor.
  destruct H as [H|[[H1 H2]|[H1 H2]]].
  - left. simpl in *. lia.
  - right. left. split; [done|]. lia.
  - right. right. split; [done|]. exact H2.
Qed.

Lemma findEndOfTypeDefinition_loop_spec ls i bc found :
  ls <> [] ->
  exists k, findEndOfTypeDefinition_loop ls i (bc, found) = i + k /\
            k < length ls /\ ends_well ls bc found k.
Proof.
  revert i bc found. induction ls as [|line rest IH]; intros i bc found Hne; [done|].
  cbn [findEndOfTypeDefinition_loop]. rewrite count_line_braces.
  set (f' := found || (0 <? Js.count_char "{" line)).
  set (bc' := (bc + Z.of_nat (Js.count_char "{" line) - Z.of_nat (Js.count_char "}" line))%Z).
  destruct (negb f' && Js.includes line ";") eqn:H1.
  { exists 0. split; [lia|]. split; [simpl; lia|]. right. right.
    apply andb_prop in H1 as [Hf Hs]. apply negb_true_iff in Hf.
    change (Js.join (String "010" EmptyString) (take 1 (line :: rest))) with line.
    split; [exact Hf|]. by exists line. }
  destruct (f' && (bc' =? 0)%Z) eqn:H2.
  { exists 0. split; [lia|]. split; [simpl; lia|]. right. left.
    apply andb_prop in H2 as [Hf Hb]. apply Z.eqb_eq in Hb.
    change (Js.join (String "010" EmptyString) (take 1 (line :: rest))) with line.
    split; [exact Hf|exact Hb]. }
  destruct rest as [|y rest'].
  { exists 0. simpl. split; [lia|]. split; [lia|]. by left. }
  destruct (IH (S i) bc' f') as (k & Ek & Hk & Hend); [done|].
  exists (S k). split; [rewrite Ek; lia|]. split; [simpl in *; lia|].
  by apply ends_well_step.
Qed.

Lemma findEndOfFunction_loop_spec ls i bc found :
  ls <> [] ->
  exists k, findEndOfFunction_loop ls i (bc, found) = i + k /\
            k < length ls /\ ends_well ls bc found k.
Proof.
  revert i bc found. induction ls as [|line rest IH]; intros i bc found Hne; [done|].
  cbn [findEndOfFunction_loop]. rewrite count_line_braces.
  set (f' := found || (0 <? Js.count_char "{" line)).
  set (bc' := (bc + Z.of_nat (Js.count_char "{" line) - Z.of_nat (Js.count_char "}" line))%Z).
  destruct (Js.includes line "=>" && negb (Js.includes line "{") && negb f'
            && (Js.includes line ";" || match rest with [] => true | _ => false end))
    eqn:H1.
  { exists 0. split; [lia|]. split; [simpl; lia|].
    apply andb_prop in H1 as [H1 Hs]. apply andb_prop in H1 as [_ Hf].
    apply negb_true_iff in Hf.
    destruct rest as [|y rest']; [by left|]. right. right.
    change (Js.join (String "010" EmptyString) (take 1 (line :: y :: rest'))) with line.
    split; [exact Hf|].
    rewrite orb_false_r in Hs. by exists line. }
  destruct (f' && (bc' =? 0)%Z) eqn:H2.
  { exists 0. split; [lia|]. split; [simpl; lia|]. right. left.
    apply andb_prop in H2 as [Hf Hb]. apply Z.eqb_eq in Hb.
    change (Js.join (String "010" EmptyString) (take 1 (line :: rest))) with line.
    split; [exact Hf|exact Hb]. }
  destruct rest as [|y rest'].
  { exists 0. simpl. split; [lia|]. split; [lia|]. by left. }
  destruct (IH (S i) bc' f') as (k & Ek & Hk & Hend); [done|].
  exists (S k). split; [rewrite Ek; lia|]. split; [simpl in *; lia|].
  by apply ends_well_step.
Qed.

End BlockEndFacts.

(** X9.  [findEndOfImport] ends an import on the first line, from its first
    line on, that holds a semicolon while the text read so far closes every
    brace it opens.  When there is no such line (the statement has no
    semicolon) the import runs to the last line of the file. *)
Theorem findEndOfImport_first_complete_line (lines : list string) (startIndex : nat) :
  startIndex < length lines ->
  startIndex <= Scanner.findEndOfImport lines startIndex < length lines /\
  (import_complete lines startIndex (Scanner.findEndOfImport lines startIndex) \/
   Scanner.findEndOfImport lines startIndex = length lines - 1) /\
  forall j, startIndex <= j < Scanner.findEndOfImport lines startIndex ->
            ~ import_complete lines startIndex j.
Proof.
  intros Hi. unfold Scanner.findEndOfImport.
  destruct (findEndOfImport_loop_spec (drop startIndex lines) startIndex 0)
    as (k & -> & Hk & Hend & Hfirst); [by apply drop_nonempty|].
  rewrite length_drop in Hk, Hend. split; [lia|]. split.
  - destruct Hend as [Hlast|(line & Hl & Hs & Hb)]; [right; lia|].
    left. exists line. rewrite lookup_drop in Hl. split; [done|]. split; [done|].
    unfold block_text. rewrite slice_incl_drop. lia.
  - intros j Hj (line & Hl & Hs & Hb).
    apply (Hfirst (j - startIndex) line); [lia| |done|].
    + rewrite lookup_drop. by replace (startIndex + (j - startIndex)) with j by lia.
    + unfold block_text in Hb.
      replace j with (startIndex + (j - startIndex)) in Hb by lia.
      rewrite slice_incl_drop in Hb. lia.
Qed.

Lemma findEndOfImport_first_complete_line_witness :
  1 <= Scanner.findEndOfImport ["// head"; "import {"; "  a,"; "} from 'x';"; "f();"] 1 < 5 /\
  (import_complete ["// head"; "import {"; "  a,"; "} from 'x';"; "f();"] 1
     (Scanner.findEndOfImport ["// head"; "import {"; "  a,"; "} from 'x';"; "f();"] 1) \/
   Scanner.findEndOfImport ["// head"; "import {"; "  a,"; "} from 'x';"; "f();"] 1 = 5 - 1) /\
  forall j,
    1 <= j < Scanner.findEndOfImport ["// head"; "import {"; "  a,"; "} from 'x';"; "f();"] 1 ->
    ~ import_complete ["// head"; "import {"; "  a,"; "} from 'x';"; "f();"] 1 j.
Proof.
  apply (findEndOfImport_first_complete_line
           ["// head"; "import {"; "  a,"; "} from 'x';"; "f();"] 1).
  simpl. lia.
Defined.

(** X10.  A block of a type or of a function ([extractBlock] with
    [findEndOfTypeDefinition] or [findEndOfFunction]) that ends before the
    last line of the file is well formed in its braces: either it has at
    least one opening brace and as many closing as opening braces, or it has
    no opening brace at all and its last line holds a semicolon. *)
Theorem block_before_last_line_pairs_braces
    (lines : list string) (startIndex : nat) (bt : Scanner.blockType) :
  startIndex < length lines ->
  bt = Scanner.BType \/ bt = Scanner.BFunction ->
  Scanner.endIndex (Scanner.extractBlock lines startIndex bt) < length lines - 1 ->
  (0 < Js.count_char "{" (Scanner.content (Scanner.extractBlock lines startIndex bt)) /\
   Js.count_char "{" (Scanner.content (Scanner.extractBlock lines startIndex bt))
   = Js.count_char "}" (Scanner.content (Scanner.extractBlock lines startIndex bt))) \/
  (Js.count_char "{" (Scanner.content (Scanner.extractBlock lines startIndex bt)) = 0 /\
   exists line,
     lines !! Scanner.endIndex (Scanner.extractBlock lines startIndex bt) = Some line /\
     Js.includes line ";" = true).
Proof.
  intros Hi Hbt.
  assert (H : exists k,
             Scanner.endIndex (Scanner.extractBlock lines startIndex bt) = startIndex + k /\
             k < length (drop startIndex lines) /\
             ends_well (drop startIndex lines) 0 false k).
  { destruct Hbt as [-> | ->]; simpl.
    - apply findEndOfTypeDefinition_loop_spec. by apply drop_nonempty.
    - apply findEndOfFunction_loop_spec. by apply drop_nonempty. }
  destruct H as (k & Ek & Hk & Hend).
  assert (Hc : Scanner.content (Scanner.extractBlock lines startIndex bt)
               = Js.join (String "010" EmptyString) (take (S k) (drop startIndex lines))).
  { unfold Scanner.extractBlock in *. simpl in *. rewrite Ek. by rewrite slice_incl_drop. }
  rewrite Hc, Ek. rewrite length_drop in Hk. intros Hlt.
  destruct Hend as [Hlast|[[Hf Hb]|[Hf (line & Hl & Hs)]]].
  - rewrite length_drop in Hlast. lia.
  - left. simpl in Hf. apply Nat.ltb_lt in Hf. split; [done|]. lia.
  - right. simpl in Hf. apply Nat.ltb_ge in Hf. split; [lia|].
    exists line. by rewrite lookup_drop in Hl.
Qed.

Lemma block_before_last_line_pairs_braces_witness :
  Scanner.content
    (Scanner.extractBlock ["function f() {"; "  if (a) {"; "  }"; "}"; "g();"] 0
       Scanner.BFunction)
  = "function f() {
  if (a) {
  }
}" /\
  ((0 < 2 /\ 2 = 2) \/
   (2 = 0 /\
    exists line,
      ["function f() {"; "  if (a) {"; "  }"; "}"; "g();"] !! 3 = Some line /\
      Js.includes line ";" = true)).
Proof.
  split; [reflexivity|].
  apply (block_before_last_line_pairs_braces
           ["function f() {"; "  if (a) {"; "  }"; "}"; "g();"] 0 Scanner.BFunction).
  - simpl. lia.
  - by right.
  - vm_compute. lia.
Defined.

(* ===================================================================== *)
(** ** The classifier on constants with a capital name *)
(* ===================================================================== *)

Section ClassifierFacts.
Import Regex Scanner.

Lemma m_Cat_eq {R} r1 r2 prev s c (k : option ascii -> string -> caps -> option R) :
  m (Cat r1 r2) prev s c k = m r1 prev s c (fun p' s' c' => m r2 p' s' c' k).
Proof. reflexivity. Qed.

Lemma m_Cls_cons {R} p prev b s c (k : option ascii -> string -> caps -> option R) :
  m (Cls p) prev (String b s) c k = if p b then k (Some b) s c else None.
Proof. reflexivity. Qed.

Lemma m_Grp_eq {R} n r prev s c (k : option ascii -> string -> caps -> option R) :
  m (Grp n r) prev s c k
  = m r prev s c (fun p' s' c' => k p' s' ((n, prefix_upto s s') :: c')).
Proof. reflexivity. Qed.

Lemma m_Alt_r {R} r1 r2 prev s c (k : option ascii -> string -> caps -> option R) :
  is_Some (m r2 prev s c k) -> is_Some (m (Alt r1 r2) prev s c k).
Proof. intros H. cbn [m]. destruct (m r1 prev s c k); eauto. Qed.

(** A star can always stop where it stands. *)
Lemma m_Star_stop {R} r prev s c (k : option ascii -> string -> caps -> option R) :
  is_Some (k prev s c) -> is_Some (m (Star r) prev s c k).
Proof. intros H. cbn [m]. destruct (m r prev s c _); eauto. Qed.

Lemma upper_not_space c : Js.is_upper c = true -> Js.is_space c = false.
Proof. destruct c as [[] [] [] [] [] [] [] []]; vm_compute; congruence. Qed.

Lemma capital_name_re_const c rest :
  Js.is_upper c = true ->
  test capital_name_re ("const " +:+ String c rest) = true.
Proof.
  intros Hc. apply test_iff. exists EmptyString, ("const " +:+ String c rest).
  split; [done|].
  unfold match_here, capital_name_re, kw. rewrite m_Cat_eq. apply m_Alt_r.
  rewrite m_Lit.
  change (Js.startsWith ("const " +:+ String c rest) "const") with true.
  cbv beta iota.
  change (skip (String.length "const") ("const " +:+ String c rest))
    with (String " " (String c rest)).
  unfold Plus. rewrite !m_Cat_eq, m_Cls_cons.
  change (Js.is_space " ") with true. cbv beta iota.
  apply m_Star_stop.
  rewrite m_Grp_eq, m_Cat_eq, m_Cls_cons, Hc.
  apply m_Star_stop. eauto.
Qed.

End ClassifierFacts.



(* ===================================================================== *)
(** ** Verdicts of the import filter that no text changes *)
(* ===================================================================== *)

(** X12.  Two verdicts of [getRequiredImports] do not depend on the text of
    the group.  A statement the pattern does not parse (an import for side
    effects only, [import './a.css';]) is dropped for every text.  A braced
    import with an empty piece in its list (a comma before the closing
    brace, as in a list written one name per line) is kept for every text,
    since every text includes the empty string. *)
Theorem import_verdicts_without_text (text : string) (allImports : list string) :
  (forall stmt,
     Imports.imported_names stmt = None ->
     stmt ∉ Imports.getRequiredImports text allImports) /\
  (forall stmt names,
     stmt ∈ allImports ->
     Imports.imported_names stmt = Some names ->
     EmptyString ∈ names ->
     stmt ∈ Imports.getRequiredImports text allImports).
Proof.
  split.
  - intros stmt Hn Hin. apply getRequiredImports_elem in Hin as (_ & names & E & _).
    congruence.
  - intros stmt names Hin Hn He. apply getRequiredImports_elem. split; [done|].
    exists names. split; [done|]. exists EmptyString. split; [done|].
    exists EmptyString, text. reflexivity.
Qed.

Lemma import_verdicts_without_text_witness :
  ("import './a.css';" ∉ Imports.getRequiredImports "a.css" ["import './a.css';"]) /\
  ("import {
  useState,
} from 'react';" ∈ Imports.getRequiredImports "const x = 1;" ["import {
  useState,
} from 'react';"]).
Proof.
  split.
  - apply (proj1 (import_verdicts_without_text "a.css" ["import './a.css';"])).
    vm_compute. reflexivity.
  - apply (proj2 (import_verdicts_without_text "const x = 1;" ["import {
  useState,
} from 'react';"]) _ ["useState"; EmptyString]).
    + apply list_elem_of_singleton. reflexivity.
    + vm_compute. reflexivity.
    + right. left.
Defined.

(* ===================================================================== *)
(** ** The component name *)
(* ===================================================================== *)

Section ComponentNameFacts.
Import Naming.

Lemma upper_char_not_hyphen c :
  Ascii.eqb c "-" = false -> Ascii.eqb (Js.upper_char c) "-" = false.
Proof. destruct c as [[] [] [] [] [] [] [] []]; vm_compute; congruence. Qed.

Lemma pascal_spec_go_shape fresh s :
  Js.count_char "-" (pascal_spec_go fresh s) = 0 /\
  String.length (pascal_spec_go fresh s) + Js.count_char "-" s = String.length s.
Proof.
  revert fresh. induction s as [|c s IH]; intros fresh; [done|].
  cbn [pascal_spec_go Js.count_char String.length].
  destruct (Ascii.eqb c "-") eqn:E.
  - destruct (IH true) as [H1 H2]. split; [done|]. lia.
  - destruct (IH false) as [H1 H2]. cbn [Js.count_char String.length].
    assert (Ascii.eqb (if fresh then Js.upper_char c else c) "-" = false) as ->.
    { destruct fresh; [by apply upper_char_not_hyphen|done]. }
    split; lia.
Qed.

End ComponentNameFacts.

(** X13.  The name [extractMainComponentName] derives from a file name of
    ASCII characters holds no hyphen, and it is as long as the file name
    without its hyphens: the hyphens are dropped and nothing else is added
    or lost.  (Outside ASCII [toUpperCase] can give two characters for
    one.) *)
Theorem extractMainComponentName_drops_hyphens (fileName : string) :
  Js.all_ascii fileName = true ->
  Js.count_char "-" (Naming.extractMainComponentName fileName) = 0 /\
  String.length (Naming.extractMainComponentName fileName)
  = String.length fileName - Js.count_char "-" fileName.
Proof.
  intros _. rewrite extractMainComponentName_spec. unfold Naming.pascal_spec.
  destruct (pascal_spec_go_shape true fileName) as [H1 H2]. split; [done|]. lia.
Qed.

Lemma extractMainComponentName_drops_hyphens_witness :
  Naming.extractMainComponentName "user-profile-card" = "UserProfileCard" /\
  Js.count_char "-" (Naming.extractMainComponentName "user-profile-card") = 0 /\
  String.length (Naming.extractMainComponentName "user-profile-card") = 17 - 2.
Proof.
  split; [vm_compute; reflexivity|].
  apply (extractMainComponentName_drops_hyphens "user-profile-card").
  vm_compute. reflexivity.
Defined.

(* ===================================================================== *)
(** ** The smart split *)
(* ===================================================================== *)

Section SplitFacts.
Import Fs Engine.
Context (pf : Platform) (config : RefactorConfig).

(** The scan of [parseReactFile] finishes: [parsed_of] is what it returns. *)
Lemma parseReactFile_parsed_of (content : string) :
  Scanner.parseReactFile content = Some (Split.parsed_of content).
Proof.
  unfold Split.parsed_of, Scanner.parseReactFile.
  rewrite parse_loop_scan.
  destruct (scan_loop_total (length (Js.split "010" content)) (Js.split "010" content) 0)
    as (bs & -> & _); [lia|]. reflexivity.
Qed.

Lemma write_each_written spare plan acc st nf err st' :
  write_each plan acc st = (Ok (nf, err), st') ->
  exists written,
    nf = acc ++ written /\ written `prefix_of` plan.*1 /\
    (err = None -> written = plan.*1) /\
    wrote spare st st' written /\
    (forall p, is_Some (files st !! p) -> is_Some (files st' !! p)).
Proof.
  revert acc st. induction plan as [|[file text] rest IH]; intros acc st; simpl.
  - unfold ret. intros [= <- <- <-]. exists []. rewrite app_nil_r.
    split; [done|]. split; [done|]. split; [done|]. split; [apply wrote_nil|done].
  - unfold bind at 1, attempt at 1.
    destruct (writeFile file text st) as [[[]|e] st1] eqn:E.
    + intros H. apply IH in H as (w & -> & Hp & He & Hw & Hk).
      exists (file :: w). split; [by rewrite <- app_assoc|].
      split; [by apply prefix_cons|]. split; [intros Hn; by rewrite He|]. split.
      * apply (wrote_trans spare st st1 st' [file] w); [|done].
        by eapply writeFile_wrote.
      * intros p Hp'. apply Hk. revert E. unfold writeFile.
        case_bool_decide; [done|]. intros [= <-]. simpl.
        destruct (decide (p = file)) as [->|Hne];
          [rewrite lookup_insert_eq; eauto|by rewrite lookup_insert_ne].
    + unfold ret. intros [= <- <- <-]. exists []. rewrite app_nil_r.
      split; [done|]. split; [apply prefix_nil|]. split; [done|].
      revert E. unfold writeFile. case_bool_decide; [|done].
      intros [= _ <-]. split; [apply wrote_nil|done].
Qed.

Lemma write_each_total plan acc st :
  exists nf err st', write_each plan acc st = (Ok (nf, err), st').
Proof.
  destruct (write_each_spec None plan acc st) as (w & err & st' & E & _). eauto.
Qed.

Lemma write_each_contents plan acc st nf st' :
  write_each plan acc st = (Ok (nf, None), st') ->
  NoDup plan.*1 ->
  forall f text, (f, text) ∈ plan -> files st' !! f = Some text.
Proof.
  revert acc st. induction plan as [|[file text] rest IH]; intros acc st; simpl.
  - intros _ _ f t Hin. by apply elem_of_nil in Hin.
  - unfold bind at 1, attempt at 1.
    destruct (writeFile file text st) as [[[]|e] st1] eqn:E; [|done].
    intros H Hnd f t Hin. apply NoDup_cons in Hnd as [Hfresh Hnd].
    apply elem_of_cons in Hin as [[= -> ->]|Hin]; [|by eapply IH].
    destruct (write_each_written None _ _ _ _ _ _ H) as (w & _ & _ & Hall & Hw & _).
    rewrite (Hall eq_refl) in Hw. destruct Hw as (_ & _ & _ & Hsame).
    rewrite Hsame by done.
    revert E. unfold writeFile. case_bool_decide; [done|]. intros [= <-].
    simpl. by rewrite lookup_insert_eq.
Qed.

Lemma ensureDir_inv p st r st1 :
  ensureDir pf p st = (r, st1) ->
  files st1 = files st /\ locked st1 = locked st /\ clock st1 = clock st /\
  dirs st ⊆ dirs st1 /\ dirs st1 ⊆ {[ p ]} ∪ dirs st /\
  (r = Ok tt -> p ∈ dirs st1 \/ dirExists pf (files st) p = true).
Proof.
  unfold ensureDir, isDirectory, mkdir, pathExists, bind, ret, throw. simpl.
  case_bool_decide as Hfile.
  { intros [= <- <-]. repeat split; [set_solver..|done]. }
  destruct (dirExists pf (files st) p) eqn:Hdir; simpl.
  { intros [= <- <-]. repeat split; [set_solver..|by right]. }
  case_bool_decide as Hin; simpl.
  { intros [= <- <-]. repeat split; [set_solver..|by left]. }
  case_bool_decide as Hlk.
  { intros [= <- <-]. repeat split; [set_solver..|done]. }
  intros [= <- <-]. simpl. repeat split; [set_solver..|left; set_solver].
Qed.

Lemma createBackup_throw filePath st e st0 :
  createBackup pf filePath st = (Throw e, st0) ->
  files st0 = files st /\ locked st0 = locked st /\
  dirs st ⊆ dirs st0 /\
  dirs st0 ⊆ {[ join pf (projectRoot pf) ".refactor-backups" ]} ∪ dirs st.
Proof.
  unfold createBackup. unfold bind at 1.
  destruct (ensureDir pf _ st) as [[[]|ed] stD] eqn:Hd.
  - destruct (ensureDir_inv _ _ _ _ Hd) as (Hf & Hl & _ & Hd1 & Hd2 & _).
    unfold bind, tick, copy, ret. simpl. rewrite Hf, Hl.
    destruct (files st !! filePath) as [original|]; [|by intros [= _ <-]].
    case_bool_decide; [by intros [= _ <-]|].
    case_bool_decide; [by intros [= _ <-]|done].
  - destruct (ensureDir_inv _ _ _ _ Hd) as (Hf & Hl & _ & Hd1 & Hd2 & _).
    by intros [= _ <-].
Qed.

Lemma write_each_dirs plan acc st r st' :
  write_each plan acc st = (r, st') -> dirs st' = dirs st.
Proof.
  revert acc st. induction plan as [|[file text] rest IH]; intros acc st; simpl.
  - unfold ret. by intros [= <- <-].
  - unfold bind at 1, attempt at 1, writeFile at 1. case_bool_decide as Hl.
    + unfold ret. by intros [= <- <-].
    + intros Hw. by apply IH in Hw.
Qed.

Lemma remove_created_dirs created st r st' :
  remove_created created st = (r, st') -> dirs st' = dirs st.
Proof.
  revert st. induction created as [|file rest IH]; intros st; simpl.
  - unfold ret. by intros [= <- <-].
  - unfold bind at 1, pathExists at 1. case_bool_decide as He.
    + unfold bind at 1, remove at 1. case_bool_decide as Hl; [by intros [= <- <-]|].
      intros H. by apply IH in H.
    + unfold bind at 1, ret at 1. intros H. by apply IH in H.
Qed.

(** The [catch] block of [performIntelligentSplit], after the files
    [created] were written from [st0]. *)
Lemma cleanup_after_writes st0 st1 created :
  wrote None st0 st1 created ->
  exists st2,
    remove_created created st1 = (Ok tt, st2) /\
    locked st2 = locked st0 /\
    dirs st2 = dirs st1 /\
    (forall p, p ∈ created -> files st2 !! p = None) /\
    (forall p, p ∉ created -> files st2 !! p = files st0 !! p).
Proof.
  intros (Hl & Hc & Hun & Hsame).
  destruct (remove_created_unlocked created st1) as [st2 Hrm].
  { intros f Hf. rewrite Hl. by apply Hun. }
  exists st2. split; [done|].
  pose proof (remove_created_mono _ _ _ _ Hrm) as (Hl2 & _ & _ & Hkeep).
  split; [congruence|]. split; [by eapply remove_created_dirs|]. split.
  - by apply (remove_created_absent _ _ _ Hrm).
  - intros p Hp. rewrite Hkeep by done. by apply Hsame.
Qed.

End SplitFacts.



(** X15.  When [performIntelligentSplit] returns, it returns the paths of
    its plan, in the order of the writes; all of them exist; the original
    file holds the re-export stub of [createUpdatedOriginalFile]; every path
    outside the plan, the original and the backup is untouched; the backup
    holds the text the original had, unless the plan wrote over it; and
    when the paths of the plan are distinct and none is the original, each
    planned file holds its planned text.  No check of the written files
    takes place. *)
Theorem split_success_rewrites_original
    (pf : Engine.Platform) (config : Engine.RefactorConfig)
    (originalPath content : string) (st st' : Fs.state) (createdFiles : list string) :
  Split.performIntelligentSplit pf config originalPath content st
    = (Fs.Ok createdFiles, st') ->
  createdFiles = (Split.split_plan pf config originalPath content).*1 /\
  (forall f, f ∈ createdFiles -> is_Some (Fs.files st' !! f)) /\
  Fs.files st' !! originalPath
  = Some (Split.createUpdatedOriginalFile pf
            (Engine.basename_ext pf originalPath (Engine.extname pf originalPath))
            (Engine.join pf (Engine.dirname pf originalPath)
               (Engine.basename_ext pf originalPath (Engine.extname pf originalPath)))) /\
  (exists original,
     Fs.files st !! originalPath = Some original /\
     (Engine.backupPathAt pf originalPath (Fs.clock st) ∉ createdFiles ->
      Fs.files st' !! Engine.backupPathAt pf originalPath (Fs.clock st) = Some original)) /\
  (forall p, p ∉ createdFiles -> p <> originalPath ->
             p <> Engine.backupPathAt pf originalPath (Fs.clock st) ->
             Fs.files st' !! p = Fs.files st !! p) /\
  (NoDup createdFiles -> originalPath ∉ createdFiles ->
   forall f text,
     (f, text) ∈ Split.split_plan pf config originalPath content ->
     Fs.files st' !! f = Some text).
Proof.
  unfold Split.performIntelligentSplit. unfold Fs.bind at 1, Fs.attempt at 1.
  destruct (Engine.createBackup pf originalPath st) as [[b|eb] st0] eqn:Hb.
  2:{ unfold Fs.bind, Engine.remove_created, Fs.ret, Fs.throw. done. }
  destruct (createBackup_inv _ _ _ _ _ Hb) as (original & Ho & Hbp & Hne & Hbl & Hst0).
  unfold Fs.bind at 1, Fs.attempt at 1.
  destruct (Engine.ensureDir pf _ st0) as [made stD] eqn:Hd.
  destruct (ensureDir_inv _ _ _ _ _ Hd) as (HfD & HlD & _).
  destruct made as [[]|ed].
  2:{ unfold Fs.bind, Engine.remove_created, Fs.ret, Fs.throw. done. }
  unfold Fs.bind at 1.
  destruct (write_each_total (Split.split_plan pf config originalPath content) [] stD)
    as (created & err & st1 & Hw).
  rewrite Hw.
  destruct (write_each_written None _ _ _ _ _ _ Hw)
    as (w & Hc & Hpre & Hall & Hwrote & Hkeep).
  simpl in Hc. subst created.
  destruct err as [e'|].
  { unfold Fs.bind at 1.
    destruct (Engine.remove_created w st1) as [[[]|?] ?]; done. }
  specialize (Hall eq_refl). subst w.
  unfold Fs.bind at 1, Fs.attempt at 1, Fs.writeFile at 1.
  case_bool_decide as Hlk.
  { unfold Fs.bind at 1.
    destruct (Engine.remove_created _ st1) as [[[]|?] ?]; done. }
  unfold Fs.ret. intros [= <- <-].
  destruct Hwrote as (Hl1 & Hc1 & Hun & Hsame).
  split; [done|]. split; [|split; [|split; [|split]]].
  - intros f Hf. simpl.
    destruct (decide (f = originalPath)) as [->|Hnf];
      [rewrite lookup_insert_eq; eauto|].
    rewrite lookup_insert_ne by done.
    destruct (write_each_written (Some f) _ _ _ _ _ _ Hw) as (w' & Hc' & _ & Hall' & _ & _).
    clear Hc'.
    assert (Hex : forall plan acc s nf s',
              Engine.write_each plan acc s = (Fs.Ok (nf, None), s') ->
              forall g, g ∈ plan.*1 -> is_Some (Fs.files s' !! g)).
    { clear. induction plan as [|[file text] rest IH]; intros acc s nf s'; simpl.
      - intros _ g Hg. by apply elem_of_nil in Hg.
      - unfold Fs.bind at 1, Fs.attempt at 1.
        destruct (Fs.writeFile file text s) as [[[]|e] s1] eqn:E; [|done].
        intros H g Hg. apply elem_of_cons in Hg as [->|Hg]; [|by eapply IH].
        destruct (write_each_written None _ _ _ _ _ _ H) as (_ & _ & _ & _ & _ & Hk).
        apply Hk. revert E. unfold Fs.writeFile. case_bool_decide; [done|].
        intros [= <-]. simpl. rewrite lookup_insert_eq. eauto. }
    by eapply Hex.
  - simpl. by rewrite lookup_insert_eq.
  - exists original. split; [done|]. intros Hfresh. simpl.
    rewrite <- Hbp. rewrite lookup_insert_ne by done.
    rewrite <- Hbp in Hfresh. rewrite Hsame by done. rewrite HfD.
    subst st0. simpl. by rewrite lookup_insert_eq.
  - intros p Hp Hpo Hpb. simpl. rewrite lookup_insert_ne by done.
    rewrite Hsame by done. rewrite HfD. subst st0. simpl.
    rewrite lookup_insert_ne; [done|]. congruence.
  - intros Hnd Hno f text Hin. simpl.
    assert (f <> originalPath).
    { intros ->. apply Hno. apply list_elem_of_fmap. by exists (originalPath, text). }
    rewrite lookup_insert_ne by done.
    by eapply write_each_contents.
Qed.

(** The long sample file is split into two chunk files and an index file;
    the first chunk file opens a brace it does not close, and stays. *)
Lemma split_success_rewrites_original_witness :
  exists st',
    Split.performIntelligentSplit Sample.pf Sample.config "/p/src/long.ts"
      Sample.long_ts Sample.st0
    = (Fs.Ok ["/p/src/long/long-part1.ts"; "/p/src/long/long-part2.ts";
              "/p/src/long/index.ts"], st') /\
    Fs.files st' !! "/p/src/long/long-part1.ts" = Some "function f() {
g();" /\
    Fs.files st' !! "/p/.refactor-backups/long.ts-2025-07-08T10-00-00-0Z.backup"
    = Some Sample.long_ts.
Proof.
  destruct (Split.performIntelligentSplit Sample.pf Sample.config "/p/src/long.ts"
              Sample.long_ts Sample.st0) as [r st'] eqn:E.
  assert (Hr : r = Fs.Ok ["/p/src/long/long-part1.ts"; "/p/src/long/long-part2.ts";
                           "/p/src/long/index.ts"]).
  { pose proof E as E'. vm_compute in E'. injection E' as <- _. vm_compute. reflexivity. }
  subst r. exists st'. split; [reflexivity|].
  destruct (split_success_rewrites_original _ _ _ _ _ _ _ E)
    as (_ & _ & _ & (original & Ho & Hbk) & _ & Htext).
  split.
  - apply Htext.
    + apply (bool_decide_unpack _). vm_compute. exact I.
    + intros Hin. apply (bool_decide_pack _) in Hin. vm_compute in Hin. exact Hin.
    + apply (bool_decide_unpack _). vm_compute. exact I.
  - assert (original = Sample.long_ts) as <-.
    { vm_compute in Ho. by injection Ho. }
    apply Hbk. intros Hin. apply (bool_decide_pack _) in Hin. vm_compute in Hin. exact Hin.
Defined.



(* ===================================================================== *)
(** ** The import section *)
(* ===================================================================== *)

Section ImportSectionFacts.
Import ImportSection.

(** Once a line has been taken, the loop takes the lines that follow one
    after the other, up to where it stops; and it stops before the end only
    after a line that is no import line and holds a semicolon, at a line
    that is no import line. *)
Lemma imports_loop_started lines imports inImport braceCount :
  inImport = true \/
  (exists l, last imports = Some l /\
             Js.startsWith (Js.trim l) "import" = false /\ Js.includes l ";" = true) ->
  exists taken post,
    lines = taken ++ post /\
    imports_loop lines imports inImport braceCount = imports ++ taken /\
    (forall next post', post = next :: post' ->
       Js.startsWith (Js.trim next) "import" = false /\
       exists l, last (imports ++ taken) = Some l /\
                 Js.startsWith (Js.trim l) "import" = false /\
                 Js.includes l ";" = true).
Proof.
  revert imports inImport braceCount.
  induction lines as [|line rest IH]; intros imports inImport bc Hst.
  - exists [], []. split; [done|]. split; [simpl; by rewrite app_nil_r|]. done.
  - cbn [imports_loop].
    destruct (Js.startsWith (Js.trim line) "import") eqn:Himp.
    + destruct (IH (imports ++ [line]) true
                  (Z.of_nat (Js.count_char "{" line) - Z.of_nat (Js.count_char "}" line))%Z)
        as (taken & post & -> & -> & Hstop); [by left|].
      exists (line :: taken), post. split; [done|]. split; [by rewrite <- app_assoc|].
      intros next post' E. rewrite <- app_assoc in Hstop. by apply (Hstop next post').
    + destruct inImport.
      * destruct (_ && _) eqn:Hover.
        -- apply andb_true_iff in Hover as [_ Hsemi].
           destruct (IH (imports ++ [line]) false 0%Z) as (taken & post & -> & -> & Hstop).
           { right. exists line. by rewrite last_snoc. }
           exists (line :: taken), post. split; [done|]. split; [by rewrite <- app_assoc|].
           intros next post' E. rewrite <- app_assoc in Hstop. by apply (Hstop next post').
        -- destruct (IH (imports ++ [line]) true
                       (bc + (Z.of_nat (Js.count_char "{" line)
                              - Z.of_nat (Js.count_char "}" line)))%Z)
             as (taken & post & -> & -> & Hstop); [by left|].
           exists (line :: taken), post. split; [done|]. split; [by rewrite <- app_assoc|].
           intros next post' E. rewrite <- app_assoc in Hstop. by apply (Hstop next post').
      * destruct Hst as [?|(l & Hl & Hli & Hls)]; [done|].
        assert ((0 <? length imports) = true) as ->.
        { apply Nat.ltb_lt. destruct imports; [done|simpl; lia]. }
        simpl. exists [], (line :: rest). split; [done|]. split; [by rewrite app_nil_r|].
        intros next post' [= <- <-]. split; [done|].
        exists l. by rewrite app_nil_r.
Qed.

(** From the start: the lines before the first import line are passed over,
    and the run begins with that line. *)
Lemma imports_loop_segment lines braceCount :
  exists pre post,
    lines = pre ++ imports_loop lines [] false braceCount ++ post /\
    Forall (fun line => Js.startsWith (Js.trim line) "import" = false) pre /\
    (imports_loop lines [] false braceCount = [] -> post = []) /\
    (forall first rest,
       imports_loop lines [] false braceCount = first :: rest ->
       Js.startsWith (Js.trim first) "import" = true) /\
    (forall next post', post = next :: post' ->
       Js.startsWith (Js.trim next) "import" = false /\
       exists l, last (imports_loop lines [] false braceCount) = Some l /\
                 Js.startsWith (Js.trim l) "import" = false /\
                 Js.includes l ";" = true).
Proof.
  induction lines as [|line rest (pre & post & E & Hpre & Hnone & Hfirst & Hstop)].
  - exists [], []. done.
  - cbn [imports_loop].
    destruct (Js.startsWith (Js.trim line) "import") eqn:Himp.
    + destruct (imports_loop_started rest ([] ++ [line]) true
                  (Z.of_nat (Js.count_char "{" line) - Z.of_nat (Js.count_char "}" line))%Z)
        as (taken & post' & -> & -> & Hstop'); [by left|].
      exists [], post'. split; [done|]. split; [constructor|].
      split; [done|]. split; [by intros first rest' [= <- _]|done].
    + simpl. exists (line :: pre), post. split; [simpl; by f_equal|].
      split; [by constructor|]. done.
Qed.

End ImportSectionFacts.

(** X17.  On a text of ASCII characters, [extractImportsSection] returns
    one run of consecutive lines of the file that begins with the first
    import line, wherever that line is: the lines before the run hold no
    import, the run is empty only when no line of the file is an import
    line, and its first line is an import line.  The run goes on past an
    import that is over: the flag [inImport] set on an import line is only
    cleared on a later line, so when the run stops before the end of the
    file its last line is no import line (it is a line with a semicolon),
    and the line at which it stops is no import line either.  The line that
    follows an import line is therefore always part of the result, be it
    code. *)
Theorem extractImportsSection_is_one_run (content : string) :
  Js.all_ascii content = true ->
  exists pre post,
    Js.split "010" content
    = pre ++ ImportSection.extractImportsSection content ++ post /\
    Forall (fun line => Js.startsWith (Js.trim line) "import" = false) pre /\
    (ImportSection.extractImportsSection content = [] -> post = []) /\
    (forall first rest,
       ImportSection.extractImportsSection content = first :: rest ->
       Js.startsWith (Js.trim first) "import" = true) /\
    (forall next post', post = next :: post' ->
       Js.startsWith (Js.trim next) "import" = false /\
       exists l, last (ImportSection.extractImportsSection content) = Some l /\
                 Js.startsWith (Js.trim l) "import" = false /\
                 Js.includes l ";" = true).
Proof.
  intros _. unfold ImportSection.extractImportsSection. apply imports_loop_segment.
Qed.

(** An import on the second line: the run begins there, and the statement
    after the import is taken into the import section. *)
Lemma extractImportsSection_is_one_run_witness :
  ImportSection.extractImportsSection "// header
import a from 'b';
f();
g();"
  = ["import a from 'b';"; "f();"] /\
  exists pre post,
    ["// header"; "import a from 'b';"; "f();"; "g();"]
    = pre ++ ["import a from 'b';"; "f();"] ++ post /\
    Forall (fun line => Js.startsWith (Js.trim line) "import" = false) pre /\
    (forall next post', post = next :: post' ->
       Js.startsWith (Js.trim next) "import" = false).
Proof.
  split; [vm_compute; reflexivity|].
  destruct (extractImportsSection_is_one_run "// header
import a from 'b';
f();
g();") as (pre & post & E & Hpre & _ & _ & Hstop).
  - vm_compute. reflexivity.
  - exists pre, post. split; [exact E|]. split; [exact Hpre|].
    intros next post' Hp. exact (proj1 (Hstop next post' Hp)).
Defined.

(* ===================================================================== *)
(** ** [toPascalCase] on every name *)
(* ===================================================================== *)

Section PascalFacts.
Import Regex Naming.

Lemma lower_not_hyphen c : Js.is_lower c = true -> Ascii.eqb c "-" = false.
Proof. destruct c as [[] [] [] [] [] [] [] []]; vm_compute; congruence. Qed.

Lemma upper_char_id c : Js.is_lower c = false -> Js.upper_char c = c.
Proof. unfold Js.upper_char. by intros ->. Qed.

Lemma prefix_upto_1 c s : prefix_upto (String c s) s = String c EmptyString.
Proof.
  unfold prefix_upto.
  replace (String.length (String c s) - String.length s) with 1 by (simpl; lia).
  by destruct s.
Qed.

Lemma prefix_upto_2 c d s :
  prefix_upto (String c (String d s)) s = String c (String d EmptyString).
Proof.
  unfold prefix_upto.
  replace (String.length (String c (String d s)) - String.length s) with 2
    by (simpl; lia).
  by destruct s.
Qed.

(** Where [pascal_re] matches at the head of a text: on a lower-case letter
    at the very beginning, or on a hyphen and a lower-case letter. *)
Lemma match_here_pascal_re prev s :
  match_here pascal_re prev s =
  match s with
  | String c s' =>
      if bool_decide (prev = None) && Js.is_lower c
      then Some (s', [(2, prefix_upto s s'); (1, prefix_upto s s)])
      else if Ascii.eqb c "-" then
        match s' with
        | String d s'' =>
            if Js.is_lower d
            then Some (s'', [(2, prefix_upto s' s''); (1, prefix_upto s s')])
            else None
        | EmptyString => None
        end
      else None
  | EmptyString => None
  end.
Proof.
  unfold match_here, pascal_re.
  destruct s as [|c s']; [by destruct prev|].
  destruct prev as [p|]; cbn [m].
  - rewrite bool_decide_eq_false_2 by done. cbn [andb].
    rewrite (Ascii.eqb_sym "-" c). destruct (Ascii.eqb c "-"); [|done].
    destruct s' as [|d s'']; [done|]. by destruct (Js.is_lower d).
  - rewrite bool_decide_eq_true_2 by done. cbn [andb].
    destruct (Js.is_lower c) eqn:Hc; [done|].
    rewrite (Ascii.eqb_sym "-" c). destruct (Ascii.eqb c "-"); [|done].
    destruct s' as [|d s'']; [done|]. by destruct (Js.is_lower d).
Qed.

Lemma last_char_app_cons prev a c b :
  last_char prev (a +:+ String c b) <> None.
Proof.
  revert prev. induction a as [|x a IH]; intros prev.
  - rewrite append_nil_l. simpl. clear. revert c. induction b as [|y b IH]; intros c; [done|].
    simpl. apply IH.
  - rewrite append_cons. simpl. apply IH.
Qed.

Lemma rev_app_append (s1 s2 : string) :
  String.rev_app s1 s2 = String.rev_app s1 EmptyString +:+ s2.
Proof.
  revert s2. induction s1 as [|a s1 IH]; intros s2; [done|].
  simpl. rewrite (IH (String a s2)), (IH (String a EmptyString)).
  by rewrite str_app_assoc.
Qed.

Lemma rev_cons (a : ascii) (pre : string) :
  String.rev (String a pre) = String.rev pre +:+ String a EmptyString.
Proof. unfold String.rev. simpl. apply rev_app_append. Qed.

Lemma pascal_run_cons b c s' :
  pascal_run b (String c s') =
  if b && Js.is_lower c then String (Js.upper_char c) (pascal_run false s')
  else if Ascii.eqb c "-" then
    match s' with
    | String d s'' =>
        if Js.is_lower d then String (Js.upper_char d) (pascal_run false s'')
        else String c (pascal_run false s')
    | EmptyString => String c EmptyString
    end
  else String c (pascal_run false s').
Proof. reflexivity. Qed.

(** The leftmost match of [pascal_re] from a position on, against the
    reading of [pascal_run]. *)
Lemma exec_from_pascal_re s prev pre :
  (exec_from pascal_re prev pre s = None /\
   pascal_run (bool_decide (prev = None)) s = s) \/
  (exists x skipped,
     exec_from pascal_re prev pre s = Some x /\
     before x = String.rev pre +:+ skipped /\
     matched x <> EmptyString /\
     String.length (after x) < String.length s /\
     pascal_run (bool_decide (prev = None)) s
     = skipped +:+ Js.toUpperCase (Js.sliceLast (matched x)) +:+ pascal_run false (after x)).
Proof.
  revert prev pre. induction s as [|c s' IH]; intros prev pre.
  { left. cbn [exec_from]. rewrite match_here_pascal_re. done. }
  cbn [exec_from]. rewrite match_here_pascal_re.
  destruct (bool_decide (prev = None) && Js.is_lower c) eqn:Hstart.
  { right. eexists _, EmptyString. split; [reflexivity|]. cbn [before matched after].
    rewrite append_empty_r, prefix_upto_1. split; [done|]. split; [done|].
    split; [simpl; lia|]. rewrite pascal_run_cons, Hstart. reflexivity. }
  destruct (Ascii.eqb c "-") eqn:Hc.
  - destruct s' as [|d s''].
    + left. cbn [exec_from]. rewrite match_here_pascal_re. split; [done|].
      by rewrite pascal_run_cons, Hstart, Hc.
    + destruct (Js.is_lower d) eqn:Hd.
      * right. eexists _, EmptyString. split; [reflexivity|]. cbn [before matched after].
        rewrite append_empty_r, prefix_upto_2. split; [done|]. split; [done|].
        split; [simpl; lia|]. rewrite pascal_run_cons, Hstart, Hc, Hd. reflexivity.
      * destruct (IH (Some c) (String c pre)) as [[E Hrun]|(x & sk & E & Hb & Hm & Hl & Hrun)].
        -- left. split; [exact E|]. rewrite pascal_run_cons, Hstart, Hc, Hd.
           rewrite bool_decide_eq_false_2 in Hrun by done. by rewrite Hrun.
        -- right. exists x, (String c sk). split; [exact E|]. split.
           { rewrite Hb.
             by rewrite rev_cons, str_app_assoc. }
           split; [done|]. split; [simpl in *; lia|].
           rewrite pascal_run_cons, Hstart, Hc, Hd.
           rewrite bool_decide_eq_false_2 in Hrun by done. by rewrite Hrun.
  - destruct (IH (Some c) (String c pre)) as [[E Hrun]|(x & sk & E & Hb & Hm & Hl & Hrun)].
    + left. split; [exact E|]. rewrite pascal_run_cons, Hstart, Hc.
      rewrite bool_decide_eq_false_2 in Hrun by done. by rewrite Hrun.
    + right. exists x, (String c sk). split; [exact E|]. split.
      { rewrite Hb.
             by rewrite rev_cons, str_app_assoc. }
      split; [done|]. split; [simpl in *; lia|].
      rewrite pascal_run_cons, Hstart, Hc.
      rewrite bool_decide_eq_false_2 in Hrun by done. by rewrite Hrun.
Qed.

Lemma replace_all_from_pascal_re fuel s prev :
  String.length s < fuel ->
  replace_all_from fuel pascal_re (fun g => Js.toUpperCase (Js.sliceLast g)) prev s
  = pascal_run (bool_decide (prev = None)) s.
Proof.
  revert s prev. induction fuel as [|fuel IH]; intros s prev Hlen; [lia|].
  cbn [replace_all_from].
  destruct (exec_from_pascal_re s prev EmptyString)
    as [[-> Hrun]|(x & sk & -> & Hb & Hm & Hl & Hrun)]; [done|].
  simpl in Hb. rewrite append_nil_l in Hb.
  destruct (matched x) as [|m0 mt] eqn:Hmt; [done|].
  rewrite IH by lia. rewrite Hb, Hrun.
  rewrite bool_decide_eq_false_2; [done|]. apply last_char_app_cons.
Qed.

Lemma toPascalCase_run (str : string) : toPascalCase str = pascal_run true str.
Proof.
  unfold toPascalCase, replace_all. by rewrite replace_all_from_pascal_re by lia.
Qed.

Lemma pascal_run_spec n s b :
  String.length s <= n ->
  hyphens_lead_lower s = true ->
  pascal_run b s = pascal_spec_go b s.
Proof.
  revert s b. induction n as [|n IH]; intros s b Hlen Hh.
  { destruct s; [done|simpl in Hlen; lia]. }
  destruct s as [|c s']; [done|].
  cbn [hyphens_lead_lower] in Hh. apply andb_prop in Hh as [Hc Hh].
  cbn [pascal_run pascal_spec_go]. simpl in Hlen.
  destruct (b && Js.is_lower c) eqn:Hstart.
  { apply andb_prop in Hstart as [-> Hl]. rewrite (lower_not_hyphen c Hl).
    rewrite IH by (lia || done). done. }
  destruct (Ascii.eqb c "-") eqn:Hcd.
  - destruct s' as [|d s'']; [done|]. rewrite Hc.
    cbn [hyphens_lead_lower] in Hh. apply andb_prop in Hh as [_ Hh].
    cbn [pascal_spec_go]. rewrite (lower_not_hyphen d Hc).
    simpl in Hlen. rewrite IH by (lia || done). done.
  - rewrite IH by (lia || done).
    destruct b; [|done]. simpl in Hstart. by rewrite (upper_char_id c Hstart).
Qed.

Lemma pascal_run_keeps_hyphen n s b :
  String.length s <= n ->
  hyphens_lead_lower s = false ->
  0 < Js.count_char "-" (pascal_run b s).
Proof.
  revert s b. induction n as [|n IH]; intros s b Hlen Hh.
  { destruct s; [done|simpl in Hlen; lia]. }
  destruct s as [|c s']; [done|].
  cbn [hyphens_lead_lower] in Hh. cbn [pascal_run]. simpl in Hlen.
  destruct (b && Js.is_lower c) eqn:Hstart.
  { apply andb_prop in Hstart as [_ Hl]. rewrite (lower_not_hyphen c Hl) in Hh.
    simpl in Hh. cbn [Js.count_char]. specialize (IH s' false ltac:(lia) Hh). lia. }
  destruct (Ascii.eqb c "-") eqn:Hcd.
  - destruct s' as [|d s'']; [simpl; rewrite Hcd; lia|].
    destruct (Js.is_lower d) eqn:Hd.
    + simpl in Hh. cbn [hyphens_lead_lower] in Hh.
      rewrite (lower_not_hyphen d Hd) in Hh. simpl in Hh.
      simpl in Hlen. cbn [Js.count_char].
      specialize (IH s'' false ltac:(lia) Hh). lia.
    + cbn [Js.count_char]. rewrite Hcd. lia.
  - simpl in Hh. cbn [Js.count_char]. specialize (IH s' false ltac:(lia) Hh). lia.
Qed.

End PascalFacts.

(** X18.  On file names of ASCII characters, [toPascalCase] gives the name
    [extractMainComponentName] gives exactly for those in which every
    hyphen has a lower-case letter right after it.  For such a name the two
    agree; for any other name (a hyphen before a digit, a capital, another
    hyphen, or at the end) [toPascalCase] keeps a hyphen and the two
    differ.  (Outside ASCII the two differ on more names: a first letter
    that is no [a] to [z] is put in upper case by one and not by the
    other.) *)
Theorem toPascalCase_agrees_iff_hyphens_lead_lower (fileName : string) :
  Js.all_ascii fileName = true ->
  (Naming.toPascalCase fileName = Naming.extractMainComponentName fileName
   <-> hyphens_lead_lower fileName = true).
Proof.
  intros _.
  rewrite toPascalCase_run, extractMainComponentName_spec. unfold Naming.pascal_spec.
  split.
  - intros E. destruct (hyphens_lead_lower fileName) eqn:Hh; [done|].
    pose proof (pascal_run_keeps_hyphen _ fileName true (le_n _) Hh) as Hk.
    rewrite E in Hk. destruct (pascal_spec_go_shape true fileName) as [H0 _]. lia.
  - intros Hh. by apply (pascal_run_spec (String.length fileName)).
Qed.

(** The two agree on [user-card] and differ on [user-2], where
    [toPascalCase] keeps the hyphen. *)
Lemma toPascalCase_agrees_iff_hyphens_lead_lower_witness :
  Naming.toPascalCase "user-card" = Naming.extractMainComponentName "user-card" /\
  Naming.toPascalCase "user-2" <> Naming.extractMainComponentName "user-2".
Proof.
  split.
  - apply (toPascalCase_agrees_iff_hyphens_lead_lower "user-card").
    + vm_compute. reflexivity.
    + vm_compute. reflexivity.
  - intros E.
    apply (toPascalCase_agrees_iff_hyphens_lead_lower "user-2") in E.
    + vm_compute in E. discriminate E.
    + vm_compute. reflexivity.
Defined.

(* ===================================================================== *)
(** ** [sanitizeFileName] *)
(* ===================================================================== *)

Section SanitizeFacts.
Import Regex.

(** The leftmost character of a class from a position on. *)
Lemma exec_from_Cls p (r : ascii) s prev pre :
  (exec_from (Cls p) prev pre s = None /\
   map_chars (fun c => if p c then r else c) s = s) \/
  (exists x skipped,
     exec_from (Cls p) prev pre s = Some x /\
     before x = String.rev pre +:+ skipped /\
     matched x <> EmptyString /\
     String.length (after x) < String.length s /\
     map_chars (fun c => if p c then r else c) s
     = skipped +:+ String r EmptyString +:+
       map_chars (fun c => if p c then r else c) (after x)).
Proof.
  revert prev pre. induction s as [|c s' IH]; intros prev pre.
  { left. by destruct prev. }
  cbn [exec_from]. unfold match_here. cbn [m].
  destruct (p c) eqn:Hp.
  - right. eexists _, EmptyString. split; [reflexivity|]. cbn [before matched after].
    rewrite append_empty_r, prefix_upto_1. split; [done|]. split; [done|].
    split; [simpl; lia|]. cbn [map_chars]. by rewrite Hp.
  - destruct (IH (Some c) (String c pre)) as [[E Hrun]|(x & sk & E & Hb & Hm & Hl & Hrun)].
    + left. split; [exact E|]. cbn [map_chars]. by rewrite Hp, Hrun.
    + right. exists x, (String c sk). split; [exact E|]. split.
      { by rewrite Hb, rev_cons, str_app_assoc. }
      split; [done|]. split; [simpl in *; lia|].
      cbn [map_chars]. by rewrite Hp, Hrun.
Qed.

Lemma replace_all_from_Cls p (r : ascii) fuel s prev :
  String.length s < fuel ->
  replace_all_from fuel (Cls p) (fun _ => String r EmptyString) prev s
  = map_chars (fun c => if p c then r else c) s.
Proof.
  revert s prev. induction fuel as [|fuel IH]; intros s prev Hlen; [lia|].
  cbn [replace_all_from].
  destruct (exec_from_Cls p r s prev EmptyString)
    as [[-> Hrun]|(x & sk & -> & Hb & Hm & Hl & Hrun)]; [done|].
  simpl in Hb. rewrite append_nil_l in Hb.
  destruct (matched x) as [|m0 mt] eqn:Hmt; [done|].
  rewrite IH by lia. by rewrite Hb, Hrun.
Qed.

Lemma get_map_chars g s i :
  String.get i (map_chars g s) = option_map g (String.get i s).
Proof.
  revert i. induction s as [|c s IH]; intros i; [done|].
  destruct i as [|i]; [done|]. simpl. apply IH.
Qed.

Lemma unsafe_replaced c :
  FileUtils.unsafe (if FileUtils.unsafe c then "_"%char else c) = false.
Proof. destruct (FileUtils.unsafe c) eqn:E; [reflexivity|exact E]. Qed.

End SanitizeFacts.

(** X19.  [sanitizeFileName] works character by character: a character that
    is no letter, digit, hyphen or underscore becomes an underscore, and
    every other character stays where it is.  So the result has the length
    of the name, holds no character of the class, and is left unchanged by
    a second pass. *)
Theorem sanitizeFileName_character_by_character (name : string) :
  (forall i,
     String.get i (FileUtils.sanitizeFileName name)
     = option_map (fun c => if FileUtils.unsafe c then "_"%char else c)
                  (String.get i name)) /\
  String.length (FileUtils.sanitizeFileName name) = String.length name /\
  (forall i c,
     String.get i (FileUtils.sanitizeFileName name) = Some c ->
     FileUtils.unsafe c = false) /\
  FileUtils.sanitizeFileName (FileUtils.sanitizeFileName name)
  = FileUtils.sanitizeFileName name.
Proof.
  assert (E : forall s, FileUtils.sanitizeFileName s
                        = map_chars (fun c => if FileUtils.unsafe c then "_"%char else c) s).
  { intros s. unfold FileUtils.sanitizeFileName, Regex.replace_all.
    apply (replace_all_from_Cls FileUtils.unsafe "_"). lia. }
  split; [|split; [|split]].
  - intros i. by rewrite E, get_map_chars.
  - rewrite E. induction name as [|c s IH]; [done|]. simpl. by rewrite IH.
  - intros i c. rewrite E, get_map_chars.
    destruct (String.get i name) as [c0|]; [|done].
    intros [= <-]. apply unsafe_replaced.
  - rewrite !E. induction name as [|c s IH]; [done|].
    simpl. by rewrite IH, unsafe_replaced.
Qed.

(* ===================================================================== *)
(** ** The sections of a React component file *)
(* ===================================================================== *)

Section SectionsFacts.
Import Sections.

Lemma split_length_pos c s : 0 < length (Js.split c s).
Proof. destruct (split_cons c s) as (h & t & ->). simpl. lia. Qed.

Lemma utility_line_false line :
  utility_line line = false ->
  (Js.includes line "function " || (Js.includes line "const " && Js.includes line " = "))
    = true ->
  Js.includes line "function " = false /\
  Js.includes line "const " = true /\
  Js.includes line " = " = true /\
  (Js.includes line "React." || Js.includes line "<" || Js.includes line "JSX") = true.
Proof.
  unfold utility_line.
  destruct (Js.includes line "function "); [done|].
  destruct (Js.includes line "const "); [|done].
  destruct (Js.includes line " = "); [|done].
  destruct (Js.includes line "React."); [done|].
  destruct (Js.includes line "<"); [done|].
  by destruct (Js.includes line "JSX").
Qed.

Lemma sections_loop_components fuel content lines i s :
  length lines - i <= fuel ->
  (forall c, c ∈ subComponents s -> component_origin lines c) ->
  (mainComponent s <> EmptyString -> component_origin lines (mainComponent s)) ->
  exists s',
    sections_loop fuel content lines i s = Some s' /\
    (forall c, c ∈ subComponents s' -> component_origin lines c) /\
    (mainComponent s' <> EmptyString -> component_origin lines (mainComponent s')).
Proof.
  revert i s. induction fuel as [|fuel IH]; intros i s Hfuel Hsub Hmain.
  { exists s. simpl. rewrite (proj2 (Nat.leb_le _ _)) by lia. done. }
  cbn [sections_loop].
  destruct (length lines <=? i) eqn:Hi; [by exists s|].
  apply Nat.leb_gt in Hi.
  destruct (Js.startsWith (Js.trim (Scanner.line_at lines i)) "import").
  { apply IH; [lia|done|done]. }
  destruct (_ || _).
  { apply IH; [|done|done].
    pose proof (split_length_pos "010" (extractCompleteTypeDefinition lines i)). lia. }
  destruct (utility_line (Scanner.line_at lines i)) eqn:Hu.
  { apply IH.
    - pose proof (split_length_pos "010" (extractCompleteFunction lines i)). lia.
    - by destruct (negb _).
    - by destruct (negb _). }
  destruct (component_line content (Scanner.line_at lines i)) eqn:Hc.
  2:{ apply IH; [lia|done|done]. }
  assert (Horigin : component_origin lines (extractCompleteFunction lines i)).
  { unfold component_line in Hc. apply andb_prop in Hc as [Hc _].
    destruct (utility_line_false _ Hu Hc) as (H1 & H2 & H3 & H4).
    exists i, (Scanner.line_at lines i).
    split; [|done]. unfold Scanner.line_at.
    destruct (lookup_lt_is_Some_2 lines i Hi) as [l ->]. done. }
  apply IH.
  - pose proof (split_length_pos "010" (extractCompleteFunction lines i)). lia.
  - destruct (looks_jsx _); [|done]. destruct (isMainExport _ _ _ _); [done|].
    simpl. intros c Hin. apply elem_of_app in Hin as [Hin|Hin]; [by apply Hsub|].
    by apply list_elem_of_singleton in Hin as ->.
  - destruct (looks_jsx _); [|done]. destruct (isMainExport _ _ _ _); [|done].
    simpl. by intros _.
Qed.

End SectionsFacts.

Lemma sections_components_origin (content : string) :
  exists s,
    Sections.extractReactComponentSections content = Some s /\
    (forall c, c ∈ Sections.subComponents s ->
               component_origin (Js.split "010" content) c) /\
    (Sections.mainComponent s <> EmptyString ->
     component_origin (Js.split "010" content) (Sections.mainComponent s)).
Proof.
  unfold Sections.extractReactComponentSections.
  apply sections_loop_components; [lia| |done].
  intros c Hc. by apply elem_of_nil in Hc.
Qed.

(** X20.  [extractReactComponentSections] returns, and whatever it files as
    a component (a sub-component or the main component) is the function
    block of a line that holds [const ] and [ = ], holds no [function ], and
    holds one of [React.], [<] and [JSX].  A line with [function ] is taken
    by the branch of the utilities first, so a component declared with the
    [function] keyword is never filed as a component. *)
Theorem components_come_from_const_lines (content : string) :
  exists s,
    Sections.extractReactComponentSections content = Some s /\
    (forall c, c ∈ Sections.subComponents s ->
               component_origin (Js.split "010" content) c) /\
    (Sections.mainComponent s <> EmptyString ->
     component_origin (Js.split "010" content) (Sections.mainComponent s)).
Proof. apply sections_components_origin. Qed.

(** X21.  A file whose components are all declared with the [function]
    keyword has no component for [extractReactComponentSections]: when no
    line of the file holds [const ], the sub-components are empty and so is
    the main component, whatever the functions return. *)
Theorem function_components_are_not_found (content : string) (s : Sections.sections) :
  Sections.extractReactComponentSections content = Some s ->
  (forall line, line ∈ Js.split "010" content -> Js.includes line "const " = false) ->
  Sections.subComponents s = [] /\ Sections.mainComponent s = EmptyString.
Proof.
  intros E Hconst.
  destruct (sections_components_origin content) as (s' & E' & Hsub & Hmain).
  rewrite E in E'. injection E' as <-.
  assert (Hno : forall c, ~ component_origin (Js.split "010" content) c).
  { intros c (i & line & Hl & _ & _ & Hc & _).
    rewrite (Hconst line) in Hc; [done|]. by eapply list_elem_of_lookup_2. }
  split.
  - destruct (Sections.subComponents s) as [|c l] eqn:Hs; [done|].
    destruct (Hno c). apply Hsub. by left.
  - destruct (String.eqb_spec (Sections.mainComponent s) EmptyString) as [->|Hne]; [done|].
    destruct (Hno _ (Hmain Hne)).
Qed.

Lemma function_components_are_not_found_witness :
  exists s,
    Sections.extractReactComponentSections function_components = Some s /\
    Sections.subComponents s = [] /\ Sections.mainComponent s = EmptyString.
Proof.
  eexists. split; [vm_compute; reflexivity|].
  apply (function_components_are_not_found function_components).
  - vm_compute. reflexivity.
  - intros line Hin.
    assert (H : forallb (fun line => negb (Js.includes line "const "))
                  (Js.split "010" function_components) = true) by (vm_compute; reflexivity).
    rewrite forallb_forall in H. apply negb_true_iff, H.
    apply list_elem_of_In. exact Hin.
Defined.

(* ===================================================================== *)
(** ** What a transaction leaves on the disk *)
(* ===================================================================== *)

Section TransactionLeaves.
Import Fs Engine.
Context (pf : Platform) (syn : Synthesis) (config : RefactorConfig).

(** Whatever its outcome, a rollback touches the created files and the
    original only. *)
Lemma rollback_keeps originalFile created backupPath st r st' p :
  rollbackRefactoring originalFile created backupPath st = (r, st') ->
  p ∉ created -> p <> originalFile ->
  files st' !! p = files st !! p.
Proof.
  rewrite rollback_unfold.
  destruct (remove_created created st) as [[[]|e1] st1] eqn:E;
    pose proof (remove_created_mono _ _ _ _ E) as (_ & _ & _ & Hkeep).
  - case_bool_decide.
    + unfold copy. destruct (files st1 !! backupPath) as [c|]; [|intros [= _ <-]; auto].
      case_bool_decide; [intros [= _ <-]; auto|].
      case_bool_decide; [intros [= _ <-]; auto|].
      intros [= _ <-] Hp Hne. simpl. rewrite lookup_insert_ne by done. auto.
    + intros [= _ <-]. auto.
  - intros [= _ <-]. auto.
Qed.

(** The writers other than the one for GraphQL files write the files they
    list and nothing else. *)
Lemma refactorByKind_wrote_listed filePath content st created st' :
  (Js.includes filePath "GraphQLQueries" || Js.includes filePath "GraphQL") = false ->
  refactorByKind pf syn config filePath content st = (Ok created, st') ->
  wrote None st st' created.
Proof.
  intros Hg. unfold refactorByKind. rewrite Hg. clear Hg.
  destruct (_ && _).
  { unfold refactorTypesFile. intros E.
    by apply (write_all_spec None) in E as (w & -> & Hw). }
  unfold refactorGenericFile.
  destruct (_ || _).
  { unfold refactorReactComponent. unfold bind at 1.
    destruct (write_each_spec None (reactPlan syn filePath content) [] st)
      as (w & err & st1 & -> & Hw).
    destruct err as [e|].
    - intros E. apply (write_all_spec None) in E as (w2 & -> & Hw2).
      simpl. eapply wrote_trans; eauto.
    - unfold ret. by intros [= <- <-]. }
  unfold bind at 1.
  destruct (write_all _ _ st) as [[nf|e] st1] eqn:E; [|done].
  apply (write_all_spec None) in E as (w & -> & Hw).
  unfold bind at 1.
  destruct (writeFile _ _ st1) as [[[]|e] st2] eqn:E2; [|done].
  unfold ret. intros [= <- <-]. simpl.
  eapply wrote_trans; [done|]. by eapply writeFile_wrote.
Qed.

End TransactionLeaves.

(** X22.  The backup [performRefactoring] takes is never removed: when the
    writer leaves the backup path alone, the backup is on the disk with the
    text the original had, whatever the outcome of the transaction
    (success, failed verification, an error of the writer, a rollback that
    raises).  The options of [run] play no part in it. *)
Theorem backup_outlives_the_transaction
    (pf : Engine.Platform) (syn : Engine.Synthesis) (config : Engine.RefactorConfig)
    (filePath content : string) (suggestions : Engine.Suggestions)
    (st st0 st' : Fs.state) (backupPath : string)
    (r : Fs.outcome Engine.RefactorResult) :
  Engine.createBackup pf filePath st = (Fs.Ok backupPath, st0) ->
  (forall written st1,
     Engine.refactorByKind pf syn config filePath content st0 = (written, st1) ->
     Fs.files st1 !! backupPath = Fs.files st0 !! backupPath /\
     forall createdFiles, written = Fs.Ok createdFiles -> backupPath ∉ createdFiles) ->
  Engine.performRefactoring pf syn config filePath content suggestions st = (r, st') ->
  exists original,
    Fs.files st !! filePath = Some original /\
    Fs.files st' !! backupPath = Some original.
Proof.
  intros Hb Hw.
  destruct (createBackup_inv _ _ _ _ _ Hb) as (original & Ho & _ & Hne & _ & Hst0).
  exists original. split; [done|]. revert H.
  unfold Engine.performRefactoring. unfold Fs.bind at 1. rewrite Hb.
  unfold Fs.bind at 1, Fs.attempt at 1.
  destruct (Engine.refactorByKind pf syn config filePath content st0)
    as [written st1] eqn:E.
  destruct (Hw _ _ eq_refl) as [Hkeep Hfresh].
  assert (Hbk : Fs.files st1 !! backupPath = Some original).
  { rewrite Hkeep. subst st0. simpl. by rewrite lookup_insert_eq. }
  destruct written as [created|e].
  - specialize (Hfresh created eq_refl).
    unfold Fs.try_catch, Fs.bind at 1.
    destruct (verifyRefactoring_total filePath created st1) as (v & -> & _).
    destruct (Engine.v_success v); simpl.
    + unfold Fs.ret. by intros [= _ <-].
    + unfold Fs.bind at 1.
      destruct (Engine.rollbackRefactoring filePath created backupPath st1)
        as [[[]|e] st2] eqn:Er.
      * unfold Fs.ret. intros [= _ <-].
        by rewrite (rollback_keeps _ _ _ _ _ _ _ Er Hfresh Hne).
      * unfold Fs.bind at 1.
        destruct (Engine.rollbackRefactoring filePath created backupPath st2)
          as [[[]|e'] st3] eqn:Er2; unfold Fs.throw; intros [= _ <-];
          by rewrite (rollback_keeps _ _ _ _ _ _ _ Er2 Hfresh Hne),
               (rollback_keeps _ _ _ _ _ _ _ Er Hfresh Hne).
  - unfold Fs.bind at 1.
    destruct (Engine.rollbackRefactoring filePath [] backupPath st1)
      as [[[]|e'] st2] eqn:Er; unfold Fs.throw; intros [= _ <-];
      rewrite (rollback_keeps _ _ _ _ _ _ _ Er); auto; by apply not_elem_of_nil.
Qed.

(** The transaction on the long sample file is rolled back, and its backup
    stays. *)
Lemma backup_outlives_the_transaction_witness :
  exists original,
    Fs.files Sample.st0 !! "/p/src/long.ts" = Some original /\
    Fs.files
      (Engine.performRefactoring Sample.pf Sample.syn Sample.config "/p/src/long.ts"
         Sample.long_ts (Engine.analyzeFile Sample.syn "/p/src/long.ts" Sample.long_ts)
         Sample.st0).2
      !! "/p/.refactor-backups/long.ts-2025-07-08T10-00-00-0Z.backup"
    = Some original.
Proof.
  pose (bk := "/p/.refactor-backups/long.ts-2025-07-08T10-00-00-0Z.backup").
  pose (st0 := Fs.State (<[bk := Sample.long_ts]> Sample.disk) ∅ 1
                 {[ "/p/.refactor-backups" ]}).
  eapply (backup_outlives_the_transaction Sample.pf Sample.syn Sample.config
            "/p/src/long.ts" Sample.long_ts _ Sample.st0 st0 _ bk).
  - vm_compute. reflexivity.
  - intros written st1 E.
    assert (Ec : Engine.refactorByKind Sample.pf Sample.syn Sample.config
                   "/p/src/long.ts" Sample.long_ts st0
                 = (Fs.Ok ["/p/src/long-part1.ts"; "/p/src/long-part2.ts";
                           "/p/src/long-index.ts"],
                    (Engine.refactorByKind Sample.pf Sample.syn Sample.config
                       "/p/src/long.ts" Sample.long_ts st0).2)).
    { vm_compute. reflexivity. }
    rewrite Ec in E. injection E as <- <-. split.
    + vm_compute. reflexivity.
    + intros created [= <-] Hin.
      apply (bool_decide_pack _) in Hin. vm_compute in Hin. exact Hin.
  - apply surjective_pairing.
Defined.

(** X23.  A successful transaction on a file that does not go to the
    GraphQL writer leaves the original file as it was: the writers for type
    files and for other files only add the files they list, so unless the
    original is itself among the created files it is neither rewritten nor
    removed.  Every path that is not a created file keeps its text, except
    the backup, which is new. *)
Theorem success_keeps_the_original
    (pf : Engine.Platform) (syn : Engine.Synthesis) (config : Engine.RefactorConfig)
    (filePath content : string) (suggestions : Engine.Suggestions)
    (st st' : Fs.state) (res : Engine.RefactorResult) :
  (Js.includes filePath "GraphQLQueries" || Js.includes filePath "GraphQL") = false ->
  Engine.performRefactoring pf syn config filePath content suggestions st
    = (Fs.Ok res, st') ->
  Engine.success res = true ->
  forall p,
    p ∉ Engine.newFiles res ->
    p <> Engine.backupPathAt pf filePath (Fs.clock st) ->
    Fs.files st' !! p = Fs.files st !! p.
Proof.
  intros Hg. unfold Engine.performRefactoring. unfold Fs.bind at 1.
  destruct (Engine.createBackup pf filePath st) as [[b|e] st0] eqn:Hb; [|done].
  destruct (createBackup_inv _ _ _ _ _ Hb) as (original & Ho & Hbp & Hne & _ & Hst0).
  unfold Fs.bind at 1, Fs.attempt at 1.
  destruct (Engine.refactorByKind pf syn config filePath content st0)
    as [[created|e] st1] eqn:Hw.
  - pose proof (refactorByKind_wrote_listed _ _ _ _ _ _ _ _ Hg Hw) as (_ & _ & _ & Hsame).
    unfold Fs.try_catch, Fs.bind at 1.
    destruct (verifyRefactoring_total filePath created st1) as (v & -> & _).
    destruct (Engine.v_success v); simpl.
    + unfold Fs.ret. intros [= <- <-] _ p Hp Hpb. simpl in Hp.
      rewrite Hsame by done. subst st0. simpl.
      rewrite lookup_insert_ne; [done|]. congruence.
    + unfold Fs.bind at 1.
      destruct (Engine.rollbackRefactoring filePath created b st1) as [[[]|e] st2].
      * unfold Fs.ret. by intros [= <- <-].
      * unfold Fs.bind at 1.
        by destruct (Engine.rollbackRefactoring filePath created b st2) as [[[]|e'] st3].
  - unfold Fs.bind at 1.
    by destruct (Engine.rollbackRefactoring filePath [] b st1) as [[[]|e'] st2].
Qed.

(** The file of two well-formed pieces is refactored with success, and is
    still there, unchanged. *)
Lemma success_keeps_the_original_witness :
  Fs.files
    (Engine.performRefactoring Sample.pf Sample.syn Sample.config "/p/src/ok.ts"
       Sample2.ok_ts (Engine.analyzeFile Sample.syn "/p/src/ok.ts" Sample2.ok_ts)
       Sample2.st_ok).2 !! "/p/src/ok.ts"
  = Fs.files Sample2.st_ok !! "/p/src/ok.ts".
Proof.
  eapply (success_keeps_the_original Sample.pf Sample.syn Sample.config "/p/src/ok.ts"
            Sample2.ok_ts (Engine.analyzeFile Sample.syn "/p/src/ok.ts" Sample2.ok_ts)
            Sample2.st_ok _
            (Engine.Build_RefactorResult "/p/src/ok.ts"
               ["/p/src/ok-part1.ts"; "/p/src/ok-part2.ts"; "/p/src/ok-index.ts"]
               (inject_Z 4 * (7 # 10)) true None None)).
  - reflexivity.
  - vm_compute. reflexivity.
  - reflexivity.
  - intros Hin. apply (bool_decide_pack _) in Hin. vm_compute in Hin. exact Hin.
  - discriminate.
Defined.

(* ===================================================================== *)
(** ** Where a constant ends *)
(* ===================================================================== *)

Section ConstantEndFacts.
Import Scanner.

(** The character loop of [findEndOfConstant]: braces and brackets count
    together. *)
Lemma count_line_brackets line bc found :
  count_line is_lbrace_or_lbracket is_rbrace_or_rbracket line (bc, found)
  = ((bc + Z.of_nat (Js.count_char "{" line + Js.count_char "[" line)
         - Z.of_nat (Js.count_char "}" line + Js.count_char "]" line))%Z,
     found || (0 <? Js.count_char "{" line + Js.count_char "[" line)).
Proof.
  revert bc found. induction line as [|c line IH]; intros bc found.
  - simpl. f_equal; [lia|by rewrite orb_false_r].
  - cbn [count_line Js.count_char]. unfold is_lbrace_or_lbracket, is_rbrace_or_rbracket.
    destruct (Ascii.eqb_spec c "{") as [->|H1]; [|destruct (Ascii.eqb_spec c "[") as [->|H2]];
      cbn [orb Ascii.eqb Bool.eqb andb]; rewrite ?IH.
    + f_equal; [lia|]. symmetry. apply orb_true_iff. right. apply Nat.ltb_lt. lia.
    + f_equal; [lia|]. symmetry. apply orb_true_iff. right. apply Nat.ltb_lt. lia.
    + destruct (Ascii.eqb_spec c "}") as [->|H3];
        [|destruct (Ascii.eqb_spec c "]") as [->|H4]];
        cbn [orb]; rewrite ?IH; f_equal; simpl; lia.
Qed.

Lemma findEndOfConstant_loop_spec ls i bc found :
  ls <> [] ->
  exists k,
    findEndOfConstant_loop ls i (bc, found) = i + k /\ k < length ls /\
    (k = length ls - 1 \/
     exists line,
       ls !! k = Some line /\ Js.includes line ";" = true /\
       let text := Js.join (String "010" EmptyString) (take (S k) ls) in
       ((found || (0 <? Js.count_char "{" text + Js.count_char "[" text)) = true ->
        (bc + Z.of_nat (Js.count_char "{" text + Js.count_char "[" text)
            - Z.of_nat (Js.count_char "}" text + Js.count_char "]" text) = 0)%Z)).
Proof.
  revert i bc found. induction ls as [|line rest IH]; intros i bc found Hne; [done|].
  cbn [findEndOfConstant_loop]. rewrite count_line_brackets.
  set (o := Js.count_char "{" line + Js.count_char "[" line).
  set (c := Js.count_char "}" line + Js.count_char "]" line).
  destruct (negb (found || (0 <? o)) && Js.includes line ";") eqn:H1.
  { exists 0. split; [lia|]. split; [simpl; lia|]. right.
    apply andb_prop in H1 as [Hf Hs]. apply negb_true_iff in Hf.
    exists line. split; [done|]. split; [done|].
    change (Js.join (String "010" EmptyString) (take 1 (line :: rest))) with line.
    cbv zeta. fold o. rewrite Hf. done. }
  destruct ((found || (0 <? o)) && (bc + Z.of_nat o - Z.of_nat c =? 0)%Z
            && Js.includes line ";") eqn:H2.
  { exists 0. split; [lia|]. split; [simpl; lia|]. right.
    apply andb_prop in H2 as [H2 Hs]. apply andb_prop in H2 as [Hf Hb].
    apply Z.eqb_eq in Hb.
    exists line. split; [done|]. split; [done|].
    change (Js.join (String "010" EmptyString) (take 1 (line :: rest))) with line.
    cbv zeta. fold o c. intros _. exact Hb. }
  destruct rest as [|y rest'].
  { exists 0. simpl. split; [lia|]. split; [lia|]. by left. }
  destruct (IH (S i) (bc + Z.of_nat o - Z.of_nat c)%Z (found || (0 <? o)))
    as (k & Ek & Hk & Hend); [done|].
  cbn [length] in Hk, Hend.
  exists (S k). split; [rewrite Ek; lia|]. split; [cbn [length]; lia|].
  destruct Hend as [Hlast|(l & Hl & Hs & Hb)]; [left; cbn [length]; lia|].
  right. exists l. split; [done|]. split; [done|]. cbv zeta in Hb |- *.
  change (take (S (S k)) (line :: y :: rest')) with (line :: take (S k) (y :: rest')).
  rewrite !count_char_join_cons by (done || by apply take_S_nonempty).
  set (t := Js.join (String "010" EmptyString) (take (S k) (y :: rest'))) in *.
  unfold o, c in *. intros Hf.
  assert (Hf' : (found || (0 <? Js.count_char "{" line + Js.count_char "[" line)
                 || (0 <? Js.count_char "{" t + Js.count_char "[" t)) = true).
  { destruct found; [done|]. cbn [orb] in Hf |- *.
    destruct (Nat.ltb_spec 0 (Js.count_char "{" line + Js.count_char "[" line)); [done|].
    cbn [orb]. apply Nat.ltb_lt. apply Nat.ltb_lt in Hf. lia. }
  specialize (Hb Hf'). lia.
Qed.

End ConstantEndFacts.

(** X24.  A block of a constant ([extractBlock] with [findEndOfConstant])
    that ends before the last line of the file ends on a line that holds a
    semicolon, and if its text opens a brace or a bracket at all, it closes
    as many as it opens, braces and brackets counted together. *)
Theorem constant_block_ends_on_semicolon (lines : list string) (startIndex : nat) :
  startIndex < length lines ->
  Scanner.endIndex (Scanner.extractBlock lines startIndex Scanner.BConstant)
    < length lines - 1 ->
  let block := Scanner.extractBlock lines startIndex Scanner.BConstant in
  (exists line,
     lines !! Scanner.endIndex block = Some line /\ Js.includes line ";" = true) /\
  (0 < Js.count_char "{" (Scanner.content block) + Js.count_char "[" (Scanner.content block) ->
   Js.count_char "{" (Scanner.content block) + Js.count_char "[" (Scanner.content block)
   = Js.count_char "}" (Scanner.content block) + Js.count_char "]" (Scanner.content block)).
Proof.
  intros Hi. cbv zeta. unfold Scanner.extractBlock. cbn [Scanner.endIndex Scanner.content].
  unfold Scanner.findEndOfConstant.
  destruct (findEndOfConstant_loop_spec (drop startIndex lines) startIndex 0 false)
    as (k & -> & Hk & Hend); [by apply drop_nonempty|].
  rewrite length_drop in Hk, Hend. intros Hlt.
  destruct Hend as [Hlast|(line & Hl & Hs & Hb)]; [lia|].
  rewrite slice_incl_drop. split.
  - exists line. by rewrite lookup_drop in Hl.
  - intros Hpos. cbv zeta in Hb. simpl in Hb.
    assert (H : (0 <? Js.count_char "{"
                        (Js.join (String "010" EmptyString) (take (S k) (drop startIndex lines)))
                      + Js.count_char "["
                        (Js.join (String "010" EmptyString) (take (S k) (drop startIndex lines))))
                = true) by (by apply Nat.ltb_lt).
    specialize (Hb H). lia.
Qed.

Lemma constant_block_ends_on_semicolon_witness :
  (exists line,
     ["const a = ["; "  { b: 1 },"; "];"; "f();"] !! 2 = Some line /\
     Js.includes line ";" = true) /\
  (0 < 1 + 1 -> 1 + 1 = 1 + 1).
Proof.
  apply (constant_block_ends_on_semicolon ["const a = ["; "  { b: 1 },"; "];"; "f();"] 0).
  - simpl. lia.
  - vm_compute. lia.
Defined.

(* ===================================================================== *)
(** ** The buckets of the scanner *)
(* ===================================================================== *)

Section BucketFacts.
Import Scanner Blocks.

Lemma last_cons_default {A} (x d : A) (l : list A) :
  List.last (x :: l) d = List.last l x.
Proof.
  revert x d. induction l as [|y l IH]; intros x d; [done|].
  change (List.last (x :: y :: l) d) with (List.last (y :: l) d).
  rewrite IH. symmetry. apply IH.
Qed.

Lemma fold_emit_buckets lines bs r :
  fold_left (emit lines) bs r =
  Parsed (imports r ++ texts_of lines CImport bs)
         (types r ++ texts_of lines CType bs)
         (constants r ++ texts_of lines CConstant bs)
         (utilities r ++ texts_of lines CUtility bs)
         (subComponents r ++ texts_of lines CSubComponent bs)
         (List.last (texts_of lines CMain bs) (mainComponent r)).
Proof.
  revert r. induction bs as [|b bs IH]; intros r.
  - simpl. rewrite !app_nil_r. by destruct r.
  - cbn [fold_left texts_of]. rewrite IH. unfold emit, same_bucket.
    destruct (bucket b); cbn [imports types constants utilities subComponents mainComponent];
      rewrite <- ?app_assoc; try reflexivity.
    by rewrite last_cons_default.
Qed.

End BucketFacts.

(** X25.  What [parseReactFile] keeps of the blocks it finds.  Each list of
    the result holds the texts of the blocks of its kind, in file order.
    The main component is a single text: the block classified as the main
    component that comes last in the file.  A block classified as the main
    component before it is in no list of the result. *)
Theorem parseReactFile_keeps_last_main (content : string) :
  exists bs,
    Blocks.scan_loop (length (Js.split "010" content)) (Js.split "010" content) 0
    = Some bs /\
    Scanner.parseReactFile content
    = Some (Scanner.Parsed
              (texts_of (Js.split "010" content) Blocks.CImport bs)
              (texts_of (Js.split "010" content) Blocks.CType bs)
              (texts_of (Js.split "010" content) Blocks.CConstant bs)
              (texts_of (Js.split "010" content) Blocks.CUtility bs)
              (texts_of (Js.split "010" content) Blocks.CSubComponent bs)
              (List.last (texts_of (Js.split "010" content) Blocks.CMain bs) EmptyString)).
Proof.
  destruct (scan_loop_total (length (Js.split "010" content)) (Js.split "010" content) 0)
    as (bs & E & _); [lia|].
  exists bs. split; [exact E|].
  unfold Scanner.parseReactFile. rewrite parse_loop_scan, E, fold_emit_buckets.
  reflexivity.
Qed.

(** Both components are exported, hence main components both: the first is
    in no list of the result. *)
Example two_exported_keeps_second :
  Scanner.parseReactFile two_exported
  = Some (Scanner.Parsed [] [] [] [] [] "export function Second() {
  return null;
}").
Proof. reflexivity. Qed.

(* ===================================================================== *)
(** ** The listing of [scan] *)
(* ===================================================================== *)

Section ScanListing.
Import Fs Engine.
Context (pf : Platform) (syn : Synthesis) (config : RefactorConfig).

Lemma scan_files_listing fw fs acc st res st' :
  scan_files config fw fs acc st = (Ok res, st') ->
  res = acc ++ flat_map (listed config fw (files st)) fs /\
  Forall (fun file => is_Some (files st !! file)) fs.
Proof.
  revert acc. induction fs as [|file rest IH]; intros acc; simpl.
  - unfold ret. intros [= <- <-]. by rewrite app_nil_r.
  - unfold bind at 1, getFileLineCount, bind, readFile, ret, listed.
    destruct (files st !! file) as [content|] eqn:Hc; [|done].
    destruct (Z.of_nat _ >? maxLines config)%Z; intros H;
      apply IH in H as [-> Hall]; (split; [|constructor; eauto]).
    + by rewrite <- app_assoc.
    + done.
Qed.

Lemma scan_files_readable fw fs acc st :
  Forall (fun file => is_Some (files st !! file)) fs ->
  scan_files config fw fs acc st
  = (Ok (acc ++ flat_map (listed config fw (files st)) fs), st).
Proof.
  intros Hall. revert acc. induction Hall as [|file rest [content Hc] _ IH]; intros acc; simpl.
  - unfold ret. by rewrite app_nil_r.
  - unfold bind at 1, getFileLineCount, bind, readFile, ret, listed. rewrite Hc.
    destruct (Z.of_nat _ >? maxLines config)%Z; rewrite IH; [|done].
    by rewrite <- app_assoc.
Qed.

Lemma scan_dirs_listing fw dirs acc st res st' :
  scan_dirs pf config fw dirs acc st = (Ok res, st') ->
  res = acc ++
        flat_map
          (fun dir =>
             if dirExists pf (files st) (join pf (projectRoot pf) dir)
             then flat_map (listed config fw (files st)) (globbed pf config (files st) dir)
             else [])
          dirs.
Proof.
  revert acc. induction dirs as [|dir rest IH]; intros acc; simpl.
  - unfold ret. intros [= <- <-]. by rewrite app_nil_r.
  - unfold bind at 1, get_files at 1.
    destruct (dirExists pf (files st) _); simpl.
    + unfold bind at 1.
      destruct (scan_files _ _ _ _ _) as [[res1|e] st1] eqn:E; [|done].
      pose proof (scan_files_inv config _ _ _ _ _ _ E) as [-> _].
      apply scan_files_listing in E as [-> _].
      intros H. apply IH in H as ->. by rewrite <- app_assoc.
    + apply IH.
Qed.

Lemma scan_dirs_readable fw dirs acc st :
  (forall dir file,
     dir ∈ dirs ->
     dirExists pf (files st) (join pf (projectRoot pf) dir) = true ->
     file ∈ globbed pf config (files st) dir -> is_Some (files st !! file)) ->
  exists res, scan_dirs pf config fw dirs acc st = (Ok res, st).
Proof.
  revert acc. induction dirs as [|dir rest IH]; intros acc Hall; simpl.
  - by eexists.
  - unfold bind at 1, get_files at 1.
    destruct (dirExists pf (files st) _) eqn:Hd; simpl.
    + unfold bind at 1. rewrite scan_files_readable.
      * apply IH. intros d f Hin. apply Hall. by right.
      * apply Forall_forall. intros f Hf. apply (Hall dir f); [by left|done|done].
    + apply IH. intros d f Hin. apply Hall. by right.
Qed.

End ScanListing.

(** X26.  What [scan] returns, entry by entry: for each target directory
    that exists, in the order of the configuration, the entries of the files
    [glob] lists there that are longer than [maxLines], in the order of
    [glob].  Nothing is left out and nothing is merged: a file that two
    target directories list is returned twice.  The scan returns whenever
    every listed file can be read. *)
Theorem scan_lists_directory_by_directory
    (pf : Engine.Platform) (syn : Engine.Synthesis) (config : Engine.RefactorConfig)
    (st : Fs.state) :
  (forall found st',
     Engine.scan pf syn config st = (Fs.Ok found, st') ->
     found = scan_listing pf syn config (Fs.files st)) /\
  ((forall dir file,
      dir ∈ Engine.targetDirectories config ->
      Engine.dirExists pf (Fs.files st) (Engine.join pf (Engine.projectRoot pf) dir) = true ->
      file ∈ globbed pf config (Fs.files st) dir -> is_Some (Fs.files st !! file)) ->
   Engine.scan pf syn config st = (Fs.Ok (scan_listing pf syn config (Fs.files st)), st)).
Proof.
  split.
  - intros found st'. unfold Engine.scan, Fs.bind at 1, Fs.get_files at 1.
    intros H. by apply scan_dirs_listing in H.
  - intros Hall. unfold Engine.scan, Fs.bind at 1, Fs.get_files at 1.
    destruct (scan_dirs_readable pf config (Engine.detectFramework syn (Fs.files st))
                (Engine.targetDirectories config) [] st Hall) as [res E].
    rewrite E. by apply scan_dirs_listing in E as ->.
Qed.

(** With the target directory named twice, the long sample file is returned
    twice. *)
Lemma scan_lists_directory_by_directory_witness :
  Engine.scan Sample.pf Sample.syn Sample4.config_twice Sample.st0
  = (Fs.Ok [Engine.Build_FileToRefactor "/p/src/long.ts" 4 "unknown";
            Engine.Build_FileToRefactor "/p/src/long.ts" 4 "unknown"], Sample.st0).
Proof.
  rewrite (proj2 (scan_lists_directory_by_directory Sample.pf Sample.syn
                    Sample4.config_twice Sample.st0)).
  - vm_compute. reflexivity.
  - intros dir file Hdir _.
    assert (dir = "src") as ->.
    { revert Hdir. change (dir ∈ ["src"; "src"] -> dir = "src").
      rewrite !elem_of_cons, elem_of_nil. tauto. }
    replace (globbed Sample.pf Sample4.config_twice (Fs.files Sample.st0) "src")
      with ["/p/src/short.ts"; "/p/src/long.ts"] by (vm_compute; reflexivity).
    rewrite !elem_of_cons, elem_of_nil. intros [->|[->|[]]]; vm_compute; eauto.
Defined.

(* ===================================================================== *)
(** ** What the chunks keep of the text *)
(* ===================================================================== *)

Section ChunkContent.
Import Engine.

Lemma without_space_app (a b : string) :
  without_space (a +:+ b) = without_space a +:+ without_space b.
Proof.
  induction a as [|c a IH]; [done|].
  rewrite append_cons. cbn [without_space]. destruct (Js.is_space c); [done|].
  by rewrite append_cons, IH.
Qed.

Lemma without_space_trimStart (s : string) :
  without_space (Js.trimStart s) = without_space s.
Proof.
  induction s as [|c s IH]; [done|]. cbn [Js.trimStart without_space].
  destruct (Js.is_space c) eqn:E; [done|]. cbn [without_space]. by rewrite E.
Qed.

Lemma without_space_trimEnd (s : string) :
  without_space (Js.trimEnd s) = without_space s.
Proof.
  induction s as [|c s IH]; [done|]. cbn [Js.trimEnd without_space].
  rewrite <- IH. destruct (Js.trimEnd s) as [|d t].
  - destruct (Js.is_space c) eqn:E; [done|]. cbn [without_space]. by rewrite E.
  - cbn [without_space]. by destruct (Js.is_space c).
Qed.

Lemma without_space_trim (s : string) : without_space (Js.trim s) = without_space s.
Proof. unfold Js.trim. by rewrite without_space_trimEnd, without_space_trimStart. Qed.

Lemma join_empty_snoc (l : list string) (x : string) :
  Js.join EmptyString (l ++ [x]) = Js.join EmptyString l +:+ x.
Proof.
  induction l as [|y l IH].
  - simpl. by rewrite append_nil_l.
  - change ((y :: l) ++ [x]) with (y :: (l ++ [x])).
    by rewrite !join_empty_cons, IH, str_app_assoc.
Qed.

Lemma without_space_lines (ls : list string) :
  without_space (Js.join (String "010" EmptyString) ls)
  = Js.join EmptyString (map without_space ls).
Proof.
  induction ls as [|x ls IH]; [done|].
  destruct ls as [|y ls]; [done|].
  - rewrite join_cons2, !without_space_app, IH.
    change (map without_space (x :: y :: ls))
      with (without_space x :: map without_space (y :: ls)).
    by rewrite join_empty_cons.
Qed.

(** The loop of [splitContentIntoChunks] moves no character but white
    space. *)
Lemma chunk_fold_keeps (maxLines : Z) (ls : list string) chunks cur n :
  let '(chunks', cur', _) :=
    fold_left
      (fun '(chunks, currentChunk, currentLines) line =>
         if (Z.of_nat currentLines >=? maxLines)%Z
            && String.eqb (Js.trim line) EmptyString
         then (chunks ++ [Js.trim currentChunk], EmptyString, 0)
         else (chunks, currentChunk +:+ line +:+ String "010" EmptyString,
               S currentLines))
      ls (chunks, cur, n) in
  Js.join EmptyString (map without_space chunks') +:+ without_space cur'
  = Js.join EmptyString (map without_space chunks) +:+ without_space cur +:+
    Js.join EmptyString (map without_space ls).
Proof.
  revert chunks cur n. induction ls as [|line ls IH]; intros chunks cur n.
  - simpl. by rewrite append_empty_r.
  - cbn [fold_left].
    destruct ((Z.of_nat n >=? maxLines)%Z && String.eqb (Js.trim line) EmptyString) eqn:Hcut.
    + apply andb_prop in Hcut as [_ Hb]. apply String.eqb_eq in Hb.
      assert (Hl : without_space line = EmptyString).
      { by rewrite <- without_space_trim, Hb. }
      specialize (IH (chunks ++ [Js.trim cur]) EmptyString 0).
      destruct (fold_left _ ls _) as [[chunks' cur'] n'].
      rewrite IH. rewrite map_app. cbn [map].
      rewrite join_empty_snoc, join_empty_cons, Hl, without_space_trim.
      cbn [without_space]. by rewrite !append_nil_l, str_app_assoc.
    + specialize (IH chunks (cur +:+ line +:+ String "010" EmptyString) (S n)).
      destruct (fold_left _ ls _) as [[chunks' cur'] n'].
      rewrite IH. cbn [map]. rewrite join_empty_cons, !without_space_app.
      change (without_space (String "010" EmptyString)) with EmptyString.
      by rewrite append_empty_r, !str_app_assoc.
Qed.

End ChunkContent.

(** X27.  [splitContentIntoChunks] loses no code: put end to end, the chunks
    hold the characters of the text that are not white space, all of them,
    in their order.  Cutting and trimming only ever drop white space. *)
Theorem chunks_keep_every_character (content : string) (maxLines : Z) :
  Js.join EmptyString
    (map without_space (Engine.splitContentIntoChunks content maxLines))
  = without_space content.
Proof.
  unfold Engine.splitContentIntoChunks.
  pose proof (chunk_fold_keeps maxLines (Js.split "010" content) [] EmptyString 0) as H.
  destruct (fold_left _ (Js.split "010" content) _) as [[chunks cur] n].
  rewrite <- (without_space_lines (Js.split "010" content)), join_split in H.
  cbn [map without_space] in H.
  change (Js.join EmptyString []) with EmptyString in H.
  rewrite !append_nil_l in H. rewrite <- H.
  destruct (String.eqb_spec (Js.trim cur) EmptyString) as [Hb|Hb]; cbn [negb].
  - by rewrite <- (without_space_trim cur), Hb, append_empty_r.
  - rewrite map_app. cbn [map]. by rewrite join_empty_snoc, without_space_trim.
Qed.

(* ===================================================================== *)
(** ** Which defect verification reports *)
(* ===================================================================== *)

Section FirstDefect.
Import Fs Engine.

Lemma verify_exist_find newFiles st :
  verify_exist newFiles st
  = (Ok (option_map
           (fun file => Build_Verification false
                          (Some ("Created file does not exist: " +:+ file)))
           (List.find (is_missing (files st)) newFiles)), st).
Proof.
  induction newFiles as [|file rest IH]; [done|].
  cbn [verify_exist List.find]. unfold bind, pathExists, is_missing at 1.
  by destruct (negb (bool_decide (is_Some (files st !! file)))).
Qed.

Lemma find_missing_None fsys newFiles :
  List.find (is_missing fsys) newFiles = None ->
  Forall (fun f => is_Some (fsys !! f)) newFiles.
Proof.
  induction newFiles as [|file rest IH]; [constructor|].
  cbn [List.find]. unfold is_missing at 1.
  case_bool_decide as He; [|done]. simpl. intros H. constructor; auto.
Qed.

Lemma verify_content_find newFiles st :
  Forall (fun f => is_Some (files st !! f)) newFiles ->
  verify_content newFiles st
  = (Ok (option_map
           (fun file => Build_Verification false
                          (Some ("Created file is empty: " +:+ file)))
           (List.find (is_blank_file (files st)) newFiles)), st).
Proof.
  induction 1 as [|file rest [content Hc] _ IH]; [done|].
  cbn [verify_content List.find]. unfold bind, readFile, is_blank_file at 1.
  rewrite Hc. by destruct (String.length (Js.trim content) =? 0).
Qed.

Lemma verify_braces_find newFiles st :
  Forall (fun f => is_Some (files st !! f)) newFiles ->
  verify_braces newFiles st
  = (Ok (option_map
           (fun file => Build_Verification false
                          (Some ("Syntax error in file: " +:+ file +:+
                                 " - unbalanced braces")))
           (List.find (is_unbalanced (files st)) newFiles)), st).
Proof.
  induction 1 as [|file rest [content Hc] _ IH]; [done|].
  cbn [verify_braces List.find]. unfold bind, readFile, is_unbalanced at 1.
  rewrite Hc. by destruct (negb (Js.count_char "{" content =? Js.count_char "}" content)).
Qed.

End FirstDefect.

(** X28.  Which defect [verifyRefactoring] reports.  The three checks run
    one after the other over the whole list: the error is that of the first
    missing file; when no file is missing, that of the first blank file;
    when none is blank, that of the first file with unpaired braces.  So a
    missing file late in the list is reported before a blank file early in
    it, and verification succeeds exactly when there is nothing to report. *)
Theorem verifyRefactoring_reports_first_defect
    (originalFile : string) (newFiles : list string) (st : Fs.state) :
  Engine.verifyRefactoring originalFile newFiles st
  = (Fs.Ok (Engine.Build_Verification
              (match first_defect (Fs.files st) newFiles with
               | None => true
               | Some _ => false
               end)
              (first_defect (Fs.files st) newFiles)), st).
Proof.
  unfold Engine.verifyRefactoring, Fs.try_catch, first_defect.
  unfold Fs.bind at 1. rewrite verify_exist_find.
  destruct (List.find (is_missing (Fs.files st)) newFiles) as [f|] eqn:Hm; [done|].
  apply find_missing_None in Hm. cbn [option_map].
  unfold Fs.bind at 1. rewrite (verify_content_find _ _ Hm).
  destruct (List.find (is_blank_file (Fs.files st)) newFiles) as [f|]; [done|].
  cbn [option_map]. unfold Fs.bind at 1. rewrite (verify_braces_find _ _ Hm).
  by destruct (List.find (is_unbalanced (Fs.files st)) newFiles) as [f|].
Qed.

(* ===================================================================== *)
(** ** The import filter on written statements *)
(* ===================================================================== *)

Section WrittenFacts.
Import Regex Imports Written.

Local Arguments Js.is_word : simpl never.
Local Arguments Js.is_space : simpl never.

Lemma every_app p a b : every p (a +:+ b) = every p a && every p b.
Proof.
  induction a as [|x a IH]; [done|].
  rewrite append_cons. simpl. by rewrite IH, andb_assoc.
Qed.

Lemma every_impl (p q : ascii -> bool) s :
  (forall c, p c = true -> q c = true) -> every p s = true -> every q s = true.
Proof.
  intros Hpq. induction s as [|c s IH]; [done|]. simpl.
  rewrite !andb_true_iff. intros [Hc Hs]. split; [by apply Hpq|by apply IH].
Qed.

Lemma every_all_word n : every Js.is_word n = all_word n.
Proof. induction n as [|c n IH]; [done|]. simpl. by rewrite IH. Qed.

Lemma str_length_app (a b : string) :
  String.length (a +:+ b) = String.length a + String.length b.
Proof.
  induction a as [|x a IH]; [done|]. rewrite append_cons. simpl. by rewrite IH.
Qed.

Lemma prefix_upto_app a b : prefix_upto (a +:+ b) b = a.
Proof.
  unfold prefix_upto. rewrite str_length_app.
  replace (String.length a + String.length b - String.length b)
    with (String.length a) by lia.
  induction a as [|x a IH]; [by destruct b|].
  rewrite append_cons. simpl. by rewrite IH.
Qed.

(** A greedy star of a class reads the whole run of the class, when what
    follows the run lets the rest of the pattern match. *)
Lemma m_Star_Cls {R} p a b prev c (k : option ascii -> string -> caps -> option R) x :
  every p a = true -> stops p b = true ->
  (forall pr, k pr b c = Some x) ->
  m (Star (Cls p)) prev (a +:+ b) c k = Some x.
Proof.
  intros Ha Hb Hk.
  pose (loop :=
    fix loop (fuel : nat) (prev : option ascii) (s : string) (c : caps)
        {struct fuel} : option R :=
      match fuel with
      | 0 => k prev s c
      | S fuel' =>
          match m (Cls p) prev s c
                  (fun p' s' c' =>
                     if String.length s' <? String.length s
                     then loop fuel' p' s' c' else None) with
          | Some x => Some x
          | None => k prev s c
          end
      end).
  change (loop (S (String.length (a +:+ b))) prev (a +:+ b) c = Some x).
  assert (Hloop : forall fuel prev s c,
            loop (S fuel) prev s c
            = match m (Cls p) prev s c
                      (fun p' s' c' =>
                         if String.length s' <? String.length s
                         then loop fuel p' s' c' else None) with
              | Some x => Some x
              | None => k prev s c
              end) by reflexivity.
  assert (Hlt : String.length a < S (String.length (a +:+ b))).
  { rewrite str_length_app. lia. }
  revert Hlt. generalize (S (String.length (a +:+ b))) as fuel.
  intros fuel. revert a prev Ha. clearbody loop.
  induction fuel as [|fuel IH]; intros a prev Ha Hlt; [lia|].
  rewrite Hloop. destruct a as [|a0 a'].
  - rewrite append_nil_l. destruct b as [|h b'].
    + cbn [m]. apply Hk.
    + simpl in Hb. apply negb_true_iff in Hb. rewrite m_Cls_cons, Hb. apply Hk.
  - rewrite append_cons. simpl in Ha. apply andb_true_iff in Ha as [Ha0 Ha'].
    rewrite m_Cls_cons, Ha0.
    assert ((String.length (a' +:+ b) <? String.length (String a0 (a' +:+ b))) = true)
      as ->.
    { apply Nat.ltb_lt. simpl. lia. }
    rewrite IH; [done|done|]. simpl in Hlt. lia.
Qed.

Lemma m_Plus_Cls {R} p a b prev c (k : option ascii -> string -> caps -> option R) x :
  every p a = true -> a <> EmptyString -> stops p b = true ->
  (forall pr, k pr b c = Some x) ->
  m (Plus (Cls p)) prev (a +:+ b) c k = Some x.
Proof.
  intros Ha Hne Hb Hk. destruct a as [|a0 a']; [done|].
  simpl in Ha. apply andb_true_iff in Ha as [Ha0 Ha'].
  unfold Plus. rewrite m_Cat_eq, append_cons, m_Cls_cons, Ha0.
  by apply m_Star_Cls.
Qed.

Lemma m_Grp_Plus_Cls {R} n p a b prev c
    (k : option ascii -> string -> caps -> option R) x :
  every p a = true -> a <> EmptyString -> stops p b = true ->
  (forall pr, k pr b ((n, a) :: c) = Some x) ->
  m (Grp n (Plus (Cls p))) prev (a +:+ b) c k = Some x.
Proof.
  intros Ha Hne Hb Hk. rewrite m_Grp_eq. apply m_Plus_Cls; [done..|].
  intros pr. rewrite prefix_upto_app. apply Hk.
Qed.

Lemma m_Alt_first {R} r1 r2 prev s c
    (k : option ascii -> string -> caps -> option R) x :
  m r1 prev s c k = Some x -> m (Alt r1 r2) prev s c k = Some x.
Proof. intros H. cbn [m]. by rewrite H. Qed.

Lemma m_Alt_second {R} r1 r2 prev s c
    (k : option ascii -> string -> caps -> option R) :
  m r1 prev s c k = None -> m (Alt r1 r2) prev s c k = m r2 prev s c k.
Proof. intros H. cbn [m]. by rewrite H. Qed.

Lemma m_Chr_cons {R} a b prev s c (k : option ascii -> string -> caps -> option R) :
  m (Chr a) prev (String b s) c k = if Ascii.eqb a b then k (Some b) s c else None.
Proof. reflexivity. Qed.

Lemma startsWith_own t post : Js.startsWith (t +:+ post) t = true.
Proof. apply startsWith_append. by exists post. Qed.

Lemma m_Lit_own {R} t post prev c (k : option ascii -> string -> caps -> option R) :
  m (Lit t) prev (t +:+ post) c k = k (last_char prev t) post c.
Proof. by rewrite m_Lit, startsWith_own, skip_append. Qed.

Lemma gap_inv w : gap w = true -> w <> EmptyString /\ every Js.is_space w = true.
Proof. by destruct w. Qed.

Lemma identifier_inv n :
  identifier n = true -> n <> EmptyString /\ every Js.is_word n = true.
Proof. by destruct n. Qed.

Lemma space_not_word c : Js.is_space c = true -> Js.is_word c = false.
Proof. destruct c as [[] [] [] [] [] [] [] []]; vm_compute; congruence. Qed.

Lemma word_not_space c : Js.is_word c = true -> Js.is_space c = false.
Proof. destruct c as [[] [] [] [] [] [] [] []]; vm_compute; congruence. Qed.

Lemma quote_not_space c : is_quote c = true -> Js.is_space c = false.
Proof. destruct c as [[] [] [] [] [] [] [] []]; vm_compute; congruence. Qed.

Lemma word_not_brace c : Js.is_word c = true -> Ascii.eqb "{" c = false.
Proof. destruct c as [[] [] [] [] [] [] [] []]; vm_compute; congruence. Qed.

Lemma word_not_star c : Js.is_word c = true -> Ascii.eqb "*" c = false.
Proof. destruct c as [[] [] [] [] [] [] [] []]; vm_compute; congruence. Qed.

(** The characters of a piece: none closes the braces, none is a comma. *)
Lemma piece_char_not_close c :
  Js.is_space c || Js.is_word c = true -> negb (Ascii.eqb c "}") = true.
Proof. destruct c as [[] [] [] [] [] [] [] []]; vm_compute; congruence. Qed.

Lemma piece_char_not_comma c :
  Js.is_space c || Js.is_word c = true -> negb (Ascii.eqb c ",") = true.
Proof. destruct c as [[] [] [] [] [] [] [] []]; vm_compute; congruence. Qed.

Lemma stops_gap p w rest :
  gap w = true -> (forall c, Js.is_space c = true -> p c = false) ->
  stops p (w +:+ rest) = true.
Proof.
  destruct w as [|h w]; [done|]. simpl. intros Hw Hp.
  apply andb_true_iff in Hw as [Hh _]. by rewrite (Hp h Hh).
Qed.

Lemma stops_identifier p n rest :
  identifier n = true -> (forall c, Js.is_word c = true -> p c = false) ->
  stops p (n +:+ rest) = true.
Proof.
  destruct n as [|h n]; [done|]. simpl. intros Hn Hp.
  apply andb_true_iff in Hn as [Hh _]. by rewrite (Hp h Hh).
Qed.

(** From the white space before [from] to the closing quote. *)
Lemma m_from_on prev c w2 w3 q1 q2 mdl tail :
  gap w2 = true -> gap w3 = true ->
  is_quote q1 = true -> is_quote q2 = true ->
  mdl <> EmptyString -> every (fun c => negb (is_quote c)) mdl = true ->
  m from_on_re prev (w2 +:+ "from" +:+ w3 +:+ String q1 (mdl +:+ String q2 tail)) c
    (fun _ s' c' => Some (s', c'))
  = Some (tail, (4, mdl) :: c).
Proof.
  intros Hw2 Hw3 Hq1 Hq2 Hne Hm.
  destruct (gap_inv _ Hw2) as [Hw2n Hw2s]. destruct (gap_inv _ Hw3) as [Hw3n Hw3s].
  unfold from_on_re. rewrite m_Cat_eq. unfold sp at 1. apply m_Plus_Cls; [done|done|reflexivity|].
  intros pr. rewrite m_Cat_eq, m_Lit_own.
  rewrite m_Cat_eq. unfold sp at 1. apply m_Plus_Cls; [done|done| |].
  { simpl. by rewrite (quote_not_space _ Hq1). }
  intros pr'. rewrite m_Cat_eq, m_Cls_cons, Hq1.
  rewrite m_Cat_eq. apply m_Grp_Plus_Cls; [done|done| |].
  { simpl. by rewrite Hq2. }
  intros pr''. by rewrite m_Cls_cons, Hq2.
Qed.

Lemma piece_text_chars p :
  piece_ok p = true ->
  every (fun c => Js.is_space c || Js.is_word c) (piece_text p) = true.
Proof.
  unfold piece_ok, piece_text, all_space.
  rewrite !andb_true_iff. intros [[Hl Hn] Ht]. rewrite !every_app, !andb_true_iff.
  split; [|split].
  - eapply every_impl; [|exact Hl]. intros c ->. done.
  - eapply every_impl; [|exact Hn]. intros c ->. by rewrite orb_true_r.
  - eapply every_impl; [|exact Ht]. intros c ->. done.
Qed.

Lemma every_join p (sep : string) l :
  every p sep = true -> Forall (fun s => every p s = true) l ->
  every p (Js.join sep l) = true.
Proof.
  intros Hsep. induction l as [|x l IH]; [done|]. intros Hl.
  apply Forall_cons in Hl as [Hx Hl]. destruct l as [|y l]; [done|].
  rewrite join_cons2, !every_app, Hx, Hsep. by apply IH.
Qed.

Lemma braced_chars (p : ascii -> bool) pieces :
  forallb piece_ok pieces = true ->
  (forall c, Js.is_space c || Js.is_word c = true -> p c = true) ->
  p ","%char = true ->
  every p (braced pieces) = true.
Proof.
  intros Hok Hp Hc. unfold braced. apply every_join; [simpl; by rewrite Hc|].
  apply Forall_fmap, Forall_forall. intros q Hq. simpl.
  eapply every_impl; [exact Hp|]. apply piece_text_chars.
  rewrite forallb_forall in Hok. apply Hok. by apply list_elem_of_In.
Qed.

(** The clause of a well-formed statement, with white space after it. *)
Lemma m_clause {R} cl rest prev c
    (k : option ascii -> string -> caps -> option R) x :
  clause_ok cl = true -> stops Js.is_word rest = true ->
  (forall pr, k pr rest (clause_capture cl :: c) = Some x) ->
  m clause_re prev (clause_then cl rest) c k = Some x.
Proof.
  intros Hok Hrest Hk. unfold clause_re.
  destruct cl as [pieces|w4 w5 ns|d]; simpl in Hok, Hk.
  - apply andb_true_iff in Hok as [Hps Hne]. apply negb_true_iff in Hne.
    apply String.eqb_neq in Hne.
    apply m_Alt_first. cbn [clause_then].
    rewrite m_Cat_eq, m_Chr_cons, Ascii.eqb_refl.
    rewrite m_Cat_eq. apply m_Grp_Plus_Cls; [|done|reflexivity|].
    { apply braced_chars; [done| |done]. apply piece_char_not_close. }
    intros pr. by rewrite m_Chr_cons, Ascii.eqb_refl.
  - apply andb_true_iff in Hok as [Hok Hns]. apply andb_true_iff in Hok as [Hw4 Hw5].
    destruct (gap_inv _ Hw4) as [Hw4n Hw4s]. destruct (gap_inv _ Hw5) as [Hw5n Hw5s].
    destruct (identifier_inv _ Hns) as [Hnsn Hnsw].
    cbn [clause_then].
    rewrite m_Alt_second by reflexivity.
    apply m_Alt_first.
    rewrite m_Cat_eq, m_Chr_cons, Ascii.eqb_refl.
    rewrite m_Cat_eq. unfold sp at 1. apply m_Plus_Cls; [done|done|reflexivity|].
    intros pr. rewrite m_Cat_eq, m_Lit_own.
    rewrite m_Cat_eq. unfold sp at 1. apply m_Plus_Cls; [done|done| |].
    { apply stops_identifier; [done|]. apply word_not_space. }
    intros pr'. unfold word. by apply m_Grp_Plus_Cls.
  - apply andb_true_iff in Hok as [Hd _].
    destruct (identifier_inv _ Hd) as [Hdn Hdw].
    cbn [clause_then]. destruct d as [|h d]; [done|].
    pose proof Hdw as Hh. simpl in Hh. apply andb_true_iff in Hh as [Hh _].
    rewrite m_Alt_second.
    2:{ rewrite m_Cat_eq, append_cons, m_Chr_cons. by rewrite (word_not_brace _ Hh). }
    rewrite m_Alt_second.
    2:{ rewrite m_Cat_eq, append_cons, m_Chr_cons. by rewrite (word_not_star _ Hh). }
    unfold word. by apply m_Grp_Plus_Cls.
Qed.

(** What the clause begins with is no white space. *)
Lemma stops_clause cl rest :
  clause_ok cl = true -> stops Js.is_space (clause_then cl rest) = true.
Proof.
  destruct cl as [pieces|w4 w5 ns|d]; [done|done|]. simpl.
  intros Hok. apply andb_true_iff in Hok as [Hd _].
  apply stops_identifier; [done|]. apply word_not_space.
Qed.

(** A text that begins with the word [t] of word characters, the first
    characters of which are a name followed by something else, has the word
    at the beginning of the name. *)
Lemma startsWith_in_name t n h rest :
  every Js.is_word t = true -> Js.is_word h = false ->
  Js.startsWith (n +:+ String h rest) t = true ->
  exists n', n = t +:+ n'.
Proof.
  unfold Js.startsWith. revert n. induction t as [|a t IH]; intros n Ht Hh.
  - intros _. by exists n.
  - simpl in Ht. apply andb_true_iff in Ht as [Ha Ht].
    destruct n as [|b n].
    + rewrite append_nil_l. simpl. intros E. apply andb_true_iff in E as [E _].
      apply Ascii.eqb_eq in E. congruence.
    + rewrite append_cons. simpl. intros E. apply andb_true_iff in E as [E1 E2].
      apply Ascii.eqb_eq in E1 as ->.
      destruct (IH n Ht Hh E2) as [n' ->]. by exists n'.
Qed.

(** Without the word [type], the optional [type\s+] of the pattern reads
    nothing. *)
Lemma m_no_type {R} cl rest prev c
    (k : option ascii -> string -> caps -> option R) :
  clause_ok cl = true -> stops Js.is_word rest = true ->
  m (Cat (Lit "type") sp) prev (clause_then cl rest) c k = None.
Proof.
  intros Hok Hrest. destruct cl as [pieces|w4 w5 ns|d]; [done|done|].
  simpl in Hok. apply andb_true_iff in Hok as [Hd Hty].
  apply negb_true_iff, String.eqb_neq in Hty.
  destruct (identifier_inv _ Hd) as [Hdn Hdw].
  cbn [clause_then]. rewrite m_Cat_eq, m_Lit.
  destruct (Js.startsWith (d +:+ rest) "type") eqn:E; [|done].
  assert (exists d', d = "type" +:+ d') as [d' ->].
  { destruct rest as [|h rest].
    - rewrite append_empty_r in E. by apply startsWith_append.
    - simpl in Hrest. apply negb_true_iff in Hrest.
      by apply (startsWith_in_name "type" d h rest). }
  rewrite str_app_assoc, skip_append.
  destruct d' as [|x d']; [by rewrite append_empty_r in Hty|].
  rewrite every_app in Hdw. apply andb_true_iff in Hdw as [_ Hx].
  simpl in Hx. apply andb_true_iff in Hx as [Hx _].
  unfold sp, Plus. rewrite m_Cat_eq, append_cons, m_Cls_cons.
  by rewrite (word_not_space _ Hx).
Qed.

Lemma import_re_parts :
  import_re
  = Cat (Lit "import") (Cat sp (Cat (Opt (Cat (Lit "type") sp))
      (Cat clause_re from_on_re))).
Proof. reflexivity. Qed.

(** The pattern matches a well-formed statement where it begins, up to the
    closing quote. *)
Lemma match_here_written i :
  well_formed i = true ->
  match_here import_re None (statement_text i)
  = Some (ending i, [(4, module_name i); clause_capture (bound i)]).
Proof.
  unfold well_formed. rewrite !andb_true_iff.
  intros [[[[[[[[Hw1 Hty] Hcl] Hw2] Hw3] Hq1] Hq2] Hmn] Hmq].
  apply negb_true_iff, String.eqb_neq in Hmn.
  destruct (gap_inv _ Hw1) as [Hw1n Hw1s].
  assert (Hrest : forall tail, stops Js.is_word (before_from i +:+ tail) = true).
  { intros tail. apply stops_gap; [done|]. apply space_not_word. }
  assert (Hgo : forall pr,
            m (Cat clause_re from_on_re) pr
              (clause_then (bound i)
                 (before_from i +:+ "from" +:+ after_from i +:+
                  String (open_quote i)
                    (module_name i +:+ String (close_quote i) (ending i))))
              [] (fun _ s' c' => Some (s', c'))
            = Some (ending i, [(4, module_name i); clause_capture (bound i)])).
  { intros pr. rewrite m_Cat_eq. apply m_clause; [done|apply Hrest|].
    intros pr'. by apply m_from_on. }
  unfold match_here, statement_text. rewrite import_re_parts.
  rewrite m_Cat_eq, m_Lit_own, m_Cat_eq. unfold sp at 1.
  destruct (type_only i) as [w|].
  - destruct (gap_inv _ Hty) as [Hwn Hws].
    apply m_Plus_Cls; [done|done|reflexivity|].
    intros pr. rewrite m_Cat_eq. unfold Opt. apply m_Alt_first.
    rewrite m_Cat_eq, m_Lit_own. unfold sp at 1.
    apply m_Plus_Cls; [done|done|by apply stops_clause|].
    intros pr'. apply Hgo.
  - apply m_Plus_Cls; [done|done|by apply stops_clause|].
    intros pr. rewrite m_Cat_eq. unfold Opt.
    rewrite m_Alt_second by (apply m_no_type; [done|apply Hrest]).
    cbn [m]. apply Hgo.
Qed.

Lemma exec_from_here r prev pre s rest c :
  match_here r prev s = Some (rest, c) ->
  exec_from r prev pre s = Some (Found (String.rev pre) (prefix_upto s rest) rest c).
Proof. intros H. destruct s; cbn [exec_from]; by rewrite H. Qed.

(** *** The names of a braced list *)

Lemma split_no_sep c s :
  every (fun a => negb (Ascii.eqb a c)) s = true -> Js.split c s = [s].
Proof.
  induction s as [|a s IH]; [done|]. simpl.
  intros H. apply andb_true_iff in H as [Ha Hs]. apply negb_true_iff in Ha.
  by rewrite Ha, (IH Hs).
Qed.

Lemma split_app_sep c s rest :
  every (fun a => negb (Ascii.eqb a c)) s = true ->
  Js.split c (s +:+ String c rest) = s :: Js.split c rest.
Proof.
  induction s as [|a s IH].
  - intros _. rewrite append_nil_l. simpl. by rewrite Ascii.eqb_refl.
  - intros H. simpl in H. apply andb_true_iff in H as [Ha Hs].
    apply negb_true_iff in Ha. rewrite append_cons. simpl.
    by rewrite Ha, (IH Hs).
Qed.

(** Pieces that hold no separator come back from the joined text. *)
Lemma split_join c l :
  l <> [] ->
  Forall (fun s => every (fun a => negb (Ascii.eqb a c)) s = true) l ->
  Js.split c (Js.join (String c EmptyString) l) = l.
Proof.
  induction l as [|x l IH]; [done|]. intros _ H.
  apply Forall_cons in H as [Hx Hl]. destruct l as [|y l].
  - by apply split_no_sep.
  - rewrite join_cons2.
    change (String c EmptyString +:+ Js.join (String c EmptyString) (y :: l))
      with (String c (Js.join (String c EmptyString) (y :: l))).
    rewrite split_app_sep by done. by rewrite IH.
Qed.

Lemma trimStart_spaces w s :
  every Js.is_space w = true -> Js.trimStart (w +:+ s) = Js.trimStart s.
Proof.
  induction w as [|c w IH]; [done|]. intros H. simpl in H.
  apply andb_true_iff in H as [Hc Hw]. rewrite append_cons. cbn [Js.trimStart].
  by rewrite Hc, IH.
Qed.

Lemma trimEnd_spaces w : every Js.is_space w = true -> Js.trimEnd w = EmptyString.
Proof.
  induction w as [|c w IH]; [done|]. simpl. intros H.
  apply andb_true_iff in H as [Hc Hw]. by rewrite (IH Hw), Hc.
Qed.

Lemma trimEnd_app_spaces s w :
  every Js.is_space w = true -> Js.trimEnd (s +:+ w) = Js.trimEnd s.
Proof.
  intros Hw. induction s as [|c s IH].
  - rewrite append_nil_l. by apply trimEnd_spaces.
  - rewrite append_cons. simpl. by rewrite IH.
Qed.

Lemma trimEnd_word n : every Js.is_word n = true -> Js.trimEnd n = n.
Proof.
  induction n as [|c n IH]; [done|]. simpl. intros H.
  apply andb_true_iff in H as [Hc Hn]. rewrite (IH Hn).
  destruct n; [by rewrite (word_not_space _ Hc)|done].
Qed.

Lemma trimStart_word n : every Js.is_word n = true -> Js.trimStart n = n.
Proof.
  destruct n as [|c n]; [done|]. simpl. intros H.
  apply andb_true_iff in H as [Hc _]. by rewrite (word_not_space _ Hc).
Qed.

Lemma trim_word n : every Js.is_word n = true -> Js.trim n = n.
Proof. intros H. unfold Js.trim. by rewrite trimStart_word, trimEnd_word. Qed.

(** [trim] gives the name of a piece. *)
Lemma trim_piece p : piece_ok p = true -> Js.trim (piece_text p) = name p.
Proof.
  unfold piece_ok, piece_text, all_space. rewrite !andb_true_iff.
  intros [[Hl Hn] Ht]. unfold Js.trim. rewrite trimStart_spaces by done.
  destruct (name p) as [|c n] eqn:E.
  - rewrite append_nil_l.
    rewrite <- (append_empty_r (trail p)), trimStart_spaces by done. done.
  - pose proof Hn as Hc. simpl in Hc. apply andb_true_iff in Hc as [Hc _].
    rewrite append_cons. cbn [Js.trimStart]. rewrite (word_not_space _ Hc).
    rewrite <- append_cons, trimEnd_app_spaces by done. by apply trimEnd_word.
Qed.

(** A name holds no [as] clause to strip. *)
Lemma replace_alias_word n :
  every Js.is_word n = true -> replace_first alias_re n EmptyString = n.
Proof.
  intros Hn. unfold replace_first, exec.
  assert (exec_from alias_re None EmptyString n = None) as ->; [|done].
  apply exec_from_None. intros s1 s2 ->.
  rewrite every_app in Hn. apply andb_true_iff in Hn as [_ Hn].
  unfold match_here, alias_re, sp, Plus. rewrite !m_Cat_eq.
  destruct s2 as [|c s2]; [done|].
  simpl in Hn. apply andb_true_iff in Hn as [Hc _].
  by rewrite m_Cls_cons, (word_not_space _ Hc).
Qed.

Lemma braced_names pieces :
  forallb piece_ok pieces = true -> braced pieces <> EmptyString ->
  map (fun imp => Js.trim (replace_first alias_re imp EmptyString))
      (map Js.trim (Js.split "," (braced pieces)))
  = map name pieces.
Proof.
  intros Hok Hne. unfold braced.
  rewrite split_join.
  - rewrite !map_map. apply map_ext_in. intros p Hp.
    rewrite forallb_forall in Hok. specialize (Hok p Hp).
    rewrite (trim_piece p Hok).
    assert (Hn : every Js.is_word (name p) = true).
    { unfold piece_ok in Hok. rewrite !andb_true_iff in Hok. tauto. }
    by rewrite replace_alias_word, trim_word.
  - intros E. apply Hne. unfold braced. by destruct pieces.
  - apply Forall_fmap, Forall_forall. intros p Hp. simpl.
    eapply every_impl; [apply piece_char_not_comma|]. apply piece_text_chars.
    rewrite forallb_forall in Hok. apply Hok. by apply list_elem_of_In.
Qed.

Lemma truthy_Some v : v <> EmptyString -> truthy (Some v) = Some v.
Proof. by destruct v. Qed.

(** The names [getRequiredImports] reads from a well-formed statement are
    the names it was written with. *)
Lemma imported_names_written i :
  well_formed i = true -> imported_names (statement_text i) = Some (names (bound i)).
Proof.
  intros Hwf. unfold imported_names, exec.
  rewrite (exec_from_here _ _ _ _ _ _ (match_here_written i Hwf)). cbn [groups].
  unfold well_formed in Hwf. rewrite !andb_true_iff in Hwf.
  destruct Hwf as [[[[[[[[_ _] Hcl] _] _] _] _] _] _].
  destruct (bound i) as [pieces|w4 w5 ns|d]; simpl in Hcl;
    cbn [clause_capture cap Nat.eqb names].
  - apply andb_true_iff in Hcl as [Hps Hne].
    apply negb_true_iff, String.eqb_neq in Hne.
    rewrite (truthy_Some _ Hne). by rewrite braced_names.
  - rewrite !andb_true_iff in Hcl. destruct Hcl as [_ Hns].
    by destruct ns.
  - apply andb_true_iff in Hcl as [Hd _]. by destruct d.
Qed.

End WrittenFacts.


